(** * A red-black tree whose nodes live in a key-value store

    Shallow embedding of the tree engine of the order book
    (package [orderbook]): [Put], [Get], [Has], [Remove], [Floor],
    [Ceiling], [Clear], the rotations and the two rebalancing
    case-machines.

    The engine holds a root key and a count; every node is a record in a
    storage collaborator, addressed by the node's key, and the links
    between nodes are keys. The collaborator, the node accessors and the
    colour constants are declared outside the tree file; they are modelled
    here from the specification and marked as such. In that model a load
    hands out a fresh in-memory node, and a change to it reaches storage
    only through [Save].

    The operations run in a small state monad over the tree: a run
    returns, panics (nil dereference, failed [assertNotNull]) or runs out
    of the fuel that bounds the loops and the mutual recursion of the
    case-machines. *)

From Stdlib Require Import ZArith List Bool Lia.
From stdpp Require Import gmap list.

Open Scope Z_scope.

(** ** Byte strings *)

(** Go's [[]byte]; a nil slice and an empty slice are both the empty list. *)
Definition Bytes := list Byte.byte.

#[global] Instance byte_eq_dec : EqDecision Byte.byte := Byte.byte_eq_dec.

#[global] Instance byte_countable : Countable Byte.byte :=
  inj_countable Byte.to_N Byte.of_N Byte.of_to_N.

(** [bytes.Compare]: lexicographic order on byte strings, result in
    {-1, 0, 1}. *)
Fixpoint bytesCompare (a b : Bytes) : Z :=
  match a, b with
  | [], [] => 0
  | [], _ :: _ => -1
  | _ :: _, [] => 1
  | x :: a', y :: b' =>
      match N.compare (Byte.to_N x) (Byte.to_N y) with
      | Lt => -1
      | Gt => 1
      | Eq => bytesCompare a' b'
      end
  end.

(** A one-byte key, the form the scenarios of the test suite use
    (50, 30, 70, ...). *)
Definition bkey (n : N) : Bytes :=
  match Byte.of_N n with Some b => [b] | None => [] end.

(** ** Data model *)

(** Modelled from the spec: the two colours, which the node file declares
    and the tree file only uses. An absent child is black, and
    [insertCase2] stops when [nodeColor parent] is true, so black is
    [true] and red is [false]. *)
Definition black : bool := true.
Definition red : bool := false.

(** Modelled from the spec: the sentinel key reference ("no reference").
    The zero value of a byte slice, which the [rootKey] of a fresh [Tree]
    and the [KeyMeta] of a fresh [Item] hold, has to test as empty, so the
    sentinel is the empty byte string. *)
Definition EmptyKey : Bytes := [].

Record KeyMeta := mkKeyMeta {
  Left : Bytes;
  Right : Bytes;
  Parent : Bytes }.

Record Item := mkItem {
  Keys : KeyMeta;
  Value : Bytes;
  Color : bool }.

Record Node := mkNode {
  Key : Bytes;
  NItem : Item }.

#[global] Instance KeyMeta_eq_dec : EqDecision KeyMeta.
Proof. solve_decision. Defined.
#[global] Instance Item_eq_dec : EqDecision Item.
Proof. solve_decision. Defined.
#[global] Instance Node_eq_dec : EqDecision Node.
Proof. solve_decision. Defined.

(** Go's [error] value of the storage collaborator; [None] is [nil]. *)
Inductive error := StorageError.

(** ** The storage collaborator *)

(** Modelled from the spec: the [BatchDatabase] behind the tree. A load
    deserialises the stored record into a fresh [Item], a store upserts
    the record as it is at that moment, and either can fail with a storage
    error; [loadFails] and [storeFails] name the keys on which it does. *)
Record BatchDatabase := mkDB {
  records : gmap Bytes Item;
  loadFails : list Bytes;
  storeFails : list Bytes }.

(** Modelled from the spec: [is_empty_key], the test for the sentinel. *)
Definition db_IsEmptyKey (db : BatchDatabase) (key : Bytes) : bool :=
  bool_decide (key = EmptyKey).

(** Modelled from the spec: [load(key) -> record | not_found], with a
    storage error distinct from not-found. The sentinel is no reference,
    so loading it finds nothing. *)
Definition db_Get (db : BatchDatabase) (key : Bytes) : option Item * option error :=
  if db_IsEmptyKey db key then (None, None)
  else if bool_decide (key ∈ loadFails db) then (None, Some StorageError)
  else (records db !! key, None).

(** Modelled from the spec: [exists(key) -> bool]. *)
Definition db_Has (db : BatchDatabase) (key : Bytes) : bool * option error :=
  if db_IsEmptyKey db key then (false, None)
  else if bool_decide (key ∈ loadFails db) then (false, Some StorageError)
  else (bool_decide (is_Some (records db !! key)), None).

(** Modelled from the spec: [store(key, record)], an upsert. *)
Definition db_Put (db : BatchDatabase) (key : Bytes) (val : Item)
  : BatchDatabase * option error :=
  if bool_decide (key ∈ storeFails db) then (db, Some StorageError)
  else (mkDB (<[key := val]> (records db)) (loadFails db) (storeFails db), None).

(** Modelled from the spec: [delete(key, force)] removes a stored record. *)
Definition db_Delete (db : BatchDatabase) (key : Bytes) (force : bool) : BatchDatabase :=
  mkDB (delete key (records db)) (loadFails db) (storeFails db).

(** ** The tree *)

Record Tree := mkTree {
  db : BatchDatabase;
  rootKey : Bytes;
  size : Z;                       (* uint64 *)
  Comparator : Bytes -> Bytes -> Z }.

Definition uint64_max : Z := 2 ^ 64 - 1.
Definition wrap64 (z : Z) : Z := z mod 2 ^ 64.

Definition NewWith (comparator : Bytes -> Bytes -> Z) (d : BatchDatabase) : Tree :=
  mkTree d [] 0 comparator.

Definition NewWithBytesComparator (d : BatchDatabase) : Tree :=
  NewWith bytesCompare d.

Definition IsEmptyKey (tree : Tree) (key : Bytes) : bool :=
  db_IsEmptyKey (db tree) key.

Definition SetRootKey (tree : Tree) (key : Bytes) (sz : Z) : Tree :=
  mkTree (db tree) key sz (Comparator tree).

Definition GetNode (tree : Tree) (key : Bytes) : option Node * option error :=
  match db_Get (db tree) key with
  | (Some val, None) => (Some (mkNode key val), None)
  | (_, err) => (None, err)
  end.

Definition Root (tree : Tree) : option Node := fst (GetNode tree (rootKey tree)).

Definition Has (tree : Tree) (key : Bytes) : bool * option error :=
  db_Has (db tree) key.

Definition Get (tree : Tree) (key : Bytes) : Bytes * bool :=
  match GetNode tree key with
  | (_, Some _) => ([], false)
  | (Some node, None) => (Value (NItem node), true)
  | (None, None) => ([], false)
  end.

Definition Size (tree : Tree) : Z := size tree.

Definition Clear (tree : Tree) : Tree :=
  mkTree (db tree) EmptyKey 0 (Comparator tree).

(** ** In-memory nodes *)

(** A [*Node] variable is an [option Node], [None] being [nil]. *)

(** Modelled from the spec: the accessors of the node file. The
    key-reference getters answer the sentinel on an absent node, the
    setters change the in-memory node only. *)
Definition LeftKey (node : option Node) : Bytes :=
  match node with Some n => Left (Keys (NItem n)) | None => EmptyKey end.
Definition RightKey (node : option Node) : Bytes :=
  match node with Some n => Right (Keys (NItem n)) | None => EmptyKey end.
Definition ParentKey (node : option Node) : Bytes :=
  match node with Some n => Parent (Keys (NItem n)) | None => EmptyKey end.

Definition withKeys (f : KeyMeta -> KeyMeta) (node : option Node) : option Node :=
  match node with
  | Some n => Some (mkNode (Key n)
                      (mkItem (f (Keys (NItem n))) (Value (NItem n)) (Color (NItem n))))
  | None => None
  end.
Definition setLeftKey (node : option Node) (k : Bytes) : option Node :=
  withKeys (fun m => mkKeyMeta k (Right m) (Parent m)) node.
Definition setRightKey (node : option Node) (k : Bytes) : option Node :=
  withKeys (fun m => mkKeyMeta (Left m) k (Parent m)) node.
Definition setParentKey (node : option Node) (k : Bytes) : option Node :=
  withKeys (fun m => mkKeyMeta (Left m) (Right m) k) node.

Definition withColor (c : bool) (n : Node) : Node :=
  mkNode (Key n) (mkItem (Keys (NItem n)) (Value (NItem n)) c).
Definition withValue (v : Bytes) (n : Node) : Node :=
  mkNode (Key n) (mkItem (Keys (NItem n)) v (Color (NItem n))).

(** Modelled from the spec: following a key reference is a load through
    the storage collaborator; a failed load is an absent node. *)
Definition Node_Left (tree : Tree) (node : option Node) : option Node :=
  fst (GetNode tree (LeftKey node)).
Definition Node_Right (tree : Tree) (node : option Node) : option Node :=
  fst (GetNode tree (RightKey node)).
Definition Node_Parent (tree : Tree) (node : option Node) : option Node :=
  fst (GetNode tree (ParentKey node)).

Definition nodeColor (node : option Node) : bool :=
  match node with
  | None => black
  | Some n => Color (NItem n)
  end.

(** Modelled from the spec: the sibling is the other child of the parent,
    the uncle the sibling of the parent. *)
Definition Node_sibling (tree : Tree) (node : option Node) : option Node :=
  match node, Node_Parent tree node with
  | Some n, Some p =>
      if Comparator tree (Key n) (LeftKey (Some p)) =? 0
      then Node_Right tree (Some p) else Node_Left tree (Some p)
  | _, _ => None
  end.
Definition Node_uncle (tree : Tree) (node : option Node) : option Node :=
  Node_sibling tree (Node_Parent tree node).

(** ** Running the engine: state, panics and fuel *)

(** A tree operation either returns, panics (a nil dereference or a
    failed [assertNotNull]), or exhausts the fuel that bounds its loops
    and its recursion. *)
Inductive Res (A : Type) : Type :=
  | Ret (a : A)
  | Panic
  | Timeout.
Arguments Ret {A} a.
Arguments Panic {A}.
Arguments Timeout {A}.

Definition M (A : Type) : Type := Tree -> Res (A * Tree).

Definition ret {A} (a : A) : M A := fun t => Ret (a, t).
Definition bind {A B} (m : M A) (k : A -> M B) : M B :=
  fun t => match m t with
           | Ret (a, t') => k a t'
           | Panic => Panic
           | Timeout => Timeout
           end.
Definition panic {A} : M A := fun _ => Panic.
Definition timeout {A} : M A := fun _ => Timeout.
Definition gets {A} (f : Tree -> A) : M A := fun t => Ret (f t, t).
Definition modify (f : Tree -> Tree) : M unit := fun t => Ret (tt, f t).

Declare Scope tree_scope.
Delimit Scope tree_scope with tree.
Notation "x <- c1 ;; c2" := (bind c1 (fun x => c2))
  (at level 100, c1 at next level, c2 at level 200, right associativity) : tree_scope.
Notation "c1 ;; c2" := (bind c1 (fun _ => c2))
  (at level 100, c2 at level 200, right associativity) : tree_scope.
Open Scope tree_scope.

(** Reading a field through a [*Node]: a nil pointer panics. *)
Definition deref (node : option Node) : M Node :=
  match node with
  | Some n => ret n
  | None => panic
  end.

(** [node.Item.Color = c] *)
Definition setColor (node : option Node) (c : bool) : M (option Node) :=
  n <- deref node ;; ret (Some (withColor c n)).

Definition assertNotNull (node : option Node) : M unit :=
  match node with
  | Some _ => ret tt
  | None => panic
  end.

Definition Save (node : option Node) : M (option error) :=
  n <- deref node ;;
  fun t =>
    let (d, err) := db_Put (db t) (Key n) (NItem n) in
    Ret (err, mkTree d (rootKey t) (size t) (Comparator t)).

Definition setRootKey (k : Bytes) : M unit :=
  modify (fun t => mkTree (db t) k (size t) (Comparator t)).

Definition replaceNode (old new : option Node) : M (option Node) :=
  let newKey := match new with
                | None => EmptyKey
                | Some n => Key n
                end in
  noParent <- gets (fun t => IsEmptyKey t (ParentKey old)) ;;
  (if noParent : bool then setRootKey newKey
   else
     oldParent <- gets (fun t => Node_Parent t old) ;;
     o <- deref old ;;
     c <- gets (fun t => Comparator t (Key o) (LeftKey oldParent)) ;;
     Save (if c =? 0 then setLeftKey oldParent newKey
           else setRightKey oldParent newKey) ;;
     ret tt) ;;
  match new with
  | Some _ =>
      let new' := setParentKey new (ParentKey old) in
      Save new' ;; ret new'
  | None => ret None
  end.

Definition rotateLeft (node : option Node) : M unit :=
  right <- gets (fun t => Node_Right t node) ;;
  right <- replaceNode node right ;;
  let node := setRightKey node (LeftKey right) in
  hasRL <- gets (fun t => negb (IsEmptyKey t (LeftKey right))) ;;
  (if hasRL : bool then
     rightLeft <- gets (fun t => Node_Left t right) ;;
     n <- deref node ;;
     Save (setParentKey rightLeft (Key n)) ;; ret tt
   else ret tt) ;;
  n <- deref node ;;
  let right := setLeftKey right (Key n) in
  r <- deref right ;;
  let node := setParentKey node (Key r) in
  Save node ;;
  Save right ;;
  ret tt.

Definition rotateRight (node : option Node) : M unit :=
  left <- gets (fun t => Node_Left t node) ;;
  left <- replaceNode node left ;;
  let node := setLeftKey node (RightKey left) in
  hasLR <- gets (fun t => negb (IsEmptyKey t (RightKey left))) ;;
  (if hasLR : bool then
     leftRight <- gets (fun t => Node_Right t left) ;;
     n <- deref node ;;
     Save (setParentKey leftRight (Key n)) ;; ret tt
   else ret tt) ;;
  n <- deref node ;;
  let left := setRightKey left (Key n) in
  l <- deref left ;;
  let node := setParentKey node (Key l) in
  Save node ;;
  Save left ;;
  ret tt.

(** *** Insertion *)

Definition insertCase5 (node : option Node) : M unit :=
  parent <- gets (fun t => Node_Parent t node) ;;
  parent <- setColor parent black ;;
  Save parent ;;
  grandparent <- gets (fun t => Node_Parent t parent) ;;
  assertNotNull grandparent ;;
  grandparent <- setColor grandparent red ;;
  Save grandparent ;;
  n <- deref node ;;
  p <- deref parent ;;
  cmp <- gets Comparator ;;
  if (cmp (Key n) (LeftKey parent) =? 0) && (cmp (Key p) (LeftKey grandparent) =? 0)
  then rotateRight grandparent
  else if (cmp (Key n) (RightKey parent) =? 0) && (cmp (Key p) (RightKey grandparent) =? 0)
  then rotateLeft grandparent
  else ret tt.

Definition insertCase4 (node : option Node) : M unit :=
  parent <- gets (fun t => Node_Parent t node) ;;
  grandparent <- gets (fun t => Node_Parent t parent) ;;
  assertNotNull grandparent ;;
  n <- deref node ;;
  p <- deref parent ;;
  cmp <- gets Comparator ;;
  if (cmp (Key n) (RightKey parent) =? 0) && (cmp (Key p) (LeftKey grandparent) =? 0)
  then
    rotateLeft parent ;;
    node' <- gets (fun t => Node_Left t node) ;;
    insertCase5 node'
  else if (cmp (Key n) (LeftKey parent) =? 0) && (cmp (Key p) (RightKey grandparent) =? 0)
  then
    rotateRight parent ;;
    node' <- gets (fun t => Node_Right t node) ;;
    insertCase5 node'
  else insertCase5 node.

(** [insertCase3] calls back into [insertCase1] on the grandparent; the
    callee is a parameter here and the knot is tied in [insertCase1]. *)
Definition insertCase3 (insertCase1 : option Node -> M (option Node))
    (node : option Node) : M unit :=
  parent <- gets (fun t => Node_Parent t node) ;;
  uncle <- gets (fun t => Node_uncle t node) ;;
  if negb (nodeColor uncle) then
    parent <- setColor parent black ;;
    uncle <- setColor uncle black ;;
    Save uncle ;;
    Save parent ;;
    grandparent <- gets (fun t => Node_Parent t parent) ;;
    assertNotNull grandparent ;;
    grandparent <- setColor grandparent red ;;
    grandparent <- insertCase1 grandparent ;;
    Save grandparent ;;
    ret tt
  else insertCase4 node.

Definition insertCase2 (insertCase1 : option Node -> M (option Node))
    (node : option Node) : M unit :=
  parent <- gets (fun t => Node_Parent t node) ;;
  if nodeColor parent then ret tt
  else insertCase3 insertCase1 node.

(** Returns the node it was given, recoloured when it is the root: the
    caller persists it afterwards. *)
Fixpoint insertCase1 (fuel : nat) (node : option Node) : M (option Node) :=
  match fuel with
  | O => timeout
  | S fuel' =>
      noParent <- gets (fun t => IsEmptyKey t (ParentKey node)) ;;
      if noParent : bool then setColor node black
      else insertCase2 (insertCase1 fuel') node ;; ret node
  end.

(** How the descent of [Put] ends: on an equal key the value is
    overwritten and [Put] returns; otherwise a new node is hung below
    [node]. *)
Inductive PutDescent :=
  | Overwrote
  | Attached (node insertedNode : option Node).

Definition newNode (key value : Bytes) : option Node :=
  Some (mkNode key (mkItem (mkKeyMeta [] [] []) value red)).

Fixpoint Put_loop (fuel : nat) (key value : Bytes) (node : option Node)
  : M PutDescent :=
  match fuel with
  | O => timeout
  | S fuel' =>
      n <- deref node ;;
      compare <- gets (fun t => Comparator t key (Key n)) ;;
      if compare =? 0 then
        Save (Some (withValue value n)) ;;
        ret Overwrote
      else if compare <? 0 then
        noLeft <- gets (fun t => IsEmptyKey t (LeftKey node)) ;;
        if noLeft : bool then
          let node := setLeftKey node key in
          Save node ;;
          ret (Attached node (newNode key value))
        else
          next <- gets (fun t => Node_Left t node) ;;
          Put_loop fuel' key value next
      else
        noRight <- gets (fun t => IsEmptyKey t (RightKey node)) ;;
        if noRight : bool then
          let node := setRightKey node key in
          Save node ;;
          ret (Attached node (newNode key value))
        else
          next <- gets (fun t => Node_Right t node) ;;
          Put_loop fuel' key value next
  end.

Definition incSize : M unit :=
  modify (fun t => mkTree (db t) (rootKey t) (wrap64 (size t + 1)) (Comparator t)).
Definition decSize : M unit :=
  modify (fun t => mkTree (db t) (rootKey t) (wrap64 (size t - 1)) (Comparator t)).

Definition Put_fixup (fuel : nat) (insertedNode : option Node) : M (option error) :=
  insertedNode <- insertCase1 fuel insertedNode ;;
  Save insertedNode ;;
  incSize ;;
  ret None.

Definition Put (fuel : nat) (key value : Bytes) : M (option error) :=
  noRoot <- gets (fun t => IsEmptyKey t (rootKey t)) ;;
  if noRoot : bool then
    setRootKey key ;;
    Put_fixup fuel (newNode key value)
  else
    root <- gets Root ;;
    d <- Put_loop fuel key value root ;;
    match d with
    | Overwrote => ret None
    | Attached node insertedNode =>
        n <- deref node ;;
        let insertedNode := setParentKey insertedNode (Key n) in
        Save insertedNode ;;
        Put_fixup fuel insertedNode
    end.

(** *** Deletion *)

Definition deleteNode (node : option Node) (force : bool) : M unit :=
  n <- deref node ;;
  skip <- gets (fun t => (1 <? size t) && (Comparator t (Key n) (rootKey t) =? 0)) ;;
  if skip : bool then ret tt
  else modify (fun t => mkTree (db_Delete (db t) (Key n) force)
                          (rootKey t) (size t) (Comparator t)).

Definition deleteCase6 (node : option Node) : M unit :=
  parent <- gets (fun t => Node_Parent t node) ;;
  sibling <- gets (fun t => Node_sibling t node) ;;
  siblingLeft <- gets (fun t => Node_Left t sibling) ;;
  siblingRight <- gets (fun t => Node_Right t sibling) ;;
  sibling <- setColor sibling (nodeColor parent) ;;
  parent <- setColor parent black ;;
  Save sibling ;;
  Save parent ;;
  n <- deref node ;;
  cmp <- gets Comparator ;;
  (if (cmp (Key n) (LeftKey parent) =? 0) && negb (nodeColor siblingRight) then
     siblingRight <- setColor siblingRight black ;;
     Save siblingRight ;;
     rotateLeft parent
   else if negb (nodeColor siblingLeft) then
     siblingLeft <- setColor siblingLeft black ;;
     Save siblingLeft ;;
     rotateRight parent
   else ret tt) ;;
  deleteNode node false.

Definition deleteCase5 (node : option Node) : M unit :=
  parent <- gets (fun t => Node_Parent t node) ;;
  sibling <- gets (fun t => Node_sibling t node) ;;
  siblingLeft <- gets (fun t => Node_Left t sibling) ;;
  siblingRight <- gets (fun t => Node_Right t sibling) ;;
  n <- deref node ;;
  cmp <- gets Comparator ;;
  (if (cmp (Key n) (LeftKey parent) =? 0) && nodeColor sibling
      && negb (nodeColor siblingLeft) && nodeColor siblingRight then
     sibling <- setColor sibling red ;;
     siblingLeft <- setColor siblingLeft black ;;
     Save sibling ;;
     Save siblingLeft ;;
     rotateRight sibling
   else if (cmp (Key n) (RightKey parent) =? 0) && nodeColor sibling
      && negb (nodeColor siblingRight) && nodeColor siblingLeft then
     sibling <- setColor sibling red ;;
     siblingRight <- setColor siblingRight black ;;
     Save sibling ;;
     Save siblingRight ;;
     rotateLeft sibling
   else ret tt) ;;
  deleteCase6 node.

Definition deleteCase4 (node : option Node) : M unit :=
  parent <- gets (fun t => Node_Parent t node) ;;
  sibling <- gets (fun t => Node_sibling t node) ;;
  siblingLeft <- gets (fun t => Node_Left t sibling) ;;
  siblingRight <- gets (fun t => Node_Right t sibling) ;;
  if negb (nodeColor parent) && nodeColor sibling
     && nodeColor siblingLeft && nodeColor siblingRight then
    sibling <- setColor sibling red ;;
    parent <- setColor parent black ;;
    Save sibling ;;
    Save parent ;;
    ret tt
  else deleteCase5 node.

(** [deleteCase3] calls back into [deleteCase1] on the parent; as for the
    insertion the callee is a parameter. *)
Definition deleteCase3 (deleteCase1 : option Node -> M unit)
    (node : option Node) : M unit :=
  parent <- gets (fun t => Node_Parent t node) ;;
  sibling <- gets (fun t => Node_sibling t node) ;;
  siblingLeft <- gets (fun t => Node_Left t sibling) ;;
  siblingRight <- gets (fun t => Node_Right t sibling) ;;
  if nodeColor parent && nodeColor sibling
     && nodeColor siblingLeft && nodeColor siblingRight then
    sibling <- setColor sibling red ;;
    Save sibling ;;
    deleteCase1 parent ;;
    deleteNode node false
  else deleteCase4 node.

Definition deleteCase2 (deleteCase1 : option Node -> M unit)
    (node : option Node) : M unit :=
  parent <- gets (fun t => Node_Parent t node) ;;
  sibling <- gets (fun t => Node_sibling t node) ;;
  (if negb (nodeColor sibling) then
     parent <- setColor parent red ;;
     sibling <- setColor sibling black ;;
     Save parent ;;
     Save sibling ;;
     n <- deref node ;;
     c <- gets (fun t => Comparator t (Key n) (LeftKey parent)) ;;
     if c =? 0 then rotateLeft parent else rotateRight parent
   else ret tt) ;;
  deleteCase3 deleteCase1 node.

Fixpoint deleteCase1 (fuel : nat) (node : option Node) : M unit :=
  match fuel with
  | O => timeout
  | S fuel' =>
      noParent <- gets (fun t => IsEmptyKey t (ParentKey node)) ;;
      if noParent : bool then deleteNode node false
      else deleteCase2 (deleteCase1 fuel') node
  end.

(** Modelled from the spec: [maximumNode], the rightmost node below the
    receiver (the in-order predecessor when called on a left child). *)
Fixpoint Node_maximumNode (fuel : nat) (node : option Node) : M (option Node) :=
  match fuel with
  | O => timeout
  | S fuel' =>
      noRight <- gets (fun t => IsEmptyKey t (RightKey node)) ;;
      if noRight : bool then ret node
      else
        next <- gets (fun t => Node_Right t node) ;;
        Node_maximumNode fuel' next
  end.

Definition isNil (node : option Node) : bool :=
  match node with None => true | Some _ => false end.

Definition Remove (fuel : nat) (key : Bytes) : M unit :=
  got <- gets (fun t => GetNode t key) ;;
  match got with
  | (Some n, None) =>
      let node := Some n in
      hasLeft <- gets (fun t => negb (IsEmptyKey t (LeftKey node))) ;;
      left <- (if hasLeft : bool then gets (fun t => Node_Left t node) else ret None) ;;
      hasRight <- gets (fun t => negb (IsEmptyKey t (RightKey node))) ;;
      right <- (if hasRight : bool then gets (fun t => Node_Right t node) else ret None) ;;
      node <- (if negb (isNil left) && negb (isNil right)
               then Node_maximumNode fuel left else ret node) ;;
      (if isNil left || isNil right then
         let child := if isNil right then left else right in
         n <- deref node ;;
         (if Color (NItem n) then
            let node := Some (withColor (nodeColor child) n) in
            Save node ;;
            deleteCase1 fuel node
          else ret tt) ;;
         let node := if Color (NItem n)
                     then Some (withColor (nodeColor child) n) else node in
         child <- replaceNode node child ;;
         noParent <- gets (fun t => IsEmptyKey t (ParentKey node)) ;;
         if (noParent : bool) && negb (isNil child) then
           child <- setColor child black ;;
           Save child ;;
           ret tt
         else ret tt
       else ret tt) ;;
      decSize
  | _ => ret tt
  end.

(** *** Ordered lookup *)

Fixpoint Floor_loop (fuel : nat) (tree : Tree) (key : Bytes)
    (node floor : option Node) (found : bool) : Res (option Node * bool) :=
  match node with
  | None => if found then Ret (floor, true) else Ret (None, false)
  | Some n =>
      match fuel with
      | O => Timeout
      | S fuel' =>
          let compare := Comparator tree key (Key n) in
          if compare =? 0 then Ret (node, true)
          else if compare <? 0 then
            Floor_loop fuel' tree key (Node_Left tree node) floor found
          else
            Floor_loop fuel' tree key (Node_Right tree node) node true
      end
  end.

Definition Floor (fuel : nat) (tree : Tree) (key : Bytes) : Res (option Node * bool) :=
  Floor_loop fuel tree key (Root tree) None false.

Fixpoint Ceiling_loop (fuel : nat) (tree : Tree) (key : Bytes)
    (node ceiling : option Node) (found : bool) : Res (option Node * bool) :=
  match node with
  | None => if found then Ret (ceiling, true) else Ret (None, false)
  | Some n =>
      match fuel with
      | O => Timeout
      | S fuel' =>
          let compare := Comparator tree key (Key n) in
          if compare =? 0 then Ret (node, true)
          else if compare <? 0 then
            Ceiling_loop fuel' tree key (Node_Left tree node) node true
          else
            Ceiling_loop fuel' tree key (Node_Right tree node) ceiling found
      end
  end.

Definition Ceiling (fuel : nat) (tree : Tree) (key : Bytes) : Res (option Node * bool) :=
  Ceiling_loop fuel tree key (Root tree) None false.

(** Modelled from the spec: the in-order sequence of the stored tree, the
    nodes met by a left-node-right walk along the key references from
    [key]; [fuel] bounds the depth of the walk. *)
Fixpoint inorder (fuel : nat) (tree : Tree) (key : Bytes) : list Node :=
  match fuel with
  | O => []
  | S fuel' =>
      match fst (GetNode tree key) with
      | Some n =>
          inorder fuel' tree (LeftKey (Some n)) ++ n :: inorder fuel' tree (RightKey (Some n))
      | None => []
      end
  end.

Definition inorderKeys (fuel : nat) (tree : Tree) : list Bytes :=
  map Key (inorder fuel tree (rootKey tree)).

(** ** Scenarios *)

Definition emptyDB : BatchDatabase := mkDB ∅ [] [].

(** Runs a list of insertions, each with the same value. *)
Fixpoint putAll (fuel : nat) (keys : list Bytes) (value : Bytes) : M unit :=
  match keys with
  | [] => ret tt
  | k :: ks => Put fuel k value ;; putAll fuel ks value
  end.

Definition stateOf {A} (r : Res (A * Tree)) : option Tree :=
  match r with Ret (_, t) => Some t | _ => None end.

(** ** The comparator as a total order *)

(** What the engine expects of the injected comparator: zero exactly on
    equal keys, antisymmetric and transitive. *)
Record TotalOrder (cmp : Bytes -> Bytes -> Z) : Prop := mkTotalOrder {
  cmp_eq : forall a b, cmp a b = 0 <-> a = b;
  cmp_antisym : forall a b, cmp a b < 0 <-> 0 < cmp b a;
  cmp_trans : forall a b c, cmp a b < 0 -> cmp b c < 0 -> cmp a c < 0 }.

(** ** The stored tree *)

(** The shape of a stored tree: the nodes as the loads return them. *)
Inductive shape :=
  | Leaf
  | Br (l : shape) (n : Node) (r : shape).

Fixpoint nodes (s : shape) : list Node :=
  match s with
  | Leaf => []
  | Br l n r => nodes l ++ n :: nodes r
  end.

Definition keys (s : shape) : list Bytes := map Key (nodes s).

Fixpoint height (s : shape) : nat :=
  match s with
  | Leaf => O
  | Br l _ r => S (Nat.max (height l) (height r))
  end.

(** [Rep tree k s]: following the key reference [k] through the storage
    of [tree] unfolds into [s]. A reference that loads nothing (the
    sentinel, a missing record, a failing load) is a leaf. *)
Inductive Rep (tree : Tree) : Bytes -> shape -> Prop :=
  | Rep_leaf k :
      fst (GetNode tree k) = None ->
      Rep tree k Leaf
  | Rep_node k n l r :
      GetNode tree k = (Some n, None) ->
      Rep tree (LeftKey (Some n)) l ->
      Rep tree (RightKey (Some n)) r ->
      Rep tree k (Br l n r).

(** The search-tree order of a shape under a comparator. *)
Fixpoint bst (cmp : Bytes -> Bytes -> Z) (s : shape) : Prop :=
  match s with
  | Leaf => True
  | Br l n r =>
      bst cmp l /\ bst cmp r /\
      Forall (fun x => cmp x (Key n) < 0) (keys l) /\
      Forall (fun x => cmp (Key n) x < 0) (keys r)
  end.

(** The oracle of [Floor] and [Ceiling] on a sorted key set. *)
Definition is_floor (cmp : Bytes -> Bytes -> Z) (ks : list Bytes) (k f : Bytes) : Prop :=
  In f ks /\ cmp f k <= 0 /\ forall x, In x ks -> cmp x k <= 0 -> cmp x f <= 0.

Definition is_ceiling (cmp : Bytes -> Bytes -> Z) (ks : list Bytes) (k c : Bytes) : Prop :=
  In c ks /\ 0 <= cmp c k /\ forall x, In x ks -> 0 <= cmp x k -> 0 <= cmp x c.

(** The same two searches on the shape itself. *)
Fixpoint floor_in (cmp : Bytes -> Bytes -> Z) (s : shape) (key : Bytes) : option Node :=
  match s with
  | Leaf => None
  | Br l n r =>
      let c := cmp key (Key n) in
      if c =? 0 then Some n
      else if c <? 0 then floor_in cmp l key
      else match floor_in cmp r key with
           | Some m => Some m
           | None => Some n
           end
  end.

Fixpoint ceiling_in (cmp : Bytes -> Bytes -> Z) (s : shape) (key : Bytes) : option Node :=
  match s with
  | Leaf => None
  | Br l n r =>
      let c := cmp key (Key n) in
      if c =? 0 then Some n
      else if c <? 0 then
        match ceiling_in cmp l key with
        | Some m => Some m
        | None => Some n
        end
      else ceiling_in cmp r key
  end.

Fixpoint find_in (cmp : Bytes -> Bytes -> Z) (s : shape) (key : Bytes) : option Node :=
  match s with
  | Leaf => None
  | Br l n r =>
      let c := cmp key (Key n) in
      if c =? 0 then Some n
      else if c <? 0 then find_in cmp l key
      else find_in cmp r key
  end.

(** The lookup as the spec words it: one root-to-leaf descent driven by
    the comparator. [Get] and [Has] of the source are compared with it. *)
Fixpoint descent (fuel : nat) (tree : Tree) (key : Bytes) (node : option Node)
  : Res (option Node) :=
  match node with
  | None => Ret None
  | Some n =>
      match fuel with
      | O => Timeout
      | S fuel' =>
          let compare := Comparator tree key (Key n) in
          if compare =? 0 then Ret node
          else if compare <? 0 then descent fuel' tree key (Node_Left tree node)
          else descent fuel' tree key (Node_Right tree node)
      end
  end.

Definition descentGet (fuel : nat) (tree : Tree) (key : Bytes) : Res (Bytes * bool) :=
  match descent fuel tree key (Root tree) with
  | Ret (Some n) => Ret (Value (NItem n), true)
  | Ret None => Ret ([], false)
  | Panic => Panic
  | Timeout => Timeout
  end.

Definition descentHas (fuel : nat) (tree : Tree) (key : Bytes) : Res bool :=
  match descent fuel tree key (Root tree) with
  | Ret r => Ret (negb (isNil r))
  | Panic => Panic
  | Timeout => Timeout
  end.

(** Unfolds the stored tree below a key reference, for concrete states. *)
Fixpoint shapeOf (fuel : nat) (tree : Tree) (k : Bytes) : option shape :=
  match fuel with
  | O => None
  | S fuel' =>
      match GetNode tree k with
      | (Some n, None) =>
          match shapeOf fuel' tree (LeftKey (Some n)),
                shapeOf fuel' tree (RightKey (Some n)) with
          | Some l, Some r => Some (Br l n r)
          | _, _ => None
          end
      | (Some _, Some _) => None
      | (None, _) => Some Leaf
      end
  end.

(** ** Relations between the state before and the state after *)

(** [keeps P m]: every run of [m] that returns relates the state before
    to the state after by [P]. *)
Definition keeps {A} (P : Tree -> Tree -> Prop) (m : M A) : Prop :=
  forall t a t', m t = Ret (a, t') -> P t t'.

(** [yields Q m]: every run of [m] that returns, returns a value in [Q]. *)
Definition yields {A} (Q : A -> Prop) (m : M A) : Prop :=
  forall t a t', m t = Ret (a, t') -> Q a.

(** [sameMeta t t']: the count, the comparator and the failure sets of
    the store are in [t'] what they were in [t]. *)
Definition sameMeta (t t' : Tree) : Prop :=
  size t' = size t /\ Comparator t' = Comparator t /\
  loadFails (db t') = loadFails (db t) /\ storeFails (db t') = storeFails (db t).

(** [sameEnv t t']: as [sameMeta], without the count. *)
Definition sameEnv (t t' : Tree) : Prop :=
  Comparator t' = Comparator t /\
  loadFails (db t') = loadFails (db t) /\ storeFails (db t') = storeFails (db t).

(** The count after a removal that found its node. *)
Definition decRel (t t' : Tree) : Prop := size t' = wrap64 (size t - 1).

(** What the engine leaves in storage under [key] once [Put] is through. *)
Definition holds (key value : Bytes) (t t' : Tree) : Prop :=
  (exists it, records (db t') !! key = Some it /\ Value it = value) /\
  loadFails (db t') = loadFails (db t).

(** The state [Remove] leaves when it does nothing but count down. *)
Definition countedDown (t : Tree) : Tree :=
  mkTree (db t) (rootKey t) (wrap64 (size t - 1)) (Comparator t).

(** The tree after [Put] has overwritten the value of the node [n]. *)
Definition overwritten (t : Tree) (n : Node) (value : Bytes) : Tree :=
  mkTree (mkDB (<[Key n := NItem (withValue value n)]> (records (db t)))
            (loadFails (db t)) (storeFails (db t)))
    (rootKey t) (size t) (Comparator t).

(** The tree after the first [Put] of a key into a tree without root. *)
Definition firstTree (t : Tree) (key value : Bytes) : Tree :=
  mkTree (mkDB (<[key := mkItem (mkKeyMeta [] [] []) value black]> (records (db t)))
            (loadFails (db t)) (storeFails (db t)))
    key (wrap64 (size t + 1)) (Comparator t).

(** ** Concrete states *)

(** The key set {20,30,40,60,70,80} of the scenario, inserted in
    ascending order into a fresh tree. *)
Definition scenarioKeys : list Bytes := map bkey [20; 30; 40; 60; 70; 80]%N.

Definition scenarioTree : Tree :=
  match putAll 10 scenarioKeys [] (NewWithBytesComparator emptyDB) with
  | Ret (_, t) => t
  | _ => NewWithBytesComparator emptyDB
  end.

Definition scenarioShape : shape :=
  match shapeOf 10 scenarioTree (rootKey scenarioTree) with
  | Some s => s
  | None => Leaf
  end.

(** The insertion order of the deletion scenario. *)
Definition sevenKeys : list Bytes := map bkey [50; 30; 70; 20; 40; 60; 80]%N.

Definition sevenTree : Tree :=
  match putAll 10 sevenKeys [] (NewWithBytesComparator emptyDB) with
  | Ret (_, t) => t
  | _ => NewWithBytesComparator emptyDB
  end.

(** A root with a left and a right child. *)
Definition threeTree : Tree :=
  match putAll 10 (map bkey [50; 30; 70]%N) [] (NewWithBytesComparator emptyDB) with
  | Ret (_, t) => t
  | _ => NewWithBytesComparator emptyDB
  end.

(** A root with a red right child: the next larger key makes [Put]
    rotate. *)
Definition twoTree : Tree :=
  match putAll 10 (map bkey [20; 30]%N) [] (NewWithBytesComparator emptyDB) with
  | Ret (_, t) => t
  | _ => NewWithBytesComparator emptyDB
  end.

(** A tree that was cleared after one insertion: the record of the key is
    still in storage, the root reference is the sentinel. *)
Definition clearedTree : Tree :=
  match Put 1 (bkey 50) (bkey 1) (NewWithBytesComparator emptyDB) with
  | Ret (_, t) => Clear t
  | _ => NewWithBytesComparator emptyDB
  end.

(** A root reference that names no stored record, as [SetRootKey] can
    leave it. *)
Definition danglingTree : Tree :=
  SetRootKey (NewWithBytesComparator emptyDB) (bkey 1) 1.

(** An empty store that rejects every store under the key 50. *)
Definition failingStore : BatchDatabase := mkDB ∅ [] [bkey 50].

(** ** The rest of the tree's interface *)

Definition Empty (tree : Tree) : bool := size tree =? 0.

Fixpoint Tree_Left_loop (fuel : nat) (tree : Tree) (current parent : option Node)
  : Res (option Node) :=
  match current with
  | None => Ret parent
  | Some _ =>
      match fuel with
      | O => Timeout
      | S fuel' => Tree_Left_loop fuel' tree (Node_Left tree current) current
      end
  end.

(** [tree.Left()]: the left-most node, nil on an empty tree. *)
Definition Tree_Left (fuel : nat) (tree : Tree) : Res (option Node) :=
  Tree_Left_loop fuel tree (Root tree) None.

Fixpoint Tree_Right_loop (fuel : nat) (tree : Tree) (current parent : option Node)
  : Res (option Node) :=
  match current with
  | None => Ret parent
  | Some _ =>
      match fuel with
      | O => Timeout
      | S fuel' => Tree_Right_loop fuel' tree (Node_Right tree current) current
      end
  end.

(** [tree.Right()]: the right-most node, nil on an empty tree. *)
Definition Tree_Right (fuel : nat) (tree : Tree) : Res (option Node) :=
  Tree_Right_loop fuel tree (Root tree) None.

(** The first and the last node of a shape in in-order. *)
Fixpoint leftmost (s : shape) (parent : option Node) : option Node :=
  match s with
  | Leaf => parent
  | Br l n _ => leftmost l (Some n)
  end.

Fixpoint rightmost (s : shape) (parent : option Node) : option Node :=
  match s with
  | Leaf => parent
  | Br _ n r => rightmost r (Some n)
  end.

(** ** Values that an insertion must not touch *)

(** [agrees key V t]: in the storage of [t] every key but [key] holds the
    value [V] says, and the comparator of [t] is zero on equal keys only. *)
Definition agrees (key : Bytes) (V : Bytes -> option Bytes) (t : Tree) : Prop :=
  (forall k', k' <> key -> Value <$> (records (db t) !! k') = V k') /\
  (forall a b, Comparator t a b = 0 -> a = b).

(** An in-memory node is [known] when it carries the key being put or the
    value that [V] has for its key: saving it cannot change another
    key's value. *)
Definition known (key : Bytes) (V : Bytes -> option Bytes) (node : option Node) : Prop :=
  match node with
  | Some n => Key n = key \/ V (Key n) = Some (Value (NItem n))
  | None => True
  end.

(** What an operation's result has to satisfy, by the type of the result. *)
Class Good (key : Bytes) (V : Bytes -> option Bytes) (A : Type) : Type :=
  good : A -> Prop.

#[global] Instance Good_option_Node key V : Good key V (option Node) := known key V.
#[global] Instance Good_Node key V : Good key V Node := fun n => known key V (Some n).
#[global] Instance Good_PutDescent key V : Good key V PutDescent :=
  fun d => match d with
           | Overwrote => True
           | Attached node insertedNode => known key V node /\ known key V insertedNode
           end.
#[global] Instance Good_any key V A : Good key V A | 100 := fun _ => True.

(** [sound key V m]: from a state that agrees with [V], a run of [m] that
    returns ends in a state that agrees with [V], with a good result. *)
Definition sound (key : Bytes) (V : Bytes -> option Bytes) {A} `{!Good key V A}
    (m : M A) : Prop :=
  forall t a t', agrees key V t -> m t = Ret (a, t') -> agrees key V t' /\ good a.

(** [grows t t']: every key that has a record in [t] has one in [t'], and
    the failure sets of the store are the same. *)
Definition grows (t t' : Tree) : Prop :=
  (forall k, is_Some (records (db t) !! k) -> is_Some (records (db t') !! k)) /\
  loadFails (db t') = loadFails (db t).

(** ** Rotations on the stored tree *)

(** [Stored tree k s]: as [Rep], with every absent child written as the
    sentinel, the way the engine writes it. *)
Inductive Stored (tree : Tree) : Bytes -> shape -> Prop :=
  | Stored_leaf :
      Stored tree EmptyKey Leaf
  | Stored_node k n l r :
      GetNode tree k = (Some n, None) ->
      Stored tree (LeftKey (Some n)) l ->
      Stored tree (RightKey (Some n)) r ->
      Stored tree k (Br l n r).

(** The node [n] with its three key references replaced. *)
Definition linked (l r p : Bytes) (n : Node) : Node :=
  mkNode (Key n) (mkItem (mkKeyMeta l r p) (Value (NItem n)) (Color (NItem n))).

(** The shape [s] with the parent reference of its root set to [k]. *)
Definition reparent (k : Bytes) (s : shape) : shape :=
  match s with
  | Leaf => Leaf
  | Br l n r => Br l (linked (LeftKey (Some n)) (RightKey (Some n)) k n) r
  end.

(** The state after a successful store of the node [n]. *)
Definition store (t : Tree) (n : Node) : Tree :=
  mkTree (mkDB (<[Key n := NItem n]> (records (db t))) (loadFails (db t))
            (storeFails (db t)))
    (rootKey t) (size t) (Comparator t).

(** The parent of a rotated node once its child reference has been moved
    from [old] to [new]: the left reference when it compares equal to
    [old], the right one otherwise. *)
Definition relinked (t : Tree) (old new : Bytes) (p : Node) : Node :=
  if Comparator t old (LeftKey (Some p)) =? 0
  then linked new (RightKey (Some p)) (ParentKey (Some p)) p
  else linked (LeftKey (Some p)) new (ParentKey (Some p)) p.
(** The subtree [Br a x (Br b y c)] after a left rotation at [x]: [y] takes
    the place of [x], [x] becomes its left child, and [b] changes sides. *)
Definition rotatedLeft (a : shape) (x : Node) (b : shape) (y : Node) (c : shape) : shape :=
  Br (Br a (linked (LeftKey (Some x)) (LeftKey (Some y)) (Key y) x) (reparent (Key x) b))
     (linked (Key x) (RightKey (Some y)) (ParentKey (Some x)) y) c.
(** The subtree [Br (Br a x b) y c] after a right rotation at [y]: [x] takes
    the place of [y], [y] becomes its right child, and [b] changes sides. *)
Definition rotatedRight (a : shape) (x : Node) (b : shape) (y : Node) (c : shape) : shape :=
  Br a (linked (LeftKey (Some x)) (Key y) (ParentKey (Some y)) x)
     (Br (reparent (Key y) b)
         (linked (RightKey (Some x)) (RightKey (Some y)) (Key x) y) c).

(** A node without a value, as the insertions of the concrete trees store it. *)
Definition plainNode (k l r p : Bytes) (c : bool) : Node :=
  mkNode k (mkItem (mkKeyMeta l r p) [] c).

(** A root whose right child has a left child. *)
Definition fourTree : Tree :=
  match putAll 10 (map bkey [50; 30; 70; 60]%N) [] (NewWithBytesComparator emptyDB) with
  | Ret (_, t) => t
  | _ => NewWithBytesComparator emptyDB
  end.

Definition fourShape (c : shape) : shape :=
  Br (Br Leaf (plainNode (bkey 30) [] [] (bkey 50) black) Leaf)
     (plainNode (bkey 50) (bkey 30) (bkey 70) [] black)
     (Br (Br Leaf (plainNode (bkey 60) [] [] (bkey 70) red) Leaf)
         (plainNode (bkey 70) (bkey 60) [] (bkey 50) black) c).

(** The right subtree of [sevenTree]. *)
Definition sevenRight : shape :=
  Br (Br Leaf (plainNode (bkey 60) [] [] (bkey 70) red) Leaf)
     (plainNode (bkey 70) (bkey 60) (bkey 80) (bkey 50) black)
     (Br Leaf (plainNode (bkey 80) [] [] (bkey 70) red) Leaf).

(** ** Removal at the root and insertion below a black node *)

(** A tree of one key. *)
Definition oneTree : Tree :=
  match Put 10 (bkey 50) [] (NewWithBytesComparator emptyDB) with
  | Ret (_, t) => t
  | _ => NewWithBytesComparator emptyDB
  end.
(** The descent of [Put] without its writes: the node below which a new key
    is hung and the side ([true] for left), or nothing when the key is met
    on the way. *)
Fixpoint attachPoint (fuel : nat) (tree : Tree) (key : Bytes) (node : option Node)
  : Res (option (Node * bool)) :=
  match fuel with
  | O => Timeout
  | S fuel' =>
      match node with
      | None => Panic
      | Some n =>
          let compare := Comparator tree key (Key n) in
          if compare =? 0 then Ret None
          else if compare <? 0 then
            if IsEmptyKey tree (LeftKey node) then Ret (Some (n, true))
            else attachPoint fuel' tree key (Node_Left tree node)
          else
            if IsEmptyKey tree (RightKey node) then Ret (Some (n, false))
            else attachPoint fuel' tree key (Node_Right tree node)
      end
  end.

(** The parent of a new key once the key is hung below it. *)
Definition attached (key : Bytes) (m : Node) (side : bool) : Node :=
  if side then linked key (RightKey (Some m)) (ParentKey (Some m)) m
  else linked (LeftKey (Some m)) key (ParentKey (Some m)) m.

(** The scenario tree without its red leaf 80: the red node 60 has the two
    black leaves 40 and 70. *)
Definition prunedTree : Tree :=
  match Remove 10 (bkey 80) scenarioTree with
  | Ret (_, t) => t
  | _ => scenarioTree
  end.

(** [fourTree] without its red leaf 60: a black root with two black leaves. *)
Definition trimmedTree : Tree :=
  match Remove 10 (bkey 60) fourTree with
  | Ret (_, t) => t
  | _ => fourTree
  end.

(** Four keys inserted in ascending order: 30 is the root, 40 its black
    right child, 60 the red right child of 40. *)
Definition ascendingTree : Tree :=
  match putAll 10 (map bkey [20; 30; 40; 60]%N) [] (NewWithBytesComparator emptyDB) with
  | Ret (_, t) => t
  | _ => NewWithBytesComparator emptyDB
  end.

(** * Properties *)

(** ** [bytes.Compare] is a total order *)

Lemma byte_to_N_inj (x y : Byte.byte) : Byte.to_N x = Byte.to_N y -> x = y.
Proof.
  intros H. apply (f_equal Byte.of_N) in H.
  rewrite !Byte.of_to_N in H. congruence.
Qed.

Lemma bytesCompare_eq (a b : Bytes) : bytesCompare a b = 0 <-> a = b.
Proof.
  revert b. induction a as [|x a IH]; intros [|y b]; simpl; try (split; [lia | congruence]).
  - tauto.
  - destruct (N.compare_spec (Byte.to_N x) (Byte.to_N y)) as [E|L|G].
    + apply byte_to_N_inj in E. subst y. rewrite IH. split; congruence.
    + split; [lia |]. intros [= -> _]. lia.
    + split; [lia |]. intros [= -> _]. lia.
Qed.

Lemma bytesCompare_antisym (a b : Bytes) : bytesCompare a b < 0 <-> 0 < bytesCompare b a.
Proof.
  revert b. induction a as [|x a IH]; intros [|y b]; simpl; try lia.
  rewrite (N.compare_antisym (Byte.to_N x) (Byte.to_N y)).
  destruct (Byte.to_N x ?= Byte.to_N y)%N; simpl; [apply IH | lia | lia].
Qed.

Lemma bytesCompare_trans (a b c : Bytes) :
  bytesCompare a b < 0 -> bytesCompare b c < 0 -> bytesCompare a c < 0.
Proof.
  revert b c. induction a as [|x a IH]; intros [|y b] [|z c]; simpl; try lia.
  destruct (N.compare_spec (Byte.to_N x) (Byte.to_N y)) as [E|L|G];
    destruct (N.compare_spec (Byte.to_N y) (Byte.to_N z)) as [E'|L'|G'];
    try lia; intros H1 H2.
  - rewrite E, E', N.compare_refl. eauto.
  - rewrite E. apply N.compare_lt_iff in L'. rewrite L'. lia.
  - rewrite <- E'. apply N.compare_lt_iff in L. rewrite L. lia.
  - assert (Byte.to_N x < Byte.to_N z)%N as L2 by lia.
    apply N.compare_lt_iff in L2. rewrite L2. lia.
Qed.

Lemma bytesCompare_total : TotalOrder bytesCompare.
Proof.
  constructor;
    [apply bytesCompare_eq | apply bytesCompare_antisym | apply bytesCompare_trans].
Qed.

(** ** The ordered lookup on a stored search tree *)

Section Lookup.
Variable tree : Tree.
Hypothesis Hord : TotalOrder (Comparator tree).
Local Abbreviation cmp := (Comparator tree).

Lemma cmp_refl a : cmp a a = 0.
Proof. by apply (cmp_eq _ Hord). Qed.

Lemma cmp_gt_lt a b : 0 < cmp a b <-> cmp b a < 0.
Proof. symmetry. apply (cmp_antisym _ Hord). Qed.

Lemma cmp_le_trans_lt a b c : cmp a b < 0 -> cmp b c <= 0 -> cmp a c < 0.
Proof.
  intros H1 H2. destruct (Z.eq_dec (cmp b c) 0) as [E|N].
  - apply (cmp_eq _ Hord) in E. by subst.
  - apply (cmp_trans _ Hord a b c); [done | lia].
Qed.

Lemma cmp_lt_le a b : cmp a b < 0 -> cmp a b <= 0.
Proof. lia. Qed.

Lemma Rep_load k s :
  Rep tree k s ->
  fst (GetNode tree k) = match s with Leaf => None | Br _ n _ => Some n end.
Proof. destruct 1 as [k H | k n l r H _ _]; [done | by rewrite H]. Qed.

Lemma Floor_loop_shape s : forall fuel k key floor found,
  Rep tree k s -> (height s <= fuel)%nat ->
  Floor_loop fuel tree key (fst (GetNode tree k)) floor found =
  match floor_in cmp s key with
  | Some n => Ret (Some n, true)
  | None => if found then Ret (floor, true) else Ret (None, false)
  end.
Proof.
  induction s as [|l IHl n r IHr]; intros fuel k key floor found HR Hh.
  - rewrite (Rep_load _ _ HR). by destruct fuel.
  - rewrite (Rep_load _ _ HR). inversion HR as [|? ? ? ? HG HL HRr]; subst.
    destruct fuel as [|fuel]; [simpl in Hh; lia |]. simpl in Hh. simpl.
    fold cmp. destruct (cmp key (Key n) =? 0); [done |].
    destruct (cmp key (Key n) <? 0).
    + unfold Node_Left. rewrite (IHl fuel _ key floor found HL); [done | lia].
    + unfold Node_Right. rewrite (IHr fuel _ key (Some n) true HRr); [| lia].
      by destruct (floor_in cmp r key).
Qed.

Lemma Ceiling_loop_shape s : forall fuel k key ceiling found,
  Rep tree k s -> (height s <= fuel)%nat ->
  Ceiling_loop fuel tree key (fst (GetNode tree k)) ceiling found =
  match ceiling_in cmp s key with
  | Some n => Ret (Some n, true)
  | None => if found then Ret (ceiling, true) else Ret (None, false)
  end.
Proof.
  induction s as [|l IHl n r IHr]; intros fuel k key ceiling found HR Hh.
  - rewrite (Rep_load _ _ HR). by destruct fuel.
  - rewrite (Rep_load _ _ HR). inversion HR as [|? ? ? ? HG HL HRr]; subst.
    destruct fuel as [|fuel]; [simpl in Hh; lia |]. simpl in Hh. simpl.
    fold cmp. destruct (cmp key (Key n) =? 0); [done |].
    destruct (cmp key (Key n) <? 0).
    + unfold Node_Left. rewrite (IHl fuel _ key (Some n) true HL); [| lia].
      by destruct (ceiling_in cmp l key).
    + unfold Node_Right. rewrite (IHr fuel _ key ceiling found HRr); [done | lia].
Qed.

Lemma descent_shape s : forall fuel k key,
  Rep tree k s -> (height s <= fuel)%nat ->
  descent fuel tree key (fst (GetNode tree k)) = Ret (find_in cmp s key).
Proof.
  induction s as [|l IHl n r IHr]; intros fuel k key HR Hh.
  - rewrite (Rep_load _ _ HR). by destruct fuel.
  - rewrite (Rep_load _ _ HR). inversion HR as [|? ? ? ? HG HL HRr]; subst.
    destruct fuel as [|fuel]; [simpl in Hh; lia |]. simpl in Hh. simpl.
    fold cmp. destruct (cmp key (Key n) =? 0); [done |].
    destruct (cmp key (Key n) <? 0).
    + unfold Node_Left. apply IHl; [done | lia].
    + unfold Node_Right. apply IHr; [done | lia].
Qed.

Lemma In_keys_app l n r x :
  In x (keys (Br l n r)) <-> In x (keys l) \/ x = Key n \/ In x (keys r).
Proof.
  unfold keys. simpl. rewrite map_app, in_app_iff. simpl.
  intuition congruence.
Qed.

Lemma floor_in_spec s key :
  bst cmp s ->
  match floor_in cmp s key with
  | Some n => In n (nodes s) /\ is_floor cmp (keys s) key (Key n)
  | None => forall x, In x (keys s) -> 0 < cmp x key
  end.
Proof.
  induction s as [|l IHl n r IHr]; simpl; [intros _ x [] |].
  intros (Hl & Hr & Hlt & Hgt).
  rewrite Forall_forall in Hlt, Hgt.
  specialize (IHl Hl). specialize (IHr Hr).
  destruct (Z.eqb_spec (cmp key (Key n)) 0) as [E|NE].
  { apply (cmp_eq _ Hord) in E. subst key. split; [apply in_app_iff; simpl; auto |].
    split; [apply In_keys_app; auto |]. split; [rewrite cmp_refl; lia | auto]. }
  destruct (Z.ltb_spec (cmp key (Key n)) 0) as [L|G].
  - (* the key is below the node: everything at and right of it is above *)
    assert (forall x, x = Key n \/ In x (keys r) -> 0 < cmp x key) as Habove.
    { intros x [-> | Hx]; [by apply cmp_gt_lt |].
      apply cmp_gt_lt. apply (cmp_trans _ Hord _ (Key n)); [done | by apply Hgt, list_elem_of_In]. }
    destruct (floor_in cmp l key) as [m|].
    + destruct IHl as (Hin & Hk & Hle & Hmax).
      split; [apply in_app_iff; auto |].
      split; [apply In_keys_app; auto |]. split; [done |].
      intros x Hx Hxk. apply In_keys_app in Hx as [Hx | Hx]; [by apply Hmax |].
      specialize (Habove x Hx). lia.
    + intros x Hx. apply In_keys_app in Hx as [Hx | Hx]; [by apply IHl | by apply Habove].
  - (* the key is above the node: the node and its left side are candidates *)
    assert (0 < cmp key (Key n)) as G' by lia.
    apply cmp_gt_lt in G'.
    destruct (floor_in cmp r key) as [m|].
    + destruct IHr as (Hin & Hk & Hle & Hmax).
      split; [apply in_app_iff; simpl; auto |].
      split; [apply In_keys_app; auto |]. split; [done |].
      assert (cmp (Key n) (Key m) < 0) as Hnm by (by apply Hgt, list_elem_of_In).
      intros x Hx Hxk. apply In_keys_app in Hx as [Hx | [-> | Hx]]; [| lia | by apply Hmax].
      apply cmp_lt_le, (cmp_trans _ Hord _ (Key n)); [by apply Hlt, list_elem_of_In | done].
    + split; [apply in_app_iff; simpl; auto |].
      split; [apply In_keys_app; auto |]. split; [lia |].
      intros x Hx Hxk. apply In_keys_app in Hx as [Hx | [-> | Hx]].
      * apply cmp_lt_le. by apply Hlt, list_elem_of_In.
      * rewrite cmp_refl. lia.
      * specialize (IHr x Hx). lia.
Qed.

Lemma ceiling_in_spec s key :
  bst cmp s ->
  match ceiling_in cmp s key with
  | Some n => In n (nodes s) /\ is_ceiling cmp (keys s) key (Key n)
  | None => forall x, In x (keys s) -> cmp x key < 0
  end.
Proof.
  induction s as [|l IHl n r IHr]; simpl; [intros _ x [] |].
  intros (Hl & Hr & Hlt & Hgt).
  rewrite Forall_forall in Hlt, Hgt.
  specialize (IHl Hl). specialize (IHr Hr).
  destruct (Z.eqb_spec (cmp key (Key n)) 0) as [E|NE].
  { apply (cmp_eq _ Hord) in E. subst key. split; [apply in_app_iff; simpl; auto |].
    split; [apply In_keys_app; auto |]. split; [rewrite cmp_refl; lia | auto]. }
  destruct (Z.ltb_spec (cmp key (Key n)) 0) as [L|G].
  - (* the key is below the node: the node and its right side are candidates *)
    assert (0 < cmp (Key n) key) as L' by (by apply cmp_gt_lt).
    destruct (ceiling_in cmp l key) as [m|].
    + destruct IHl as (Hin & Hk & Hle & Hmin).
      split; [apply in_app_iff; auto |].
      split; [apply In_keys_app; auto |]. split; [done |].
      assert (cmp (Key m) (Key n) < 0) as Hmn by (by apply Hlt, list_elem_of_In).
      intros x Hx Hxk. apply In_keys_app in Hx as [Hx | [-> | Hx]]; [by apply Hmin | |].
      * apply cmp_gt_lt in Hmn. lia.
      * assert (cmp (Key m) x < 0) as H
          by (apply (cmp_trans _ Hord _ (Key n)); [done | by apply Hgt, list_elem_of_In]).
        apply cmp_gt_lt in H. lia.
    + split; [apply in_app_iff; simpl; auto |].
      split; [apply In_keys_app; auto |]. split; [lia |].
      intros x Hx Hxk. apply In_keys_app in Hx as [Hx | [-> | Hx]].
      * specialize (IHl x Hx). lia.
      * rewrite cmp_refl. lia.
      * assert (cmp (Key n) x < 0) as H by (by apply Hgt, list_elem_of_In).
        apply cmp_gt_lt in H. lia.
  - (* the key is above the node: everything at and left of it is below *)
    assert (0 < cmp key (Key n)) as G' by lia.
    apply cmp_gt_lt in G'.
    assert (forall x, In x (keys l) \/ x = Key n -> cmp x key < 0) as Hbelow.
    { intros x [Hx | ->]; [| done].
      apply (cmp_trans _ Hord _ (Key n)); [by apply Hlt, list_elem_of_In | done]. }
    destruct (ceiling_in cmp r key) as [m|].
    + destruct IHr as (Hin & Hk & Hle & Hmin).
      split; [apply in_app_iff; simpl; auto |].
      split; [apply In_keys_app; auto |]. split; [done |].
      intros x Hx Hxk. apply In_keys_app in Hx as [Hx | [Hx | Hx]]; [| | by apply Hmin].
      * specialize (Hbelow x (or_introl Hx)). lia.
      * specialize (Hbelow x (or_intror Hx)). lia.
    + intros x Hx. apply In_keys_app in Hx as [Hx | [Hx | Hx]]; [| | by apply IHr].
      * by apply Hbelow; left.
      * by apply Hbelow; right.
Qed.

Lemma find_in_spec s key :
  bst cmp s ->
  match find_in cmp s key with
  | Some n => In n (nodes s) /\ Key n = key
  | None => ~ In key (keys s)
  end.
Proof.
  induction s as [|l IHl n r IHr]; simpl; [tauto |].
  intros (Hl & Hr & Hlt & Hgt).
  rewrite Forall_forall in Hlt, Hgt.
  specialize (IHl Hl). specialize (IHr Hr).
  destruct (Z.eqb_spec (cmp key (Key n)) 0) as [E|NE].
  { apply (cmp_eq _ Hord) in E. split; [apply in_app_iff; simpl; auto | done]. }
  assert (key <> Key n) as Hne by (intros ->; by rewrite cmp_refl in NE).
  destruct (Z.ltb_spec (cmp key (Key n)) 0) as [L|G].
  - assert (~ In key (keys r)) as Hr'.
    { intros Hx. apply list_elem_of_In, Hgt in Hx. apply cmp_gt_lt in Hx. lia. }
    destruct (find_in cmp l key) as [m|].
    + destruct IHl. split; [apply in_app_iff; auto | done].
    + rewrite In_keys_app. intuition.
  - assert (~ In key (keys l)) as Hl'.
    { intros Hx. apply list_elem_of_In, Hlt in Hx. lia. }
    destruct (find_in cmp r key) as [m|].
    + destruct IHr. split; [apply in_app_iff; simpl; auto | done].
    + rewrite In_keys_app. intuition.
Qed.

End Lookup.

Lemma shapeOf_Rep tree : forall fuel k s, shapeOf fuel tree k = Some s -> Rep tree k s.
Proof.
  induction fuel as [|fuel IH]; intros k s; cbn [shapeOf]; [discriminate |].
  destruct (GetNode tree k) as [[n|] [e|]] eqn:HG.
  - discriminate.
  - destruct (shapeOf fuel tree (LeftKey (Some n))) as [l|] eqn:Hl;
      destruct (shapeOf fuel tree (RightKey (Some n))) as [r|] eqn:Hr;
      simpl; try discriminate.
    intros H. injection H as <-. apply Rep_node; auto.
  - intros H. injection H as <-. apply Rep_leaf. by rewrite HG.
  - intros H. injection H as <-. apply Rep_leaf. by rewrite HG.
Qed.

(** C3: on a stored search tree, [Floor] returns the node with the
    largest stored key at or below the probe and [Ceiling] the node with
    the smallest stored key at or above it, under the comparator; each
    answers (nil, false) exactly when no stored key bounds the probe on
    that side, which covers the empty tree. On the key set
    {20,30,40,60,70,80}, [Floor 45] is the node 40, [Ceiling 45] the node
    60, and [Floor 10] finds nothing. *)
Theorem Floor_Ceiling_correct :
  (forall (tree : Tree) (s : shape) (key : Bytes) (fuel : nat),
      TotalOrder (Comparator tree) ->
      Rep tree (rootKey tree) s ->
      bst (Comparator tree) s ->
      (height s <= fuel)%nat ->
      ((exists n, Floor fuel tree key = Ret (Some n, true) /\ In n (nodes s) /\
                  is_floor (Comparator tree) (keys s) key (Key n))
       \/ (Floor fuel tree key = Ret (None, false) /\
           forall x, In x (keys s) -> 0 < Comparator tree x key))
      /\
      ((exists n, Ceiling fuel tree key = Ret (Some n, true) /\ In n (nodes s) /\
                  is_ceiling (Comparator tree) (keys s) key (Key n))
       \/ (Ceiling fuel tree key = Ret (None, false) /\
           forall x, In x (keys s) -> Comparator tree x key < 0)))
  /\
  (stateOf (putAll 10 scenarioKeys [] (NewWithBytesComparator emptyDB)) = Some scenarioTree /\
   keys scenarioShape = scenarioKeys /\
   (exists n, Floor 10 scenarioTree (bkey 45) = Ret (Some n, true) /\ Key n = bkey 40) /\
   (exists n, Ceiling 10 scenarioTree (bkey 45) = Ret (Some n, true) /\ Key n = bkey 60) /\
   Floor 10 scenarioTree (bkey 10) = Ret (None, false)).
Proof.
  split.
  - intros tree s key fuel Hord HR Hbst Hh. split.
    + unfold Floor, Root.
      rewrite (Floor_loop_shape tree s fuel _ key None false HR Hh).
      pose proof (floor_in_spec tree Hord s key Hbst) as Hs.
      destruct (floor_in (Comparator tree) s key) as [n|]; [left | right].
      * exists n. tauto.
      * done.
    + unfold Ceiling, Root.
      rewrite (Ceiling_loop_shape tree s fuel _ key None false HR Hh).
      pose proof (ceiling_in_spec tree Hord s key Hbst) as Hs.
      destruct (ceiling_in (Comparator tree) s key) as [n|]; [left | right].
      * exists n. tauto.
      * done.
  - split; [vm_compute; reflexivity |].
    split; [vm_compute; reflexivity |].
    split; [eexists; split; vm_compute; reflexivity |].
    split; [eexists; split; vm_compute; reflexivity |].
    vm_compute; reflexivity.
Qed.

Lemma scenarioTree_Rep : Rep scenarioTree (rootKey scenarioTree) scenarioShape.
Proof. apply (shapeOf_Rep _ 10). vm_compute. reflexivity. Qed.

Lemma scenarioShape_bst : bst bytesCompare scenarioShape.
Proof.
  vm_compute. repeat match goal with
                     | |- _ /\ _ => split
                     | |- Forall _ _ => constructor
                     | |- True => exact I
                     | |- _ = _ => reflexivity
                     end.
Qed.

Lemma Floor_Ceiling_correct_witness :
  TotalOrder (Comparator scenarioTree) /\
  Rep scenarioTree (rootKey scenarioTree) scenarioShape /\
  bst (Comparator scenarioTree) scenarioShape /\
  (height scenarioShape <= 10)%nat /\
  ((exists n, Floor 10 scenarioTree (bkey 45) = Ret (Some n, true) /\
              In n (nodes scenarioShape) /\
              is_floor (Comparator scenarioTree) (keys scenarioShape) (bkey 45) (Key n))
   \/ (Floor 10 scenarioTree (bkey 45) = Ret (None, false) /\
       forall x, In x (keys scenarioShape) -> 0 < Comparator scenarioTree x (bkey 45)))
  /\
  ((exists n, Ceiling 10 scenarioTree (bkey 45) = Ret (Some n, true) /\
              In n (nodes scenarioShape) /\
              is_ceiling (Comparator scenarioTree) (keys scenarioShape) (bkey 45) (Key n))
   \/ (Ceiling 10 scenarioTree (bkey 45) = Ret (None, false) /\
       forall x, In x (keys scenarioShape) -> Comparator scenarioTree x (bkey 45) < 0)).
Proof.
  assert (TotalOrder (Comparator scenarioTree)) as Hord by exact bytesCompare_total.
  assert (bst (Comparator scenarioTree) scenarioShape) as Hbst by exact scenarioShape_bst.
  assert (height scenarioShape <= 10)%nat as Hh by (vm_compute; lia).
  split; [exact Hord |]. split; [exact scenarioTree_Rep |].
  split; [exact Hbst |]. split; [exact Hh |].
  exact (proj1 Floor_Ceiling_correct scenarioTree scenarioShape (bkey 45) 10%nat
           Hord scenarioTree_Rep Hbst Hh).
Defined.

(** ** What an operation keeps *)

Lemma bind_Ret {A B} (m : M A) (k : A -> M B) t b t' :
  bind m k t = Ret (b, t') ->
  exists a t1, m t = Ret (a, t1) /\ k a t1 = Ret (b, t').
Proof.
  unfold bind. destruct (m t) as [[a t1]| |]; [| discriminate | discriminate].
  intros H. by exists a, t1.
Qed.

Section Keeps.
Variable P : Tree -> Tree -> Prop.
Hypothesis P_refl : forall t, P t t.
Hypothesis P_trans : forall t1 t2 t3, P t1 t2 -> P t2 t3 -> P t1 t3.

Lemma keeps_ret {A} (a : A) : keeps P (ret a).
Proof. intros t a' t' [= _ <-]. apply P_refl. Qed.

Lemma keeps_gets {A} (f : Tree -> A) : keeps P (gets f).
Proof. intros t a' t' [= _ <-]. apply P_refl. Qed.

Lemma keeps_panic {A} : keeps P (@panic A).
Proof. intros t a t' [=]. Qed.

Lemma keeps_timeout {A} : keeps P (@timeout A).
Proof. intros t a t' [=]. Qed.

Lemma keeps_bind {A B} (m : M A) (k : A -> M B) :
  keeps P m -> (forall a, keeps P (k a)) -> keeps P (bind m k).
Proof.
  intros Hm Hk t b t' H. apply bind_Ret in H as (a & t1 & H1 & H2).
  eapply P_trans; [eapply Hm | eapply Hk]; eauto.
Qed.

Lemma keeps_deref node : keeps P (deref node).
Proof. destruct node; [apply keeps_ret | apply keeps_panic]. Qed.

Lemma keeps_setColor node c : keeps P (setColor node c).
Proof. apply keeps_bind; [apply keeps_deref | intros; apply keeps_ret]. Qed.

Lemma keeps_assertNotNull node : keeps P (assertNotNull node).
Proof. destruct node; [apply keeps_ret | apply keeps_panic]. Qed.

End Keeps.

Lemma yields_bind {A B} (Q : B -> Prop) (m : M A) (k : A -> M B) :
  (forall a, yields Q (k a)) -> yields Q (bind m k).
Proof.
  intros Hk t b t' H. apply bind_Ret in H as (a & t1 & _ & H2). eapply Hk; eauto.
Qed.

Lemma yields_ret {A} (Q : A -> Prop) (a : A) : Q a -> yields Q (ret a).
Proof. intros HQ t a' t' [= <- _]. exact HQ. Qed.

(** Breaks a monadic goal down along its binds and branches. *)
Ltac keeps_side := try solve [eauto | intros; congruence].
Ltac keeps_step :=
  match goal with
  | |- keeps _ (bind _ _) =>
      apply keeps_bind; keeps_side;
      match goal with |- forall _, _ => intros | _ => idtac end
  | |- keeps _ (ret _) => apply keeps_ret; keeps_side
  | |- keeps _ (gets _) => apply keeps_gets; keeps_side
  | |- keeps _ panic => apply keeps_panic
  | |- keeps _ timeout => apply keeps_timeout
  | |- keeps _ (deref _) => apply keeps_deref; keeps_side
  | |- keeps _ (setColor _ _) => apply keeps_setColor; keeps_side
  | |- keeps _ (assertNotNull _) => apply keeps_assertNotNull; keeps_side
  | |- keeps _ (if ?b then _ else _) => destruct b
  | |- keeps _ (match ?x with Some _ => _ | None => _ end) => destruct x
  | |- keeps _ (match ?x with Overwrote => _ | Attached _ _ => _ end) => destruct x
  | |- keeps _ (let (_, _) := ?x in _) => destruct x
  | |- keeps _ _ => solve [eauto]
  end.

(** ** The count, the comparator and the failure sets *)

Lemma sameMeta_refl t : sameMeta t t.
Proof. by repeat split. Qed.

Lemma sameMeta_trans t1 t2 t3 : sameMeta t1 t2 -> sameMeta t2 t3 -> sameMeta t1 t3.
Proof. unfold sameMeta. intuition congruence. Qed.

#[local] Hint Resolve sameMeta_refl sameMeta_trans : core.

Lemma Save_sameMeta node : keeps sameMeta (Save node).
Proof.
  unfold Save. keeps_step; [keeps_step |].
  intros t e t'. unfold db_Put. destruct (bool_decide _); intros [= _ <-]; by repeat split.
Qed.

Lemma setRootKey_sameMeta k : keeps sameMeta (setRootKey k).
Proof. intros t a t' [= _ <-]. by repeat split. Qed.

#[local] Hint Resolve Save_sameMeta setRootKey_sameMeta : core.

Lemma replaceNode_sameMeta old new : keeps sameMeta (replaceNode old new).
Proof. unfold replaceNode. repeat keeps_step. Qed.

#[local] Hint Resolve replaceNode_sameMeta : core.

Lemma rotateLeft_sameMeta node : keeps sameMeta (rotateLeft node).
Proof. unfold rotateLeft. repeat keeps_step. Qed.

Lemma rotateRight_sameMeta node : keeps sameMeta (rotateRight node).
Proof. unfold rotateRight. repeat keeps_step. Qed.

#[local] Hint Resolve rotateLeft_sameMeta rotateRight_sameMeta : core.

Lemma deleteNode_sameMeta node force : keeps sameMeta (deleteNode node force).
Proof.
  unfold deleteNode. repeat keeps_step.
  intros t u t' [= _ <-]. by repeat split.
Qed.

#[local] Hint Resolve deleteNode_sameMeta : core.

Lemma deleteCase6_sameMeta node : keeps sameMeta (deleteCase6 node).
Proof. unfold deleteCase6. repeat keeps_step. Qed.

#[local] Hint Resolve deleteCase6_sameMeta : core.

Lemma deleteCase5_sameMeta node : keeps sameMeta (deleteCase5 node).
Proof. unfold deleteCase5. repeat keeps_step. Qed.

#[local] Hint Resolve deleteCase5_sameMeta : core.

Lemma deleteCase4_sameMeta node : keeps sameMeta (deleteCase4 node).
Proof. unfold deleteCase4. repeat keeps_step. Qed.

#[local] Hint Resolve deleteCase4_sameMeta : core.

Lemma deleteCase1_sameMeta fuel : forall node, keeps sameMeta (deleteCase1 fuel node).
Proof.
  induction fuel as [|fuel IH]; intros node; simpl; [apply keeps_timeout |].
  unfold deleteCase2, deleteCase3. repeat keeps_step.
Qed.

#[local] Hint Resolve deleteCase1_sameMeta : core.

Lemma maximumNode_same fuel : forall node, keeps eq (Node_maximumNode fuel node).
Proof.
  induction fuel as [|fuel IH]; intros node; simpl.
  - apply keeps_timeout.
  - repeat keeps_step.
Qed.

Lemma insertCase5_sameMeta node : keeps sameMeta (insertCase5 node).
Proof. unfold insertCase5. repeat keeps_step. Qed.

#[local] Hint Resolve insertCase5_sameMeta : core.

Lemma insertCase4_sameMeta node : keeps sameMeta (insertCase4 node).
Proof. unfold insertCase4. repeat keeps_step. Qed.

#[local] Hint Resolve insertCase4_sameMeta : core.

Lemma insertCase1_sameMeta fuel : forall node, keeps sameMeta (insertCase1 fuel node).
Proof.
  induction fuel as [|fuel IH]; intros node; simpl; [apply keeps_timeout |].
  unfold insertCase2, insertCase3. repeat keeps_step.
Qed.

#[local] Hint Resolve insertCase1_sameMeta : core.

Lemma keeps_weaken {A} (P Q : Tree -> Tree -> Prop) (m : M A) :
  (forall t t', P t t' -> Q t t') -> keeps P m -> keeps Q m.
Proof. intros HPQ Hm t a t' H. eapply HPQ, Hm, H. Qed.

Lemma keeps_bind_l {A B} (P Q : Tree -> Tree -> Prop) (m : M A) (k : A -> M B) :
  (forall t1 t2 t3, P t1 t2 -> Q t2 t3 -> Q t1 t3) ->
  keeps P m -> (forall a, keeps Q (k a)) -> keeps Q (bind m k).
Proof.
  intros HPQ Hm Hk t b t' H. apply bind_Ret in H as (a & t1 & H1 & H2).
  eapply HPQ; [eapply Hm | eapply Hk]; eauto.
Qed.

Lemma maximumNode_sameMeta fuel node : keeps sameMeta (Node_maximumNode fuel node).
Proof.
  apply (keeps_weaken eq); [intros t t' <-; apply sameMeta_refl | apply maximumNode_same].
Qed.

#[local] Hint Resolve maximumNode_sameMeta : core.

(** ** Removal *)

Lemma GetNode_Some tree key n :
  fst (GetNode tree key) = Some n ->
  GetNode tree key = (Some n, None) /\ Key n = key /\
  records (db tree) !! key = Some (NItem n) /\ key <> EmptyKey /\
  key ∉ loadFails (db tree).
Proof.
  unfold GetNode, db_Get, db_IsEmptyKey. case_bool_decide as He; [discriminate |].
  case_bool_decide as Hf; [discriminate |].
  destruct (records (db tree) !! key) as [it|] eqn:Hrec; [| discriminate].
  simpl. intros [= <-]. done.
Qed.

Lemma GetNode_None tree key :
  records (db tree) !! key = None \/ key ∈ loadFails (db tree) ->
  fst (GetNode tree key) = None.
Proof.
  unfold GetNode, db_Get. destruct (db_IsEmptyKey _ _); [done |].
  case_bool_decide as Hf; [done |]. intros [-> | H]; [done | contradiction].
Qed.

Lemma sameMeta_decRel t1 t2 t3 : sameMeta t1 t2 -> decRel t2 t3 -> decRel t1 t3.
Proof. unfold sameMeta, decRel. intros (-> & _) ->. done. Qed.

Lemma decSize_decRel : keeps decRel decSize.
Proof. intros t a t' [= _ <-]. done. Qed.

Lemma Remove_found_size fuel key t t' n :
  GetNode t key = (Some n, None) ->
  Remove fuel key t = Ret (tt, t') ->
  size t' = wrap64 (size t - 1).
Proof.
  intros HG H. unfold Remove in H.
  apply bind_Ret in H as (got & t1 & Hg & H).
  injection Hg as <- <-. rewrite HG in H.
  match type of H with
  | ?m t = _ => assert (keeps decRel m) as K
  end; [| exact (K _ _ _ H)].
  repeat (apply (keeps_bind_l sameMeta decRel);
          [exact sameMeta_decRel | repeat keeps_step | intros]).
  apply decSize_decRel.
Qed.

(** C8: when storage holds no record for the key, or the load of the key
    fails, [Remove] changes nothing: the root reference, the count and
    every stored record are as before. *)
Theorem Remove_missing_is_noop (fuel : nat) (tree : Tree) (key : Bytes) :
  records (db tree) !! key = None \/ key ∈ loadFails (db tree) ->
  Remove fuel key tree = Ret (tt, tree).
Proof.
  intros H. apply GetNode_None in H.
  unfold Remove, bind, gets.
  destruct (GetNode tree key) as [[n|] [e|]]; simpl in H; try discriminate; reflexivity.
Qed.

Lemma Remove_missing_is_noop_witness :
  (records (db scenarioTree) !! bkey 50 = None \/ bkey 50 ∈ loadFails (db scenarioTree)) /\
  Remove 10 (bkey 50) scenarioTree = Ret (tt, scenarioTree).
Proof.
  assert (records (db scenarioTree) !! bkey 50 = None \/
          bkey 50 ∈ loadFails (db scenarioTree)) as H
    by (left; vm_compute; reflexivity).
  split; [exact H |].
  exact (Remove_missing_is_noop 10 scenarioTree (bkey 50) H).
Defined.


(** C10: when [Remove] finds the record of its key while the count is 0,
    the decrement wraps around and [Size] answers 2^64 - 1; that is what
    happens on a key put into a fresh tree, after [Clear], which resets
    root and count and leaves the record in storage. *)
Theorem Remove_wraps_count :
  (forall (fuel : nat) (tree tree' : Tree) (key : Bytes),
      size tree = 0 ->
      is_Some (fst (GetNode tree key)) ->
      Remove fuel key tree = Ret (tt, tree') ->
      Size tree' = 2 ^ 64 - 1)
  /\
  (forall (d : BatchDatabase) (key value : Bytes),
      key <> EmptyKey -> key ∉ storeFails d -> key ∉ loadFails d ->
      exists t1 t2,
        Put 1 key value (NewWithBytesComparator d) = Ret (None, t1) /\
        is_Some (records (db (Clear t1)) !! key) /\
        Size (Clear t1) = 0 /\
        Remove 1 key (Clear t1) = Ret (tt, t2) /\
        Size t2 = 2 ^ 64 - 1).
Proof.
  split.
  - intros fuel tree tree' key Hs [n Hn] H.
    apply GetNode_Some in Hn as (HG & _).
    unfold Size. rewrite (Remove_found_size _ _ _ _ _ HG H), Hs. reflexivity.
  - intros d key value Hk Hst Hld.
    unfold Put, NewWithBytesComparator, NewWith, bind, gets, IsEmptyKey, db_IsEmptyKey.
    simpl. unfold Put_fixup, bind. simpl.
    unfold setColor, Save, bind, deref, ret, newNode, db_Put. simpl.
    rewrite (bool_decide_eq_false_2 _ Hst). simpl.
    eexists _, _. split; [reflexivity |].
    split; [simpl; rewrite lookup_insert_eq; eauto |].
    split; [reflexivity |].
    unfold Remove, Clear, bind, gets, GetNode, db_Get, db_IsEmptyKey. simpl.
    rewrite (bool_decide_eq_false_2 _ Hk), (bool_decide_eq_false_2 _ Hld).
    rewrite lookup_insert_eq. simpl.
    unfold IsEmptyKey, db_IsEmptyKey, ret, Save, deref, bind, ret, db_Put. simpl.
    rewrite (bool_decide_eq_false_2 _ Hst). simpl.
    unfold deleteNode, deref, bind, ret, gets, modify. simpl.
    unfold replaceNode, bind, gets, IsEmptyKey, db_IsEmptyKey, setRootKey, modify, ret.
    simpl. split; reflexivity.
Qed.

Lemma Remove_wraps_count_witness :
  exists t1 t2,
    Put 1 (bkey 50) [] (NewWithBytesComparator emptyDB) = Ret (None, t1) /\
    is_Some (records (db (Clear t1)) !! bkey 50) /\
    Size (Clear t1) = 0 /\
    Remove 1 (bkey 50) (Clear t1) = Ret (tt, t2) /\
    Size t2 = 2 ^ 64 - 1.
Proof.
  apply (proj2 Remove_wraps_count emptyDB (bkey 50) []).
  - vm_compute. discriminate.
  - vm_compute. intros H. inversion H.
  - vm_compute. intros H. inversion H.
Defined.

(** ** The result of [Put] *)

Ltac yields_step :=
  match goal with
  | |- yields _ (bind _ _) => apply yields_bind; intros
  | |- yields _ (ret _) => apply yields_ret; reflexivity
  | |- yields _ (if ?b then _ else _) => destruct b
  | |- yields _ (match ?x with Overwrote => _ | Attached _ _ => _ end) => destruct x
  end.

Lemma Put_yields_nil fuel key value : yields (fun e => e = None) (Put fuel key value).
Proof. unfold Put, Put_fixup. repeat yields_step. Qed.

(** C7, as the code has it: [Put] answers nil on every path on which it
    returns, whatever the stores it performed answered; the result of
    each [Save] is dropped, so a failed store does not reach the caller. *)
Theorem Put_returns_nil (fuel : nat) (key value : Bytes) (tree tree' : Tree)
    (e : option error) :
  Put fuel key value tree = Ret (e, tree') -> e = None.
Proof. apply Put_yields_nil. Qed.

Lemma Put_returns_nil_witness :
  exists tree',
    Put 1 (bkey 50) [] (NewWithBytesComparator failingStore) = Ret (None, tree') /\
    @None error = None.
Proof.
  eexists. split; [vm_compute; reflexivity |].
  eapply (Put_returns_nil 1 (bkey 50) [] (NewWithBytesComparator failingStore)).
  vm_compute. reflexivity.
Defined.

(** C7, as the claim has it, fails: with a store that rejects the key,
    the [Save] inside [Put] reports a storage error, the record is not
    written, and [Put] still answers nil. *)
Lemma Put_swallows_store_error :
  (forall n : Node, Key n = bkey 50 ->
     exists t, Save (Some n) (NewWithBytesComparator failingStore) = Ret (Some StorageError, t)) /\
  exists tree',
    Put 1 (bkey 50) [] (NewWithBytesComparator failingStore) = Ret (None, tree') /\
    records (db tree') !! bkey 50 = None /\
    ~ (exists e, Put 1 (bkey 50) [] (NewWithBytesComparator failingStore)
                 = Ret (Some e, tree')).
Proof.
  split.
  - intros [k it] Hk. simpl in Hk. subst k. eexists. vm_compute. reflexivity.
  - eexists. split; [vm_compute; reflexivity |].
    split; [vm_compute; reflexivity |].
    intros [e He]. vm_compute in He. discriminate.
Qed.

(** ** [Get] and [Has] *)

Lemma Rep_nodes tree k s n :
  Rep tree k s -> In n (nodes s) -> GetNode tree (Key n) = (Some n, None).
Proof.
  induction 1 as [k H | k m l r HG _ IHl _ IHr]; simpl; [tauto |].
  rewrite in_app_iff. simpl. intros [Hin | [<- | Hin]]; auto.
  assert (fst (GetNode tree k) = Some m) as H by (by rewrite HG).
  apply GetNode_Some in H as (_ & -> & _). exact HG.
Qed.

Lemma Has_GetNode tree key :
  fst (Has tree key) = negb (isNil (fst (GetNode tree key))).
Proof.
  unfold Has, db_Has, GetNode, db_Get.
  destruct (db_IsEmptyKey _ _); [done |].
  case_bool_decide; [done |].
  by destruct (records (db tree) !! key) as [it|].
Qed.

Lemma Get_GetNode tree key :
  Get tree key = match fst (GetNode tree key) with
                 | Some n => (Value (NItem n), true)
                 | None => ([], false)
                 end.
Proof.
  unfold Get. destruct (GetNode tree key) as [[n|] [e|]] eqn:HG; simpl; try done.
  assert (fst (GetNode tree key) = Some n) as H by (by rewrite HG).
  apply GetNode_Some in H as (H & _). congruence.
Qed.

(** C6, as the claim has it, fails: after [Put 50] and [Clear] the record
    of 50 cannot be reached from the root, the descent reports it as not
    found, and [Get] and [Has] still find it. *)
Lemma Get_finds_unreachable_record :
  Get clearedTree (bkey 50) = (bkey 1, true) /\
  Has clearedTree (bkey 50) = (true, None) /\
  descentGet 10 clearedTree (bkey 50) = Ret ([], false) /\
  descentHas 10 clearedTree (bkey 50) = Ret false.
Proof. vm_compute. repeat split. Qed.

(** C6, as the code has it: [Get] and [Has] look the key up in storage
    under the key itself and never read the root reference: [Get] finds
    the key exactly when storage holds a loadable record under it, reached
    from the root or not. On a stored search tree they agree with the
    comparator-driven descent from the root for every key whose record, if
    storage holds one, is a node of that tree. *)
Theorem Get_Has_direct_lookup :
  (forall (tree : Tree) (key root : Bytes) (sz : Z),
      Get (SetRootKey tree root sz) key = Get tree key /\
      Has (SetRootKey tree root sz) key = Has tree key)
  /\
  (forall (tree : Tree) (key : Bytes),
      (exists v, Get tree key = (v, true)) <->
      (key <> EmptyKey /\ (key ∉ loadFails (db tree)) /\
       is_Some (records (db tree) !! key)))
  /\
  (forall (tree : Tree) (s : shape) (key : Bytes) (fuel : nat),
      TotalOrder (Comparator tree) ->
      Rep tree (rootKey tree) s ->
      bst (Comparator tree) s ->
      (height s <= fuel)%nat ->
      (is_Some (fst (GetNode tree key)) -> In key (keys s)) ->
      descentGet fuel tree key = Ret (Get tree key) /\
      descentHas fuel tree key = Ret (fst (Has tree key))).
Proof.
  split; [| split].
  - intros tree key root sz. by split.
  - intros tree key. rewrite Get_GetNode. split.
    + intros [v H]. destruct (fst (GetNode tree key)) as [n|] eqn:HG; [| discriminate].
      apply GetNode_Some in HG as (_ & _ & Hrec & Hk & Hl). eauto.
    + intros (Hk & Hl & [it Hrec]).
      unfold GetNode, db_Get, db_IsEmptyKey.
      rewrite (bool_decide_eq_false_2 _ Hk), (bool_decide_eq_false_2 _ Hl), Hrec.
      simpl. eauto.
  - intros tree s key fuel Hord HR Hbst Hh Hreach.
    unfold descentGet, descentHas, Root.
    rewrite (descent_shape tree s fuel _ key HR Hh).
    rewrite Has_GetNode, Get_GetNode.
    pose proof (find_in_spec tree Hord s key Hbst) as Hf.
    destruct (find_in (Comparator tree) s key) as [n|].
    + destruct Hf as (Hin & <-). rewrite (Rep_nodes _ _ _ _ HR Hin). done.
    + destruct (fst (GetNode tree key)) as [m|]; [| done].
      exfalso. apply Hf, Hreach. eauto.
Qed.

Lemma Get_Has_direct_lookup_witness :
  TotalOrder (Comparator scenarioTree) /\
  Rep scenarioTree (rootKey scenarioTree) scenarioShape /\
  bst (Comparator scenarioTree) scenarioShape /\
  (height scenarioShape <= 10)%nat /\
  (is_Some (fst (GetNode scenarioTree (bkey 40))) -> In (bkey 40) (keys scenarioShape)) /\
  descentGet 10 scenarioTree (bkey 40) = Ret (Get scenarioTree (bkey 40)) /\
  descentHas 10 scenarioTree (bkey 40) = Ret (fst (Has scenarioTree (bkey 40))).
Proof.
  assert (TotalOrder (Comparator scenarioTree)) as Hord by exact bytesCompare_total.
  assert (bst (Comparator scenarioTree) scenarioShape) as Hbst by exact scenarioShape_bst.
  assert (height scenarioShape <= 10)%nat as Hh by (vm_compute; lia).
  assert (is_Some (fst (GetNode scenarioTree (bkey 40))) -> In (bkey 40) (keys scenarioShape))
    as Hreach by (intros _; vm_compute; tauto).
  split; [exact Hord |]. split; [exact scenarioTree_Rep |].
  split; [exact Hbst |]. split; [exact Hh |]. split; [exact Hreach |].
  exact (proj2 (proj2 Get_Has_direct_lookup) scenarioTree scenarioShape (bkey 40) 10%nat
           Hord scenarioTree_Rep Hbst Hh Hreach).
Defined.

(** ** Removal of a node with two children *)

Lemma Remove_two_children fuel tree key n l r :
  GetNode tree key = (Some n, None) ->
  Node_Left tree (Some n) = Some l ->
  Node_Right tree (Some n) = Some r ->
  Remove fuel key tree =
  match Node_maximumNode fuel (Some l) tree with
  | Ret _ => Ret (tt, countedDown tree)
  | Panic => Panic
  | Timeout => Timeout
  end.
Proof.
  intros HG Hl Hr.
  assert (IsEmptyKey tree (LeftKey (Some n)) = false) as HeL.
  { apply GetNode_Some in Hl as (_ & _ & _ & Hk & _).
    by apply bool_decide_eq_false_2. }
  assert (IsEmptyKey tree (RightKey (Some n)) = false) as HeR.
  { apply GetNode_Some in Hr as (_ & _ & _ & Hk & _).
    by apply bool_decide_eq_false_2. }
  unfold Remove, bind, gets. rewrite HG. cbv beta iota.
  rewrite HeL. cbv beta iota delta [negb]. rewrite Hl. cbv beta iota.
  rewrite HeR. cbv beta iota delta [negb]. rewrite Hr.
  cbv beta iota delta [negb isNil andb orb ret].
  destruct (Node_maximumNode fuel (Some l) tree) as [[m t1]| |] eqn:E; try reflexivity.
  apply maximumNode_same in E. subst t1. reflexivity.
Qed.

(** C1, as the code has it: [Remove] on a key whose node has a left and a
    right child looks up the in-order predecessor and then does nothing
    with it; it only counts down. Storage and root reference are as
    before, so the key stays in the in-order sequence. On the tree built
    from [50, 30, 70, 20, 40, 60, 80], [Remove 50] leaves the in-order
    keys [20,30,40,50,60,70,80] with a count of 6. *)
Theorem Remove_two_children_keeps_key :
  (forall (fuel : nat) (tree : Tree) (key : Bytes) (n l r : Node),
      GetNode tree key = (Some n, None) ->
      Node_Left tree (Some n) = Some l ->
      Node_Right tree (Some n) = Some r ->
      Remove fuel key tree =
      match Node_maximumNode fuel (Some l) tree with
      | Ret _ => Ret (tt, countedDown tree)
      | Panic => Panic
      | Timeout => Timeout
      end)
  /\
  (putAll 10 sevenKeys [] (NewWithBytesComparator emptyDB) = Ret (tt, sevenTree) /\
   inorderKeys 10 sevenTree = map bkey [20; 30; 40; 50; 60; 70; 80]%N /\
   Remove 10 (bkey 50) sevenTree = Ret (tt, countedDown sevenTree) /\
   inorderKeys 10 (countedDown sevenTree) = map bkey [20; 30; 40; 50; 60; 70; 80]%N /\
   Size (countedDown sevenTree) = 6).
Proof.
  split.
  - exact Remove_two_children.
  - repeat split; vm_compute; reflexivity.
Qed.

(** C2, as the code has it: after [Put 50], [Put 30], [Put 70] and
    [Remove 50] the in-order key sequence of the stored tree is still
    [30,50,70], not the sorted set [30,70] of the keys that were inserted
    and not removed. *)
Theorem Put_Remove_breaks_oracle :
  putAll 10 (map bkey [50; 30; 70]%N) [] (NewWithBytesComparator emptyDB)
    = Ret (tt, threeTree) /\
  exists t',
    Remove 10 (bkey 50) threeTree = Ret (tt, t') /\
    inorderKeys 10 t' = map bkey [30; 50; 70]%N /\
    inorderKeys 10 t' <> map bkey [30; 70]%N /\
    Size t' = 2.
Proof.
  split; [vm_compute; reflexivity |].
  eexists. split; [vm_compute; reflexivity |].
  split; [vm_compute; reflexivity |].
  split; [vm_compute; discriminate | vm_compute; reflexivity].
Qed.

(** With loads that hand out copies, a zig-zag insertion does not get
    through: after [rotateLeft parent], [insertCase4] follows the left
    reference of the node it holds in memory, which still is the sentinel,
    and [insertCase5] then runs on nil and panics on the colour of its
    parent. A store that hands back the very item it was given would hide
    this. *)
Lemma Put_zigzag_panics :
  exists t,
    putAll 10 (map bkey [50; 30]%N) [] (NewWithBytesComparator emptyDB) = Ret (tt, t) /\
    Put 10 (bkey 40) [] t = Panic.
Proof.
  eexists. split; [vm_compute; reflexivity |].
  vm_compute. reflexivity.
Qed.

(** ** What [Put] leaves under its key *)

Lemma insertCase1_result fuel node t node' t' :
  insertCase1 fuel node t = Ret (node', t') ->
  match node, node' with
  | Some n, Some n' => Key n' = Key n /\ Value (NItem n') = Value (NItem n)
  | _, _ => False
  end.
Proof.
  destruct fuel as [|fuel]; simpl; [discriminate |].
  intros H. apply bind_Ret in H as (b & t1 & Hb & H). injection Hb as <- <-.
  destruct node as [n|]; [| discriminate].
  destruct (IsEmptyKey t (ParentKey (Some n))).
  - injection H as <- _. done.
  - apply bind_Ret in H as (u & t2 & H1 & H2). injection H2 as <- _. done.
Qed.

Lemma Save_stores n t e t' :
  Save (Some n) t = Ret (e, t') ->
  Key n ∉ storeFails (db t) ->
  t' = mkTree (mkDB (<[Key n := NItem n]> (records (db t))) (loadFails (db t))
                 (storeFails (db t)))
         (rootKey t) (size t) (Comparator t).
Proof.
  unfold Save, bind, deref, ret, db_Put. intros H Hs.
  rewrite (bool_decide_eq_false_2 _ Hs) in H. by injection H as _ <-.
Qed.

Lemma Put_fixup_stores fuel n t e t' :
  Put_fixup fuel (Some n) t = Ret (e, t') ->
  Key n ∉ storeFails (db t) ->
  holds (Key n) (Value (NItem n)) t t'.
Proof.
  unfold Put_fixup. intros H Hs.
  apply bind_Ret in H as (node' & t1 & H1 & H).
  apply bind_Ret in H as (e1 & t2 & H2 & H).
  apply bind_Ret in H as (u & t3 & H3 & H).
  injection H as _ <-. injection H3 as _ <-.
  pose proof (insertCase1_sameMeta _ _ _ _ _ H1) as (_ & _ & Hl & Hst).
  apply insertCase1_result in H1. destruct node' as [n'|]; [| done].
  destruct H1 as (Hk & Hv).
  apply Save_stores in H2; [| rewrite Hk, Hst; exact Hs]. subst t2.
  unfold holds. simpl. rewrite Hk.
  split; [| exact Hl]. exists (NItem n'). by rewrite lookup_insert_eq.
Qed.

Lemma Put_loop_result fuel key value : forall node t d t',
  Put_loop fuel key value node t = Ret (d, t') ->
  (forall a b, Comparator t a b = 0 -> a = b) ->
  key ∉ storeFails (db t) ->
  sameMeta t t' /\
  match d with
  | Overwrote => holds key value t t'
  | Attached _ insertedNode => insertedNode = newNode key value
  end.
Proof.
  induction fuel as [|fuel IH]; intros node t d t' H Hcmp Hs; cbn [Put_loop] in H;
    [discriminate |].
  apply bind_Ret in H as (n & t1 & H1 & H).
  destruct node as [m|]; [| discriminate]. injection H1 as <- <-.
  apply bind_Ret in H as (c & t1 & H1 & H). injection H1 as <- <-.
  destruct (Z.eqb_spec (Comparator t key (Key m)) 0) as [E|NE].
  - apply Hcmp in E.
    apply bind_Ret in H as (e & t1 & H1 & H). injection H as <- <-.
    split; [eapply Save_sameMeta; eauto |].
    apply Save_stores in H1; [| simpl; by rewrite <- E]. subst t1.
    unfold holds. simpl. rewrite <- E.
    split; [| done]. eexists. by rewrite lookup_insert_eq.
  - destruct (Comparator t key (Key m) <? 0).
    + apply bind_Ret in H as (b & t1 & H1 & H). injection H1 as <- <-.
      match type of H with context [if ?c then _ else _] => destruct c end.
      * apply bind_Ret in H as (e & t1 & H1 & H). injection H as <- <-.
        split; [eapply Save_sameMeta; eauto | done].
      * apply bind_Ret in H as (nx & t1 & H1 & H). injection H1 as <- <-.
        eapply IH; eauto.
    + apply bind_Ret in H as (b & t1 & H1 & H). injection H1 as <- <-.
      match type of H with context [if ?c then _ else _] => destruct c end.
      * apply bind_Ret in H as (e & t1 & H1 & H). injection H as <- <-.
        split; [eapply Save_sameMeta; eauto | done].
      * apply bind_Ret in H as (nx & t1 & H1 & H). injection H1 as <- <-.
        eapply IH; eauto.
Qed.

Lemma Put_holds fuel key value tree e tree' :
  (forall a b, Comparator tree a b = 0 -> a = b) ->
  key ∉ storeFails (db tree) ->
  Put fuel key value tree = Ret (e, tree') ->
  holds key value tree tree'.
Proof.
  intros Hcmp Hs H. unfold Put in H.
  apply bind_Ret in H as (b & t1 & H1 & H). injection H1 as <- <-.
  destruct (IsEmptyKey tree (rootKey tree)).
  - apply bind_Ret in H as (u & t1 & H1 & H). injection H1 as _ <-.
    by apply (Put_fixup_stores _ (mkNode key _)) in H.
  - apply bind_Ret in H as (root & t1 & H1 & H). injection H1 as <- <-.
    apply bind_Ret in H as (d & t1 & H1 & H).
    apply Put_loop_result in H1 as (Hm & Hd); [| done | done].
    destruct d as [|node ins].
    + injection H as _ <-. exact Hd.
    + subst ins. destruct Hm as (_ & _ & Hl & Hst).
      apply bind_Ret in H as (n & t2 & H2 & H).
      destruct node as [m|]; [| discriminate]. injection H2 as <- <-.
      apply bind_Ret in H as (e2 & t2 & H2 & H).
      pose proof (Save_sameMeta _ _ _ _ H2) as (_ & _ & Hl2 & Hst2).
      apply (Put_fixup_stores _ (mkNode key _)) in H; simpl in H |- *.
      * destruct H as (Hit & Hl3). split; [exact Hit | congruence].
      * rewrite Hst2, Hst. exact Hs.
Qed.

Lemma sameEnv_refl t : sameEnv t t.
Proof. by repeat split. Qed.

Lemma sameEnv_trans t1 t2 t3 : sameEnv t1 t2 -> sameEnv t2 t3 -> sameEnv t1 t3.
Proof. unfold sameEnv. intuition congruence. Qed.

Lemma keeps_sameEnv {A} (m : M A) : keeps sameMeta m -> keeps sameEnv m.
Proof. apply keeps_weaken. unfold sameMeta, sameEnv. tauto. Qed.

#[local] Hint Resolve sameEnv_refl sameEnv_trans keeps_sameEnv : core.

Lemma Put_loop_sameMeta fuel key value : forall node,
  keeps sameMeta (Put_loop fuel key value node).
Proof. induction fuel as [|fuel IH]; intros node; simpl; repeat keeps_step. Qed.

#[local] Hint Resolve Put_loop_sameMeta : core.

Lemma incSize_sameEnv : keeps sameEnv incSize.
Proof. intros t u t' [= _ <-]. by repeat split. Qed.

#[local] Hint Resolve incSize_sameEnv : core.


(** ** The second [Put] of a key *)


Lemma Put_loop_descent fuel tree key value : forall node n,
  descent fuel tree key node = Ret (Some n) ->
  Key n ∉ storeFails (db tree) ->
  Put_loop fuel key value node tree = Ret (Overwrote, overwritten tree n value).
Proof.
  induction fuel as [|fuel IH]; intros [m|] n; simpl; try discriminate.
  unfold bind at 1. simpl. unfold bind at 1. unfold gets at 1.
  destruct (Z.eqb_spec (Comparator tree key (Key m)) 0) as [E|NE].
  - intros [= <-] Hs. unfold bind, Save, deref, ret, db_Put, bind. simpl.
    by rewrite (bool_decide_eq_false_2 _ Hs).
  - destruct (Comparator tree key (Key m) <? 0); intros H Hs.
    + unfold bind at 1, gets at 1.
      destruct (IsEmptyKey tree (Left (Keys (NItem m)))) eqn:He.
      * exfalso. unfold Node_Left, GetNode, db_Get in H. simpl in H.
        unfold IsEmptyKey in He. rewrite He in H. simpl in H.
        destruct fuel; discriminate.
      * unfold bind at 1, gets at 1. by apply IH.
    + unfold bind at 1, gets at 1.
      destruct (IsEmptyKey tree (Right (Keys (NItem m)))) eqn:He.
      * exfalso. unfold Node_Right, GetNode, db_Get in H. simpl in H.
        unfold IsEmptyKey in He. rewrite He in H. simpl in H.
        destruct fuel; discriminate.
      * unfold bind at 1, gets at 1. by apply IH.
Qed.

Lemma Put_overwrite fuel tree key value n :
  descent fuel tree key (Root tree) = Ret (Some n) ->
  Key n ∉ storeFails (db tree) ->
  Put fuel key value tree = Ret (None, overwritten tree n value).
Proof.
  intros Hd Hs.
  assert (IsEmptyKey tree (rootKey tree) = false) as Hroot.
  { destruct (Root tree) as [r|] eqn:Hr; [| by destruct fuel].
    apply GetNode_Some in Hr as (_ & _ & _ & Hr & _). by apply bool_decide_eq_false_2. }
  unfold Put, bind at 1, gets at 1. rewrite Hroot.
  unfold bind at 1, gets at 1. unfold bind at 1.
  by rewrite (Put_loop_descent fuel tree key value _ n Hd Hs).
Qed.


Lemma Put_first fuel tree key value :
  IsEmptyKey tree (rootKey tree) = true ->
  key ∉ storeFails (db tree) ->
  Put (S fuel) key value tree = Ret (None, firstTree tree key value).
Proof.
  intros Hr Hs. unfold Put, bind at 1, gets at 1. rewrite Hr.
  unfold bind at 1, setRootKey, modify, Put_fixup.
  unfold bind, insertCase1, gets, IsEmptyKey, db_IsEmptyKey, newNode. simpl.
  unfold Save, bind, deref, ret, db_Put. simpl.
  by rewrite (bool_decide_eq_false_2 _ Hs).
Qed.


(** C4, as the claim has it, fails on two inputs. When the root reference
    names no record the load of the root answers nil and [Put] panics on
    its first comparison, so there is no state to [Get] from. And the
    sentinel key is stored by [Put] but is no reference: [Get] does not
    find it. *)
Lemma Put_then_Get_fails :
  (Root danglingTree = None /\
   Put 0 (bkey 2) (bkey 9) danglingTree = Timeout /\
   forall fuel, Put (S fuel) (bkey 2) (bkey 9) danglingTree = Panic)
  /\
  (exists t', Put 1 EmptyKey (bkey 9) (NewWithBytesComparator emptyDB) = Ret (None, t') /\
              Get t' EmptyKey = ([], false)).
Proof.
  split.
  - split; [reflexivity |]. split; [reflexivity |]. intros fuel. reflexivity.
  - eexists. split; vm_compute; reflexivity.
Qed.

(** C4, as the code has it: for a key other than the sentinel, whenever
    [Put key value] returns, [Get key] on the state it leaves answers
    (value, true), given that the comparator is zero on equal keys only
    and that the store and the load of that key do not fail. [Put] does
    return on a tree without root, and on a tree in which the comparator
    descent from the root reaches the key. *)
Theorem Put_then_Get :
  (forall (fuel : nat) (key value : Bytes) (tree tree' : Tree) (e : option error),
      (forall a b, Comparator tree a b = 0 -> a = b) ->
      key <> EmptyKey ->
      key ∉ storeFails (db tree) ->
      key ∉ loadFails (db tree) ->
      Put fuel key value tree = Ret (e, tree') ->
      Get tree' key = (value, true))
  /\
  (forall (fuel : nat) (key value : Bytes) (tree : Tree),
      IsEmptyKey tree (rootKey tree) = true ->
      key ∉ storeFails (db tree) ->
      exists tree', Put (S fuel) key value tree = Ret (None, tree'))
  /\
  (forall (fuel : nat) (key value : Bytes) (tree : Tree) (n : Node),
      descent fuel tree key (Root tree) = Ret (Some n) ->
      Key n ∉ storeFails (db tree) ->
      exists tree', Put fuel key value tree = Ret (None, tree')).
Proof.
  split; [| split].
  2: { intros fuel key value tree Hr Hs. eexists. by apply Put_first. }
  2: { intros fuel key value tree n Hd Hs. eexists. by eapply Put_overwrite. }
  intros fuel key value tree tree' e Hcmp Hk Hs Hl H.
  destruct (Put_holds _ _ _ _ _ _ Hcmp Hs H) as ((it & Hrec & Hv) & Hl').
  unfold Get, GetNode, db_Get, db_IsEmptyKey.
  rewrite (bool_decide_eq_false_2 _ Hk).
  rewrite bool_decide_eq_false_2 by (rewrite Hl'; exact Hl).
  rewrite Hrec. simpl. by rewrite Hv.
Qed.

Lemma Put_then_Get_witness :
  exists t',
    Put 10 (bkey 40) (bkey 7) twoTree = Ret (None, t') /\
    rootKey t' = bkey 30 /\
    Get t' (bkey 40) = (bkey 7, true).
Proof.
  eexists. split; [vm_compute; reflexivity |].
  split; [vm_compute; reflexivity |].
  apply (proj1 Put_then_Get 10%nat (bkey 40) (bkey 7) twoTree _ None).
  - intros a b. apply bytesCompare_eq.
  - vm_compute. discriminate.
  - vm_compute. intros H. inversion H.
  - vm_compute. intros H. inversion H.
  - vm_compute. reflexivity.
Defined.




(** * Further properties *)

(** ** The left-most and the right-most node *)

Lemma Tree_Left_loop_shape tree s : forall fuel k parent,
  Rep tree k s -> (height s <= fuel)%nat ->
  Tree_Left_loop fuel tree (fst (GetNode tree k)) parent = Ret (leftmost s parent).
Proof.
  induction s as [|l IHl n r IHr]; intros fuel k parent HR Hh.
  - rewrite (Rep_load _ _ _ HR). by destruct fuel.
  - rewrite (Rep_load _ _ _ HR). inversion HR as [|? ? ? ? HG HL HRr]; subst.
    destruct fuel as [|fuel]; [simpl in Hh; lia |]. simpl in Hh.
    cbn [Tree_Left_loop leftmost]. unfold Node_Left. apply IHl; [done | lia].
Qed.

Lemma Tree_Right_loop_shape tree s : forall fuel k parent,
  Rep tree k s -> (height s <= fuel)%nat ->
  Tree_Right_loop fuel tree (fst (GetNode tree k)) parent = Ret (rightmost s parent).
Proof.
  induction s as [|l IHl n r IHr]; intros fuel k parent HR Hh.
  - rewrite (Rep_load _ _ _ HR). by destruct fuel.
  - rewrite (Rep_load _ _ _ HR). inversion HR as [|? ? ? ? HG HL HRr]; subst.
    destruct fuel as [|fuel]; [simpl in Hh; lia |]. simpl in Hh.
    cbn [Tree_Right_loop rightmost]. unfold Node_Right. apply IHr; [done | lia].
Qed.

Lemma leftmost_spec tree (Hord : TotalOrder (Comparator tree)) s : forall m,
  bst (Comparator tree) s ->
  leftmost s None = Some m ->
  In m (nodes s) /\ forall x, In x (keys s) -> Comparator tree (Key m) x <= 0.
Proof.
  induction s as [|l IHl n r IHr]; intros m; simpl; [discriminate |].
  intros (Hl & Hr & Hlt & Hgt) Hm. rewrite Forall_forall in Hlt, Hgt.
  destruct l as [|ll ln lr].
  - simpl in Hm. injection Hm as <-. split; [simpl; auto |].
    intros x Hx. apply In_keys_app in Hx as [[] | [-> | Hx]].
    + rewrite (cmp_refl _ Hord). lia.
    + apply list_elem_of_In, Hgt in Hx. lia.
  - assert (leftmost (Br ll ln lr) None = Some m) as Hm' by exact Hm.
    destruct (IHl m Hl Hm') as (Hin & Hmin).
    split; [apply in_app_iff; auto |].
    assert (Comparator tree (Key m) (Key n) < 0) as Hmn.
    { apply Hlt, list_elem_of_In. unfold keys. by apply in_map. }
    intros x Hx. apply In_keys_app in Hx as [Hx | [-> | Hx]]; [by apply Hmin | lia |].
    apply list_elem_of_In, Hgt in Hx.
    pose proof (cmp_trans _ Hord _ _ _ Hmn Hx). lia.
Qed.

Lemma rightmost_spec tree (Hord : TotalOrder (Comparator tree)) s : forall m,
  bst (Comparator tree) s ->
  rightmost s None = Some m ->
  In m (nodes s) /\ forall x, In x (keys s) -> 0 <= Comparator tree (Key m) x.
Proof.
  induction s as [|l IHl n r IHr]; intros m; simpl; [discriminate |].
  intros (Hl & Hr & Hlt & Hgt) Hm. rewrite Forall_forall in Hlt, Hgt.
  destruct r as [|rl rn rr].
  - simpl in Hm. injection Hm as <-. split; [apply in_app_iff; simpl; auto |].
    intros x Hx. apply In_keys_app in Hx as [Hx | [-> | []]].
    + apply list_elem_of_In, Hlt in Hx. apply (cmp_antisym _ Hord) in Hx. lia.
    + rewrite (cmp_refl _ Hord). lia.
  - assert (rightmost (Br rl rn rr) None = Some m) as Hm' by exact Hm.
    destruct (IHr m Hr Hm') as (Hin & Hmax).
    split; [apply in_app_iff; simpl; auto |].
    assert (Comparator tree (Key n) (Key m) < 0) as Hnm.
    { apply Hgt, list_elem_of_In. unfold keys. by apply in_map. }
    intros x Hx. apply In_keys_app in Hx as [Hx | [-> | Hx]]; [| | by apply Hmax].
    + apply list_elem_of_In, Hlt in Hx.
      pose proof (cmp_trans _ Hord _ _ _ Hx Hnm) as H.
      apply (cmp_antisym _ Hord) in H. lia.
    + apply (cmp_antisym _ Hord) in Hnm. lia.
Qed.

Lemma leftmost_None s : leftmost s None = None -> s = Leaf.
Proof.
  destruct s as [|l n r]; [done |]. simpl.
  assert (forall s p, leftmost s (Some p) <> None) as H.
  { clear. induction s; simpl; [done | auto]. }
  intros E. by apply H in E.
Qed.

Lemma rightmost_None s : rightmost s None = None -> s = Leaf.
Proof.
  destruct s as [|l n r]; [done |]. simpl.
  assert (forall s p, rightmost s (Some p) <> None) as H.
  { clear. induction s; simpl; [done | auto]. }
  intros E. by apply H in E.
Qed.

(** X1: on a stored search tree [tree.Left()] returns the node with the
    smallest stored key, and nil exactly when no node is stored. *)
Theorem Tree_Left_is_minimum (tree : Tree) (s : shape) (fuel : nat) :
  TotalOrder (Comparator tree) ->
  Rep tree (rootKey tree) s ->
  bst (Comparator tree) s ->
  (height s <= fuel)%nat ->
  (exists m, Tree_Left fuel tree = Ret (Some m) /\ In m (nodes s) /\
             forall x, In x (keys s) -> Comparator tree (Key m) x <= 0)
  \/ (Tree_Left fuel tree = Ret None /\ s = Leaf).
Proof.
  intros Hord HR Hbst Hh. unfold Tree_Left, Root.
  rewrite (Tree_Left_loop_shape tree s fuel _ None HR Hh).
  destruct (leftmost s None) as [m|] eqn:Hm; [left | right].
  - exists m. split; [done |]. by apply leftmost_spec.
  - split; [done |]. by apply leftmost_None.
Qed.

Lemma Tree_Left_is_minimum_witness :
  TotalOrder (Comparator scenarioTree) /\
  Rep scenarioTree (rootKey scenarioTree) scenarioShape /\
  bst (Comparator scenarioTree) scenarioShape /\
  (height scenarioShape <= 10)%nat /\
  ((exists m, Tree_Left 10 scenarioTree = Ret (Some m) /\ In m (nodes scenarioShape) /\
              forall x, In x (keys scenarioShape) -> Comparator scenarioTree (Key m) x <= 0)
   \/ (Tree_Left 10 scenarioTree = Ret None /\ scenarioShape = Leaf)).
Proof.
  assert (TotalOrder (Comparator scenarioTree)) as Hord by exact bytesCompare_total.
  assert (bst (Comparator scenarioTree) scenarioShape) as Hbst by exact scenarioShape_bst.
  assert (height scenarioShape <= 10)%nat as Hh by (vm_compute; lia).
  split; [exact Hord |]. split; [exact scenarioTree_Rep |].
  split; [exact Hbst |]. split; [exact Hh |].
  exact (Tree_Left_is_minimum scenarioTree scenarioShape 10 Hord scenarioTree_Rep Hbst Hh).
Defined.

(** X2: on a stored search tree [tree.Right()] returns the node with the
    largest stored key, and nil exactly when no node is stored. *)
Theorem Tree_Right_is_maximum (tree : Tree) (s : shape) (fuel : nat) :
  TotalOrder (Comparator tree) ->
  Rep tree (rootKey tree) s ->
  bst (Comparator tree) s ->
  (height s <= fuel)%nat ->
  (exists m, Tree_Right fuel tree = Ret (Some m) /\ In m (nodes s) /\
             forall x, In x (keys s) -> 0 <= Comparator tree (Key m) x)
  \/ (Tree_Right fuel tree = Ret None /\ s = Leaf).
Proof.
  intros Hord HR Hbst Hh. unfold Tree_Right, Root.
  rewrite (Tree_Right_loop_shape tree s fuel _ None HR Hh).
  destruct (rightmost s None) as [m|] eqn:Hm; [left | right].
  - exists m. split; [done |]. by apply rightmost_spec.
  - split; [done |]. by apply rightmost_None.
Qed.

Lemma Tree_Right_is_maximum_witness :
  TotalOrder (Comparator scenarioTree) /\
  Rep scenarioTree (rootKey scenarioTree) scenarioShape /\
  bst (Comparator scenarioTree) scenarioShape /\
  (height scenarioShape <= 10)%nat /\
  ((exists m, Tree_Right 10 scenarioTree = Ret (Some m) /\ In m (nodes scenarioShape) /\
              forall x, In x (keys scenarioShape) -> 0 <= Comparator scenarioTree (Key m) x)
   \/ (Tree_Right 10 scenarioTree = Ret None /\ scenarioShape = Leaf)).
Proof.
  assert (TotalOrder (Comparator scenarioTree)) as Hord by exact bytesCompare_total.
  assert (bst (Comparator scenarioTree) scenarioShape) as Hbst by exact scenarioShape_bst.
  assert (height scenarioShape <= 10)%nat as Hh by (vm_compute; lia).
  split; [exact Hord |]. split; [exact scenarioTree_Rep |].
  split; [exact Hbst |]. split; [exact Hh |].
  exact (Tree_Right_is_maximum scenarioTree scenarioShape 10 Hord scenarioTree_Rep Hbst Hh).
Defined.

(** ** [Put] leaves the values of the other keys alone *)

Section OtherValues.
Variable key : Bytes.
Variable V : Bytes -> option Bytes.
Local Abbreviation agrees' := (agrees key V).
Local Abbreviation known' := (known key V).
Local Abbreviation sound' := (sound key V).

Lemma sound_ret {A} `{!Good key V A} (a : A) : good a -> sound' (ret a).
Proof. intros Ha t a' t' Ht [= <- <-]. done. Qed.

Lemma sound_bind {A B} `{!Good key V A} `{!Good key V B} (m : M A) (k : A -> M B) :
  sound' m -> (forall a, good a -> sound' (k a)) -> sound' (bind m k).
Proof.
  intros Hm Hk t b t' Ht H. apply bind_Ret in H as (a & t1 & H1 & H2).
  destruct (Hm _ _ _ Ht H1) as (Ht1 & Ha). exact (Hk a Ha _ _ _ Ht1 H2).
Qed.

Lemma sound_gets {A} `{!Good key V A} (f : Tree -> A) :
  (forall t, agrees' t -> good (f t)) -> sound' (gets f).
Proof. intros Hf t a t' Ht [= <- <-]. auto. Qed.

(** A step that reads the state and goes on with what it read. *)
Lemma sound_gets_bind {A B} `{!Good key V B} (f : Tree -> A) (k : A -> M B) :
  (forall t, agrees' t -> forall b t', k (f t) t = Ret (b, t') -> agrees' t' /\ good b) ->
  sound (A:=B) key V (bind (gets f) k).
Proof.
  intros H t b t' Ht Hr. apply bind_Ret in Hr as (a & t1 & [= <- <-] & H2). eauto.
Qed.

Lemma sound_panic {A} `{!Good key V A} : sound' (@panic A).
Proof. intros t a t' _ [=]. Qed.

Lemma sound_timeout {A} `{!Good key V A} : sound' (@timeout A).
Proof. intros t a t' _ [=]. Qed.

Lemma known_GetNode t k : agrees' t -> known' (fst (GetNode t k)).
Proof.
  intros (Hv & _). destruct (fst (GetNode t k)) as [n|] eqn:HG; [| done].
  apply GetNode_Some in HG as (_ & <- & Hrec & _). simpl.
  destruct (decide (Key n = key)) as [|Hne]; [by left | right].
  by rewrite <- (Hv _ Hne), Hrec.
Qed.

Lemma known_sibling t node : agrees' t -> known' (Node_sibling t node).
Proof.
  intros Ht. unfold Node_sibling. destruct node as [n|]; [| done].
  destruct (Node_Parent t (Some n)) as [p|]; [| done].
  destruct (_ =? 0); by apply known_GetNode.
Qed.

Lemma known_withKeys f node : known' node -> known' (withKeys f node).
Proof. by destruct node. Qed.

Lemma known_withColor c n : known' (Some n) -> known' (Some (withColor c n)).
Proof. done. Qed.

Lemma sound_deref node : known' node -> sound' (deref node).
Proof. intros H. destruct node; [by apply sound_ret | apply sound_panic]. Qed.

Lemma sound_setColor node c : known' node -> sound' (setColor node c).
Proof.
  intros H. unfold setColor. eapply sound_bind; [by apply sound_deref |].
  intros n Hn. by apply sound_ret.
Qed.

Lemma sound_assertNotNull node : sound' (assertNotNull node).
Proof. destruct node; [by apply sound_ret | apply sound_panic]. Qed.

Lemma agrees_meta t t' :
  db t' = db t -> Comparator t' = Comparator t -> agrees' t -> agrees' t'.
Proof. unfold agrees. by intros -> ->. Qed.

Lemma sound_Save node : known' node -> sound' (Save node).
Proof.
  intros Hn t e t' Ht H. split; [| done].
  destruct node as [n|]; [| discriminate].
  unfold Save, bind, deref, ret, db_Put in H.
  destruct (bool_decide (Key n ∈ storeFails (db t))); injection H as _ <-.
  - by apply (agrees_meta t).
  - destruct Ht as (Hv & Hc). split; [| exact Hc]. simpl. intros k' Hk'.
    destruct (decide (Key n = k')) as [<- | Hne].
    + rewrite lookup_insert_eq. simpl. destruct Hn as [Hn | Hn]; congruence.
    + rewrite lookup_insert_ne by done. by apply Hv.
Qed.

Lemma sound_setRootKey k : sound' (setRootKey k).
Proof. intros t u t' Ht [= _ <-]. split; [by apply (agrees_meta t) | done]. Qed.

Lemma sound_incSize : sound' incSize.
Proof. intros t u t' Ht [= _ <-]. split; [by apply (agrees_meta t) | done]. Qed.

End OtherValues.

Create HintDb sound.

#[local] Hint Resolve known_GetNode known_sibling known_withKeys known_withColor : sound.
#[local] Hint Resolve sound_deref sound_setColor sound_assertNotNull sound_Save
  sound_setRootKey sound_incSize sound_panic sound_timeout : sound.
#[local] Hint Extern 1 (good _) => exact I : sound.
#[local] Hint Extern 2 (good _) => (progress unfold good, Good_option_Node, Good_Node) : sound.
#[local] Hint Unfold Node_Left Node_Right Node_Parent Node_uncle Root
  setLeftKey setRightKey setParentKey : sound.

(** Breaks a [sound] goal down along its binds and branches. *)
Ltac sound_leaf := solve [eauto 6 with sound].
Ltac sound_intro :=
  intros ? ?;
  unfold good, Good_option_Node, Good_Node, Good_PutDescent, Good_any in *.
Ltac sound_step :=
  match goal with
  | |- sound _ _ (bind (gets _) _) =>
      eapply sound_bind; [apply sound_gets; intros; sound_leaf | sound_intro]
  | |- sound _ _ (bind _ _) => eapply sound_bind; [| sound_intro]
  | |- sound _ _ (ret _) => apply sound_ret; sound_leaf
  | |- sound _ _ (if ?b then _ else _) => destruct b
  | |- sound _ _ (match ?x with Some _ => _ | None => _ end) => destruct x
  | |- sound _ _ (Save (if ?b then _ else _)) => destruct b
  | |- sound _ _ (match ?x with Overwrote => _ | Attached _ _ => _ end) =>
      destruct x; repeat match goal with H : _ /\ _ |- _ => destruct H end
  | |- sound _ _ _ => sound_leaf
  end.

Lemma sound_replaceNode key V old new :
  known key V old -> known key V new -> sound key V (replaceNode old new).
Proof. intros Ho Hn. unfold replaceNode. repeat sound_step. Qed.

#[local] Hint Resolve sound_replaceNode : sound.

Lemma sound_rotateLeft key V node : known key V node -> sound key V (rotateLeft node).
Proof. intros Hn. unfold rotateLeft. repeat sound_step. Qed.

Lemma sound_rotateRight key V node : known key V node -> sound key V (rotateRight node).
Proof. intros Hn. unfold rotateRight. repeat sound_step. Qed.

#[local] Hint Resolve sound_rotateLeft sound_rotateRight : sound.

Lemma sound_insertCase5 key V node : known key V node -> sound key V (insertCase5 node).
Proof. intros Hn. unfold insertCase5. repeat sound_step. Qed.

#[local] Hint Resolve sound_insertCase5 : sound.

Lemma sound_insertCase4 key V node : known key V node -> sound key V (insertCase4 node).
Proof. intros Hn. unfold insertCase4. repeat sound_step. Qed.

#[local] Hint Resolve sound_insertCase4 : sound.

Lemma sound_insertCase1 key V fuel : forall node,
  known key V node -> sound key V (insertCase1 fuel node).
Proof.
  induction fuel as [|fuel IH]; intros node Hn; simpl; [apply sound_timeout |].
  unfold insertCase2, insertCase3. repeat sound_step.
Qed.

#[local] Hint Resolve sound_insertCase1 : sound.

Lemma sound_Put_fixup key V fuel node :
  known key V node -> sound key V (Put_fixup fuel node).
Proof. intros Hn. unfold Put_fixup. repeat sound_step. Qed.

Lemma known_newNode key V value : known key V (newNode key value).
Proof. by left. Qed.

#[local] Hint Resolve sound_Put_fixup known_newNode : sound.

Lemma sound_Put_loop key V value fuel : forall node,
  known key V node -> sound key V (Put_loop fuel key value node).
Proof.
  induction fuel as [|fuel IH]; intros node Hn; cbn [Put_loop]; [apply sound_timeout |].
  eapply sound_bind; [by apply sound_deref | sound_intro].
  apply sound_gets_bind. intros t Ht b t'.
  destruct (Z.eqb_spec (Comparator t key (Key a)) 0) as [E|NE].
  - (* the node found carries the key itself *)
    apply (proj2 Ht) in E.
    assert (sound key V (Save (Some (withValue value a));; ret Overwrote)) as Hs.
    { eapply sound_bind; [apply sound_Save; left; simpl; congruence |].
      sound_intro. by apply sound_ret. }
    exact (Hs t b t' Ht).
  - assert (known key V (Some a)) as Ha by exact H.
    destruct (Comparator t key (Key a) <? 0).
    + assert (sound key V
        (noLeft <- gets (fun t => IsEmptyKey t (LeftKey node));;
         if noLeft : bool then
           Save (setLeftKey node key);;
           ret (Attached (setLeftKey node key) (newNode key value))
         else
           next <- gets (fun t => Node_Left t node);; Put_loop fuel key value next)) as Hs.
      { repeat sound_step. }
      exact (Hs t b t' Ht).
    + assert (sound key V
        (noRight <- gets (fun t => IsEmptyKey t (RightKey node));;
         if noRight : bool then
           Save (setRightKey node key);;
           ret (Attached (setRightKey node key) (newNode key value))
         else
           next <- gets (fun t => Node_Right t node);; Put_loop fuel key value next)) as Hs.
      { repeat sound_step. }
      exact (Hs t b t' Ht).
Qed.

#[local] Hint Resolve sound_Put_loop : sound.

Lemma sound_Put key V fuel value : sound key V (Put fuel key value).
Proof.
  unfold Put. repeat sound_step.
Qed.

(** X3: [Put key value] never changes the value stored under another key,
    and never drops another key's record: whatever rebalancing it runs
    rewrites colours and references only. The comparator has to be zero
    on equal keys only, else the descent can overwrite the value of a
    different key that compares equal. *)
Theorem Put_keeps_other_values (fuel : nat) (key value : Bytes) (tree tree' : Tree)
    (e : option error) :
  (forall a b, Comparator tree a b = 0 -> a = b) ->
  Put fuel key value tree = Ret (e, tree') ->
  forall k', k' <> key ->
    Value <$> (records (db tree') !! k') = Value <$> (records (db tree) !! k').
Proof.
  intros Hcmp H.
  pose (V := fun k' => Value <$> (records (db tree) !! k')).
  assert (agrees key V tree) as Ht by (split; [done | exact Hcmp]).
  destruct (sound_Put key V fuel value tree e tree' Ht H) as ((Hv & _) & _).
  exact Hv.
Qed.

Lemma Put_keeps_other_values_witness :
  exists t',
    Put 10 (bkey 40) (bkey 7) twoTree = Ret (None, t') /\
    forall k', k' <> bkey 40 ->
      Value <$> (records (db t') !! k') = Value <$> (records (db twoTree) !! k').
Proof.
  eexists. split; [vm_compute; reflexivity |].
  apply (Put_keeps_other_values 10 (bkey 40) (bkey 7) twoTree _ None).
  - intros a b. apply bytesCompare_eq.
  - vm_compute. reflexivity.
Defined.

(** ** The count *)

Lemma Put_loop_kind fuel key value : forall node t d t',
  Put_loop fuel key value node t = Ret (d, t') ->
  exists r, descent fuel t key node = Ret r /\
            match d with
            | Overwrote => isNil r = false
            | Attached _ _ => isNil r = true
            end.
Proof.
  induction fuel as [|fuel IH]; intros node t d t' H; cbn [Put_loop] in H; [discriminate |].
  apply bind_Ret in H as (n & t1 & H1 & H).
  destruct node as [m|]; [| discriminate]. injection H1 as <- <-.
  apply bind_Ret in H as (c & t1 & H1 & H). injection H1 as <- <-.
  cbn [descent].
  destruct (Comparator t key (Key m) =? 0).
  - apply bind_Ret in H as (e & t1 & H1 & H). injection H as <- _. eauto.
  - destruct (Comparator t key (Key m) <? 0).
    + apply bind_Ret in H as (b & t1 & H1 & H). injection H1 as <- <-.
      match type of H with context [if ?c then _ else _] => destruct c eqn:He end.
      * apply bind_Ret in H as (e & t1 & H1 & H). injection H as <- _.
        assert (Node_Left t (Some m) = None) as ->.
        { unfold Node_Left, GetNode, db_Get. simpl. unfold IsEmptyKey in He. by rewrite He. }
        exists None. by destruct fuel.
      * apply bind_Ret in H as (nx & t1 & H1 & H). injection H1 as <- <-. eauto.
    + apply bind_Ret in H as (b & t1 & H1 & H). injection H1 as <- <-.
      match type of H with context [if ?c then _ else _] => destruct c eqn:He end.
      * apply bind_Ret in H as (e & t1 & H1 & H). injection H as <- _.
        assert (Node_Right t (Some m) = None) as ->.
        { unfold Node_Right, GetNode, db_Get. simpl. unfold IsEmptyKey in He. by rewrite He. }
        exists None. by destruct fuel.
      * apply bind_Ret in H as (nx & t1 & H1 & H). injection H1 as <- <-. eauto.
Qed.

Lemma Put_fixup_size fuel node t e t' :
  Put_fixup fuel node t = Ret (e, t') -> size t' = wrap64 (size t + 1).
Proof.
  unfold Put_fixup. intros H.
  apply bind_Ret in H as (node' & t1 & H1 & H).
  apply bind_Ret in H as (e1 & t2 & H2 & H).
  apply bind_Ret in H as (u & t3 & H3 & H).
  injection H as _ <-. injection H3 as _ <-. simpl.
  apply insertCase1_sameMeta in H1 as (E1 & _).
  apply Save_sameMeta in H2 as (E2 & _). congruence.
Qed.

(** X4: a [Put] that returns has changed the count by one (modulo 2^64)
    exactly when the comparator descent from the root does not find the
    key; when the descent finds it the count is as before. *)
Theorem Put_counts_new_keys (fuel : nat) (key value : Bytes) (tree tree' : Tree)
    (e : option error) :
  Put fuel key value tree = Ret (e, tree') ->
  exists r, descent fuel tree key (Root tree) = Ret r /\
            Size tree' = if isNil r then wrap64 (Size tree + 1) else Size tree.
Proof.
  intros H. unfold Put in H.
  apply bind_Ret in H as (b & t1 & H1 & H). injection H1 as <- <-.
  destruct (IsEmptyKey tree (rootKey tree)) eqn:Hr.
  - apply bind_Ret in H as (u & t1 & H1 & H). injection H1 as _ <-.
    apply Put_fixup_size in H. exists None. split; [| exact H].
    assert (Root tree = None) as ->; [| by destruct fuel].
    unfold Root, GetNode, db_Get. unfold IsEmptyKey in Hr. by rewrite Hr.
  - apply bind_Ret in H as (root & t1 & H1 & H). injection H1 as <- <-.
    apply bind_Ret in H as (d & t1 & H1 & H).
    pose proof (Put_loop_sameMeta _ _ _ _ _ _ _ H1) as (Hs1 & _).
    apply Put_loop_kind in H1 as (r & Hd & Hk). exists r. split; [exact Hd |].
    destruct d as [|node ins].
    + injection H as _ <-. rewrite Hk. exact Hs1.
    + rewrite Hk. apply bind_Ret in H as (n & t2 & H2 & H).
      destruct node as [m|]; [| discriminate]. injection H2 as <- <-.
      apply bind_Ret in H as (e2 & t2 & H2 & H).
      apply Save_sameMeta in H2 as (Hs2 & _).
      apply Put_fixup_size in H. unfold Size. congruence.
Qed.

Lemma Put_counts_new_keys_witness :
  exists t',
    Put 10 (bkey 40) (bkey 7) twoTree = Ret (None, t') /\
    exists r, descent 10 twoTree (bkey 40) (Root twoTree) = Ret r /\
              Size t' = if isNil r then wrap64 (Size twoTree + 1) else Size twoTree.
Proof.
  eexists. split; [vm_compute; reflexivity |].
  apply (Put_counts_new_keys 10 (bkey 40) (bkey 7) twoTree _ None).
  vm_compute. reflexivity.
Defined.

(** X5: a [Remove] that finds a loadable record under its key and returns
    has counted down by one (modulo 2^64), whatever else it did. *)
Theorem Remove_counts_down (fuel : nat) (key : Bytes) (tree tree' : Tree) :
  is_Some (fst (GetNode tree key)) ->
  Remove fuel key tree = Ret (tt, tree') ->
  Size tree' = wrap64 (Size tree - 1).
Proof.
  intros [n Hn] H. apply GetNode_Some in Hn as (HG & _).
  exact (Remove_found_size _ _ _ _ _ HG H).
Qed.

Lemma Remove_counts_down_witness :
  exists t',
    is_Some (fst (GetNode twoTree (bkey 30))) /\
    Remove 10 (bkey 30) twoTree = Ret (tt, t') /\
    Size t' = wrap64 (Size twoTree - 1).
Proof.
  eexists. split; [vm_compute; eauto |].
  split; [vm_compute; reflexivity |].
  apply (Remove_counts_down 10 (bkey 30) twoTree).
  - vm_compute. eauto.
  - vm_compute. reflexivity.
Defined.

(** ** Records that a removal leaves behind *)

Lemma grows_refl t : grows t t.
Proof. by split. Qed.

Lemma grows_trans t1 t2 t3 : grows t1 t2 -> grows t2 t3 -> grows t1 t3.
Proof. intros (H1 & E1) (H2 & E2). split; [auto | congruence]. Qed.

#[local] Hint Resolve grows_refl grows_trans : core.

Lemma Save_grows node : keeps grows (Save node).
Proof.
  intros t e t' H. destruct node as [n|]; [| discriminate].
  unfold Save, bind, deref, ret, db_Put in H.
  destruct (bool_decide _); injection H as _ <-; [by split |].
  split; [| done]. simpl. intros k Hk.
  destruct (decide (Key n = k)) as [<- | Hne];
    [rewrite lookup_insert_eq; eauto | by rewrite lookup_insert_ne].
Qed.

Lemma setRootKey_grows k : keeps grows (setRootKey k).
Proof. intros t u t' [= _ <-]. by split. Qed.

#[local] Hint Resolve Save_grows setRootKey_grows : core.

Lemma replaceNode_grows old new : keeps grows (replaceNode old new).
Proof. unfold replaceNode. repeat keeps_step. Qed.

#[local] Hint Resolve replaceNode_grows : core.

Lemma decSize_grows : keeps grows decSize.
Proof. intros t u t' [= _ <-]. by split. Qed.

#[local] Hint Resolve decSize_grows : core.

(** A red node is unlinked without any fixup: [Remove] goes straight to
    [replaceNode] (or, with two children, does nothing), so no record is
    deleted on the way. *)
Lemma Remove_red_grows (fuel : nat) (key : Bytes) (tree tree' : Tree) (n : Node) :
  GetNode tree key = (Some n, None) ->
  Color (NItem n) = red ->
  Remove fuel key tree = Ret (tt, tree') ->
  grows tree tree'.
Proof.
  intros HG Hred H.
  unfold Remove in H.
  apply bind_Ret in H as (got & t1 & H1 & H). injection H1 as <- <-. rewrite HG in H.
  apply bind_Ret in H as (hl & t1 & H1 & H). injection H1 as <- <-.
  apply bind_Ret in H as (left & t1 & H1 & H).
  assert (t1 = tree) as ->.
  { destruct (negb _); by injection H1. }
  clear H1.
  apply bind_Ret in H as (hr & t1 & H1 & H). injection H1 as <- <-.
  apply bind_Ret in H as (right & t1 & H1 & H).
  assert (t1 = tree) as ->.
  { destruct (negb _); by injection H1. }
  clear H1.
  apply bind_Ret in H as (node & t1 & H1 & H).
  destruct (isNil left || isNil right) eqn:Hnil.
  - assert (negb (isNil left) && negb (isNil right) = false) as E
      by (destruct left, right; done).
    rewrite E in H1. injection H1 as <- <-.
    apply bind_Ret in H as (u & t2 & H1 & H). apply decSize_grows in H.
    apply (grows_trans _ t2); [| exact H]. clear H.
    apply bind_Ret in H1 as (n0 & t1 & [= <- <-] & H1).
    rewrite Hred in H1. cbv beta iota delta [red] in H1.
    revert H1.
    match goal with |- ?m tree = _ -> _ => assert (keeps grows m) as K end;
      [repeat keeps_step | apply K].
  - assert (negb (isNil left) && negb (isNil right) = true) as E
      by (destruct left, right; done).
    rewrite E in H1. apply maximumNode_same in H1. subst t1.
    apply bind_Ret in H as (u & t2 & [= _ <-] & H). by apply decSize_grows in H.
Qed.

(** X6: [Remove] never deletes the record of a red node: it unlinks the
    node (or, with two children, does nothing) and the record stays in
    storage, so [Has] and [Get] still find the key afterwards. *)
Theorem Remove_red_keeps_record (fuel : nat) (key : Bytes) (tree tree' : Tree)
    (n : Node) :
  GetNode tree key = (Some n, None) ->
  Color (NItem n) = red ->
  Remove fuel key tree = Ret (tt, tree') ->
  Has tree' key = (true, None) /\ snd (Get tree' key) = true.
Proof.
  intros HG Hred H.
  destruct (Remove_red_grows _ _ _ _ _ HG Hred H) as (Hg & Hl).
  assert (fst (GetNode tree key) = Some n) as HG' by (by rewrite HG).
  apply GetNode_Some in HG' as (_ & _ & Hrec & Hk & Hlf).
  assert (is_Some (records (db tree') !! key)) as [it Hit] by (apply Hg; eauto).
  unfold Has, db_Has, Get, GetNode, db_Get, db_IsEmptyKey.
  rewrite (bool_decide_eq_false_2 _ Hk).
  rewrite bool_decide_eq_false_2 by (by rewrite Hl).
  rewrite Hit. simpl. split; reflexivity.
Qed.

Lemma Remove_red_keeps_record_witness :
  exists n t',
    GetNode twoTree (bkey 30) = (Some n, None) /\
    Color (NItem n) = red /\
    Remove 10 (bkey 30) twoTree = Ret (tt, t') /\
    inorderKeys 10 t' = [bkey 20] /\
    Has t' (bkey 30) = (true, None) /\ snd (Get t' (bkey 30)) = true.
Proof.
  eexists _, _. split; [vm_compute; reflexivity |].
  split; [vm_compute; reflexivity |].
  split; [vm_compute; reflexivity |].
  split; [vm_compute; reflexivity |].
  eapply (Remove_red_keeps_record 10 (bkey 30) twoTree); vm_compute; reflexivity.
Defined.

(** ** Removals that never reach [deleteNode] *)

(** C9, as the code has it: the storage delete is skipped far more often
    than the carve-out says. [Remove] deletes a record only where it
    reaches [deleteNode], and for a red node it never does: the record
    stays in storage whatever the count and the root are. On the tree
    built from [20, 30] the key 30 is a red leaf, the count is 2 and the
    root is 20; after [Remove 30] the record of 30 is stored as before and
    [Has] finds it. The black leaf 40 below the red node 60 fares the same
    on the [deleteCase4] path. *)
Theorem Remove_misses_storage_delete :
  (forall (fuel : nat) (tree tree' : Tree) (key : Bytes) (n : Node),
      GetNode tree key = (Some n, None) ->
      Color (NItem n) = red ->
      Remove fuel key tree = Ret (tt, tree') ->
      is_Some (records (db tree') !! key))
  /\
  (putAll 10 (map bkey [20; 30]%N) [] (NewWithBytesComparator emptyDB) = Ret (tt, twoTree) /\
   1 < Size twoTree /\
   Comparator twoTree (bkey 30) (rootKey twoTree) <> 0 /\
   exists t',
     Remove 10 (bkey 30) twoTree = Ret (tt, t') /\
     inorderKeys 10 t' = [bkey 20] /\
     Size t' = 1 /\
     records (db t') !! bkey 30 = records (db twoTree) !! bkey 30 /\
     is_Some (records (db t') !! bkey 30) /\
     Has t' (bkey 30) = (true, None))
  /\
  (Remove 10 (bkey 80) scenarioTree = Ret (tt, prunedTree) /\
   1 < Size prunedTree /\
   Comparator prunedTree (bkey 40) (rootKey prunedTree) <> 0 /\
   exists n t',
     GetNode prunedTree (bkey 40) = (Some n, None) /\
     Color (NItem n) = black /\
     Remove 10 (bkey 40) prunedTree = Ret (tt, t') /\
     is_Some (records (db t') !! bkey 40) /\
     Has t' (bkey 40) = (true, None)).
Proof.
  split; [| split].
  - intros fuel tree tree' key n HG Hred H.
    destruct (Remove_red_grows _ _ _ _ _ HG Hred H) as (Hg & _).
    assert (fst (GetNode tree key) = Some n) as HG' by (by rewrite HG).
    apply GetNode_Some in HG' as (_ & _ & Hrec & _ & _).
    apply Hg. by eexists.
  - split; [vm_compute; reflexivity |].
    split; [vm_compute; reflexivity |].
    split; [vm_compute; discriminate |].
    eexists. split; [vm_compute; reflexivity |].
    split; [vm_compute; reflexivity |].
    split; [vm_compute; reflexivity |].
    split; [vm_compute; reflexivity |].
    split; [eexists; vm_compute; reflexivity | vm_compute; reflexivity].
  - split; [vm_compute; reflexivity |].
    split; [vm_compute; reflexivity |].
    split; [vm_compute; discriminate |].
    eexists _, _. split; [vm_compute; reflexivity |].
    split; [vm_compute; reflexivity |].
    split; [vm_compute; reflexivity |].
    split; [eexists; vm_compute; reflexivity | vm_compute; reflexivity].
Qed.

(** ** The rotations keep the in-order sequence *)

Lemma Stored_Rep tree k s : Stored tree k s -> Rep tree k s.
Proof.
  induction 1 as [| k n l r HG _ IHl _ IHr]; [by apply Rep_leaf | by eapply Rep_node].
Qed.

Lemma Stored_key tree k l n r : Stored tree k (Br l n r) -> Key n = k.
Proof.
  inversion 1 as [| ? ? ? ? HG _ _]; subst.
  assert (fst (GetNode tree k) = Some n) as H' by (by rewrite HG).
  by apply GetNode_Some in H' as (_ & ? & _).
Qed.

Lemma Stored_frame tree tree' s : forall k,
  Stored tree k s ->
  (forall k', In k' (keys s) -> GetNode tree' k' = GetNode tree k') ->
  Stored tree' k s.
Proof.
  induction s as [|l IHl n r IHr]; intros k HS Hsame.
  - inversion HS. constructor.
  - pose proof (Stored_key _ _ _ _ _ HS) as Hk.
    inversion HS as [| ? ? ? ? HG HL HR]; subst.
    apply Stored_node.
    + rewrite Hsame; [done |]. apply In_keys_app. auto.
    + apply IHl; [done |]. intros k' Hk'. apply Hsame, In_keys_app. auto.
    + apply IHr; [done |]. intros k' Hk'. apply Hsame, In_keys_app. auto.
Qed.

Lemma GetNode_store_ne t n k : k <> Key n -> GetNode (store t n) k = GetNode t k.
Proof.
  intros Hne. unfold GetNode, db_Get, store. simpl.
  by rewrite lookup_insert_ne.
Qed.

Lemma GetNode_store_eq t n :
  Key n <> EmptyKey -> Key n ∉ loadFails (db t) ->
  GetNode (store t n) (Key n) = (Some n, None).
Proof.
  intros Hk Hl. unfold GetNode, db_Get, db_IsEmptyKey, store. simpl.
  rewrite (bool_decide_eq_false_2 _ Hk), (bool_decide_eq_false_2 _ Hl).
  rewrite lookup_insert_eq. by destruct n.
Qed.

Lemma bind_gets {A B} (f : Tree -> A) (k : A -> M B) t : bind (gets f) k t = k (f t) t.
Proof. reflexivity. Qed.

Lemma bind_ret {A B} (a : A) (k : A -> M B) t : bind (ret a) k t = k a t.
Proof. reflexivity. Qed.

Lemma bind_bind {A B C} (m : M A) (k1 : A -> M B) (k2 : B -> M C) t :
  bind (bind m k1) k2 t = bind m (fun a => bind (k1 a) k2) t.
Proof. unfold bind. by destruct (m t) as [[a t1]| |]. Qed.

Lemma bind_Save {B} n (k : option error -> M B) t :
  storeFails (db t) = [] ->
  bind (Save (Some n)) k t = k None (store t n).
Proof.
  intros Hs. unfold bind at 1, Save, bind, deref, ret, db_Put.
  rewrite bool_decide_eq_false_2; [done |]. rewrite Hs. apply not_elem_of_nil.
Qed.

Lemma bind_setRootKey {B} key (k : unit -> M B) t :
  bind (setRootKey key) k t
  = k tt (mkTree (db t) key (size t) (Comparator t)).
Proof. reflexivity. Qed.

(** The stores a rotation performs: the records of the two nodes that
    turn, of the subtree that changes sides, and of the parent. *)
Lemma replaceNode_root (old new : Node) t :
  ParentKey (Some old) = EmptyKey ->
  storeFails (db t) = [] ->
  replaceNode (Some old) (Some new) t
  = Ret (Some (linked (LeftKey (Some new)) (RightKey (Some new)) EmptyKey new),
         store (mkTree (db t) (Key new) (size t) (Comparator t))
           (linked (LeftKey (Some new)) (RightKey (Some new)) EmptyKey new)).
Proof.
  intros Hp Hs. unfold replaceNode.
  rewrite bind_gets. unfold IsEmptyKey, db_IsEmptyKey. rewrite Hp.
  rewrite bool_decide_eq_true_2 by done.
  rewrite bind_setRootKey.
  change (setParentKey (Some new) EmptyKey)
    with (Some (linked (LeftKey (Some new)) (RightKey (Some new)) EmptyKey new)).
  by rewrite bind_Save.
Qed.

Lemma replaceNode_child (old new p : Node) t :
  GetNode t (ParentKey (Some old)) = (Some p, None) ->
  storeFails (db t) = [] ->
  replaceNode (Some old) (Some new) t
  = Ret (Some (linked (LeftKey (Some new)) (RightKey (Some new)) (ParentKey (Some old)) new),
         store (store t (relinked t (Key old) (Key new) p))
           (linked (LeftKey (Some new)) (RightKey (Some new)) (ParentKey (Some old)) new)).
Proof.
  intros Hp Hs.
  assert (fst (GetNode t (ParentKey (Some old))) = Some p) as Hp' by (by rewrite Hp).
  apply GetNode_Some in Hp' as (_ & _ & _ & Hne & _).
  unfold replaceNode.
  rewrite bind_gets. unfold IsEmptyKey, db_IsEmptyKey.
  rewrite (bool_decide_eq_false_2 _ Hne).
  rewrite bind_bind, bind_gets. unfold Node_Parent. rewrite Hp. cbn [fst].
  rewrite bind_bind. cbn [deref]. rewrite bind_ret.
  rewrite bind_bind, bind_gets. rewrite bind_bind.
  assert ((if Comparator t (Key old) (LeftKey (Some p)) =? 0
           then setLeftKey (Some p) (Key new) else setRightKey (Some p) (Key new))
          = Some (relinked t (Key old) (Key new) p)) as ->.
  { unfold relinked. by destruct (_ =? 0). }
  rewrite bind_Save by done. rewrite bind_ret.
  change (setParentKey (Some new) (ParentKey (Some old)))
    with (Some (linked (LeftKey (Some new)) (RightKey (Some new)) (ParentKey (Some old)) new)).
  by rewrite bind_Save.
Qed.
Lemma keys_Br l n r : keys (Br l n r) = keys l ++ Key n :: keys r.
Proof. unfold keys. simpl. by rewrite map_app. Qed.

Lemma keys_reparent k s : keys (reparent k s) = keys s.
Proof. destruct s; [done |]. simpl. by rewrite !keys_Br. Qed.

Lemma Stored_reparent t t' p l n r :
  Stored t (Key n) (Br l n r) ->
  GetNode t' (Key n) = (Some (linked (LeftKey (Some n)) (RightKey (Some n)) p n), None) ->
  (forall k', In k' (keys l) \/ In k' (keys r) -> GetNode t' k' = GetNode t k') ->
  Stored t' (Key n) (reparent p (Br l n r)).
Proof.
  intros HS HG' Hsame. inversion HS as [| ? ? ? ? HG HL HR]; subst.
  simpl. apply Stored_node; [exact HG' | |]; simpl.
  - apply (Stored_frame t); [exact HL | auto].
  - apply (Stored_frame t); [exact HR | auto].
Qed.

(** The two nodes of a left rotation once it is through. *)
Lemma rotateLeft_run (x y y1 : Node) t t1 :
  Node_Right t (Some x) = Some y ->
  y1 = linked (LeftKey (Some y)) (RightKey (Some y)) (ParentKey (Some x)) y ->
  replaceNode (Some x) (Some y) t = Ret (Some y1, t1) ->
  storeFails (db t1) = [] ->
  let x2 := linked (LeftKey (Some x)) (LeftKey (Some y)) (Key y) x in
  let y2 := linked (Key x) (RightKey (Some y)) (ParentKey (Some x)) y in
  (LeftKey (Some y) = EmptyKey ->
   rotateLeft (Some x) t = Ret (tt, store (store t1 x2) y2)) /\
  (forall bn, LeftKey (Some y) <> EmptyKey ->
     fst (GetNode t1 (LeftKey (Some y))) = Some bn ->
     rotateLeft (Some x) t
     = Ret (tt, store (store (store t1
                  (linked (LeftKey (Some bn)) (RightKey (Some bn)) (Key x) bn)) x2) y2)).
Proof.
  intros Hr -> Hrep Hs x2 y2. split.
  - intros He. simpl in He. unfold rotateLeft.
    rewrite bind_gets, Hr. unfold bind at 1. rewrite Hrep.
    rewrite bind_gets. unfold IsEmptyKey, db_IsEmptyKey. simpl LeftKey.
    rewrite (bool_decide_eq_true_2 _ He). simpl negb. cbv iota.
    rewrite bind_ret. simpl deref. rewrite bind_ret. simpl deref. rewrite bind_ret.
    simpl setParentKey. rewrite bind_Save by done.
    simpl setLeftKey. rewrite bind_Save by done. reflexivity.
  - intros bn Hne Hbn. simpl in Hne, Hbn. unfold rotateLeft.
    rewrite bind_gets, Hr. unfold bind at 1. rewrite Hrep.
    rewrite bind_gets. unfold IsEmptyKey, db_IsEmptyKey. simpl LeftKey.
    rewrite (bool_decide_eq_false_2 _ Hne). simpl negb. cbv iota.
    rewrite bind_bind, bind_gets. unfold Node_Left at 1. simpl LeftKey. rewrite Hbn.
    rewrite bind_bind. simpl deref. rewrite bind_ret.
    rewrite bind_bind. simpl setParentKey. rewrite bind_Save by done.
    repeat (simpl deref; rewrite bind_ret).
    simpl setParentKey. rewrite bind_Save by done.
    simpl setLeftKey. rewrite bind_Save by done. reflexivity.
Qed.
Lemma NoDup_rot (A B C : list Bytes) (kx ky : Bytes) :
  NoDup (A ++ kx :: (B ++ ky :: C)) ->
  kx <> ky /\ (kx ∉ A) /\ (kx ∉ B) /\ (kx ∉ C) /\ (ky ∉ A) /\ (ky ∉ B) /\ (ky ∉ C) /\
  (forall z, z ∈ A -> (z ∉ B) /\ (z ∉ C)) /\ (forall z, z ∈ B -> z ∉ C) /\ NoDup B.
Proof.
  rewrite NoDup_app, NoDup_cons, NoDup_app, NoDup_cons.
  intros (_ & HA & (Hx & HB & HBC & Hy & _)).
  repeat split; try set_solver.
Qed.

Lemma GetNode_loaded t k n :
  GetNode t k = (Some n, None) ->
  Key n = k /\ k <> EmptyKey /\ (k ∉ loadFails (db t)).
Proof.
  intros HG. assert (fst (GetNode t k) = Some n) as H by (by rewrite HG).
  apply GetNode_Some in H. tauto.
Qed.

Lemma rotateLeft_Stored (x y : Node) (a b c : shape) (t t1 : Tree) :
  Stored t (Key x) (Br a x (Br b y c)) ->
  NoDup (keys (Br a x (Br b y c))) ->
  replaceNode (Some x) (Some y) t
  = Ret (Some (linked (LeftKey (Some y)) (RightKey (Some y)) (ParentKey (Some x)) y), t1) ->
  storeFails (db t1) = [] ->
  loadFails (db t1) = loadFails (db t) ->
  (forall k, In k (keys (Br a x (Br b y c))) -> k <> Key y -> GetNode t1 k = GetNode t k) ->
  exists t',
    rotateLeft (Some x) t = Ret (tt, t') /\
    Stored t' (Key y)
      (Br (Br a (linked (LeftKey (Some x)) (LeftKey (Some y)) (Key y) x)
              (reparent (Key x) b))
          (linked (Key x) (RightKey (Some y)) (ParentKey (Some x)) y) c) /\
    rootKey t' = rootKey t1 /\ size t' = size t1 /\
    (forall k, ~ In k (keys (Br a x (Br b y c))) -> GetNode t' k = GetNode t1 k).
Proof.
  intros HS Hnd Hrep Hs Hl Hsame.
  inversion HS as [| ? ? ? ? HGx HSa HSr]; subst.
  pose proof (Stored_key _ _ _ _ _ HSr) as Hyk.
  inversion HSr as [| ? ? ? ? HGy HSb HSc]; subst.
  destruct (GetNode_loaded _ _ _ HGx) as (_ & Hxe & Hxl).
  destruct (GetNode_loaded _ _ _ HGy) as (_ & Hye & Hyl).
  rewrite <- Hyk in Hye, Hyl.
  assert (Node_Right t (Some x) = Some y) as Hr by (unfold Node_Right; by rewrite HGy).
  rewrite !keys_Br in Hnd. pose proof (NoDup_rot _ _ _ _ _ Hnd)
    as (Hxy & HxA & HxB & HxC & HyA & HyB & HyC & HAB & HBC & HndB).
  set (x2 := linked (LeftKey (Some x)) (LeftKey (Some y)) (Key y) x).
  set (y2 := linked (Key x) (RightKey (Some y)) (ParentKey (Some x)) y).
  destruct (rotateLeft_run x y _ t t1 Hr eq_refl Hrep Hs) as (Hrun0 & Hrun1).
  assert (forall k, In k (keys a) \/ In k (keys c) -> k <> Key x /\ k <> Key y /\
            GetNode t1 k = GetNode t k) as Hac.
  { intros k Hk.
    assert (k <> Key x) by (intros ->; destruct Hk as [Hk|Hk];
                            apply list_elem_of_In in Hk; contradiction).
    assert (k <> Key y) by (intros ->; destruct Hk as [Hk|Hk];
                            apply list_elem_of_In in Hk; contradiction).
    split; [done |]. split; [done |]. apply Hsame; [| done].
    rewrite !keys_Br, !in_app_iff. simpl. rewrite in_app_iff. simpl. tauto. }
  destruct b as [|bl bn br].
  - (* nothing changes sides *)
    inversion HSb as [He |]. symmetry in He.
    exists (store (store t1 x2) y2). split; [by apply Hrun0 |].
    split; [| split; [done | split; [done |]]].
    + apply Stored_node.
      * apply (GetNode_store_eq _ y2); simpl; [done | by rewrite Hl].
      * simpl. apply Stored_node.
        -- rewrite (GetNode_store_ne _ y2) by done.
           apply (GetNode_store_eq _ x2); simpl; [done | by rewrite Hl].
        -- simpl. apply (Stored_frame t); [exact HSa |]. intros k Hk.
           destruct (Hac k (or_introl Hk)) as (? & ? & <-).
           rewrite (GetNode_store_ne _ y2), (GetNode_store_ne _ x2); done.
        -- replace (RightKey (Some x2)) with EmptyKey by (by rewrite <- He).
           constructor.
      * simpl. apply (Stored_frame t); [exact HSc |]. intros k Hk.
        destruct (Hac k (or_intror Hk)) as (? & ? & <-).
        rewrite (GetNode_store_ne _ y2), (GetNode_store_ne _ x2); done.
    + intros k Hk. rewrite !keys_Br, !in_app_iff in Hk. simpl in Hk.
      rewrite (GetNode_store_ne _ y2), (GetNode_store_ne _ x2); simpl; [done | |];
        intros ->; tauto.
  - (* the left subtree of [y] becomes the right subtree of [x] *)
    pose proof (Stored_key _ _ _ _ _ HSb) as Hbk.
    inversion HSb as [| ? ? ? ? HGb HSbl HSbr]; subst.
    destruct (GetNode_loaded _ _ _ HGb) as (_ & Hbe & Hbl).
    rewrite keys_Br in HxB, HyB, HAB, HBC, HndB.
    apply NoDup_app in HndB as (_ & Hblr & HndB). apply NoDup_cons in HndB as (Hbr & _).
    assert (Key bn <> Key x) as Hbx by (intros E; apply HxB; rewrite <- E; set_solver).
    assert (Key bn <> Key y) as Hby by (intros E; apply HyB; rewrite <- E; set_solver).
    assert (fst (GetNode t1 (LeftKey (Some y))) = Some bn) as Hb1.
    { rewrite Hsame, HGb; [done | | by rewrite <- Hbk].
      rewrite <- Hbk, !keys_Br, !in_app_iff. simpl. rewrite !in_app_iff. simpl. tauto. }
    set (bn' := linked (LeftKey (Some bn)) (RightKey (Some bn)) (Key x) bn).
    exists (store (store (store t1 bn') x2) y2).
    split; [by apply Hrun1 |].
    assert (forall k, In k (keys bl) \/ In k (keys br) ->
              k <> Key x /\ k <> Key y /\ k <> Key bn /\ GetNode t1 k = GetNode t k) as Hbb.
    { intros k Hk.
      assert (k ∈ keys bl ++ Key bn :: keys br) as Hin
        by (destruct Hk as [Hk|Hk]; apply list_elem_of_In in Hk; set_solver).
      assert (k <> Key x) by (intros ->; contradiction).
      assert (k <> Key y) by (intros ->; contradiction).
      assert (k <> Key bn).
      { intros ->. destruct Hk as [Hk|Hk]; apply list_elem_of_In in Hk;
          [apply (Hblr _ Hk); left | contradiction]. }
      repeat split; try done. apply Hsame; [| done].
      rewrite !keys_Br, !in_app_iff. simpl. rewrite !in_app_iff. simpl. tauto. }
    assert (forall k, In k (keys a) \/ In k (keys c) -> k <> Key bn) as Hacb.
    { intros k [Hk|Hk] ->; apply list_elem_of_In in Hk.
      - apply (HAB _ Hk). set_solver.
      - apply (HBC (Key bn)); [set_solver | done]. }
    split; [| split; [done | split; [done |]]].
    + apply Stored_node.
      * apply (GetNode_store_eq _ y2); simpl; [done | by rewrite Hl].
      * simpl. apply Stored_node.
        -- rewrite (GetNode_store_ne _ y2) by done.
           apply (GetNode_store_eq _ x2); simpl; [done | by rewrite Hl].
        -- simpl. apply (Stored_frame t); [exact HSa |]. intros k Hk.
           destruct (Hac k (or_introl Hk)) as (? & ? & <-).
           pose proof (Hacb k (or_introl Hk)).
           rewrite (GetNode_store_ne _ y2), (GetNode_store_ne _ x2),
             (GetNode_store_ne _ bn'); done.
        -- replace (RightKey (Some x2)) with (Key bn) by (by rewrite Hbk).
           apply (Stored_reparent t).
           ++ by rewrite Hbk.
           ++ rewrite (GetNode_store_ne _ y2), (GetNode_store_ne _ x2) by done.
              apply (GetNode_store_eq _ bn'); simpl; [by rewrite Hbk | rewrite Hl].
              by rewrite Hbk.
           ++ intros k Hk. destruct (Hbb k Hk) as (? & ? & ? & <-).
              rewrite (GetNode_store_ne _ y2), (GetNode_store_ne _ x2),
                (GetNode_store_ne _ bn'); done.
      * simpl. apply (Stored_frame t); [exact HSc |]. intros k Hk.
        destruct (Hac k (or_intror Hk)) as (? & ? & <-).
        pose proof (Hacb k (or_intror Hk)).
        rewrite (GetNode_store_ne _ y2), (GetNode_store_ne _ x2),
          (GetNode_store_ne _ bn'); done.
    + intros k Hk. rewrite !keys_Br, !in_app_iff in Hk. simpl in Hk.
      rewrite !in_app_iff in Hk. simpl in Hk.
      rewrite (GetNode_store_ne _ y2), (GetNode_store_ne _ x2),
        (GetNode_store_ne _ bn'); simpl; [done | | |]; intros ->; tauto.
Qed.
Lemma Key_relinked t old new p : Key (relinked t old new p) = Key p.
Proof. unfold relinked. by destruct (_ =? _). Qed.

Lemma keys_rotatedLeft a x b y c :
  keys (rotatedLeft a x b y c) = keys (Br a x (Br b y c)).
Proof.
  unfold rotatedLeft. rewrite !keys_Br, keys_reparent. simpl.
  by rewrite <- app_assoc.
Qed.

(** X7: a left rotation at [x], whose right child is [y], stores the rotated
    subtree under [y]: the keys in order, the count and every record outside
    the subtree and the parent of [x] are as before; the root reference, or
    else the link of the parent, now names [y]. *)
Theorem rotateLeft_keeps_inorder tree a x b y c :
  Stored tree (Key x) (Br a x (Br b y c)) ->
  NoDup (keys (Br a x (Br b y c))) ->
  storeFails (db tree) = [] ->
  (ParentKey (Some x) = EmptyKey \/
   exists p, GetNode tree (ParentKey (Some x)) = (Some p, None) /\
             ~ In (Key p) (keys (Br a x (Br b y c)))) ->
  exists tree',
    rotateLeft (Some x) tree = Ret (tt, tree') /\
    Stored tree' (Key y) (rotatedLeft a x b y c) /\
    keys (rotatedLeft a x b y c) = keys (Br a x (Br b y c)) /\
    size tree' = size tree /\
    rootKey tree' = (if bool_decide (ParentKey (Some x) = EmptyKey)
                     then Key y else rootKey tree) /\
    (forall p, GetNode tree (ParentKey (Some x)) = (Some p, None) ->
       GetNode tree' (ParentKey (Some x))
       = (Some (relinked tree (Key x) (Key y) p), None)) /\
    (forall k, ~ In k (keys (Br a x (Br b y c))) -> k <> ParentKey (Some x) ->
       GetNode tree' k = GetNode tree k).
Proof.
  intros HS Hnd Hs Hpar.
  assert (In (Key y) (keys (Br a x (Br b y c)))) as Hyin.
  { rewrite !keys_Br, !in_app_iff. simpl. rewrite in_app_iff. simpl. tauto. }
  destruct Hpar as [Hp | (p & Hp & Hpout)].
  - assert (replaceNode (Some x) (Some y) tree
            = Ret (Some (linked (LeftKey (Some y)) (RightKey (Some y)) (ParentKey (Some x)) y),
                   store (mkTree (db tree) (Key y) (size tree) (Comparator tree))
                     (linked (LeftKey (Some y)) (RightKey (Some y)) (ParentKey (Some x)) y)))
      as Hrep by (rewrite Hp; by apply replaceNode_root).
    destruct (rotateLeft_Stored x y a b c tree _ HS Hnd Hrep)
      as (tree' & Hrun & HS' & Hroot & Hsize & Hout); [done | done | |].
    { intros k _ Hk. by rewrite GetNode_store_ne. }
    exists tree'. split; [exact Hrun |]. split; [exact HS' |].
    split; [apply keys_rotatedLeft |]. split; [exact Hsize |].
    split; [by rewrite (bool_decide_eq_true_2 _ Hp) |]. split.
    + intros p Hg. apply GetNode_loaded in Hg as (_ & Hne & _). by rewrite Hp in Hne.
    + intros k Hk _. rewrite (Hout k Hk), GetNode_store_ne; [done |].
      simpl. by intros ->.
  - destruct (GetNode_loaded _ _ _ Hp) as (Hpk & Hpe & Hpl).
    pose proof (replaceNode_child x y p tree Hp Hs) as Hrep.
    destruct (rotateLeft_Stored x y a b c tree _ HS Hnd Hrep)
      as (tree' & Hrun & HS' & Hroot & Hsize & Hout); [done | done | |].
    { intros k Hk Hky. rewrite GetNode_store_ne by done.
      rewrite GetNode_store_ne; [done |]. rewrite Key_relinked. by intros ->. }
    exists tree'. split; [exact Hrun |]. split; [exact HS' |].
    split; [apply keys_rotatedLeft |]. split; [exact Hsize |].
    split; [by rewrite (bool_decide_eq_false_2 _ Hpe) |]. split.
    + intros p' Hg. rewrite Hp in Hg. injection Hg as <-.
      rewrite Hout by (by rewrite <- Hpk).
      rewrite GetNode_store_ne
        by (rewrite <- Hpk; change (Key p <> Key y); by intros E; rewrite E in Hpout).
      rewrite <- Hpk at 1. rewrite <- (Key_relinked tree (Key x) (Key y) p).
      apply GetNode_store_eq; rewrite Key_relinked, Hpk; done.
    + intros k Hk Hkp. rewrite (Hout k Hk), GetNode_store_ne, GetNode_store_ne; [done | |].
      * rewrite Key_relinked. by rewrite Hpk.
      * simpl. by intros ->.
Qed.
(** The two nodes of a right rotation once it is through. *)
Lemma rotateRight_run (y x x1 : Node) t t1 :
  Node_Left t (Some y) = Some x ->
  x1 = linked (LeftKey (Some x)) (RightKey (Some x)) (ParentKey (Some y)) x ->
  replaceNode (Some y) (Some x) t = Ret (Some x1, t1) ->
  storeFails (db t1) = [] ->
  let y2 := linked (RightKey (Some x)) (RightKey (Some y)) (Key x) y in
  let x2 := linked (LeftKey (Some x)) (Key y) (ParentKey (Some y)) x in
  (RightKey (Some x) = EmptyKey ->
   rotateRight (Some y) t = Ret (tt, store (store t1 y2) x2)) /\
  (forall bn, RightKey (Some x) <> EmptyKey ->
     fst (GetNode t1 (RightKey (Some x))) = Some bn ->
     rotateRight (Some y) t
     = Ret (tt, store (store (store t1
                  (linked (LeftKey (Some bn)) (RightKey (Some bn)) (Key y) bn)) y2) x2)).
Proof.
  intros Hr -> Hrep Hs y2 x2. split.
  - intros He. simpl in He. unfold rotateRight.
    rewrite bind_gets, Hr. unfold bind at 1. rewrite Hrep.
    rewrite bind_gets. unfold IsEmptyKey, db_IsEmptyKey. simpl RightKey.
    rewrite (bool_decide_eq_true_2 _ He). simpl negb. cbv iota.
    rewrite bind_ret. simpl deref. rewrite bind_ret. simpl deref. rewrite bind_ret.
    simpl setParentKey. rewrite bind_Save by done.
    simpl setRightKey. rewrite bind_Save by done. reflexivity.
  - intros bn Hne Hbn. simpl in Hne, Hbn. unfold rotateRight.
    rewrite bind_gets, Hr. unfold bind at 1. rewrite Hrep.
    rewrite bind_gets. unfold IsEmptyKey, db_IsEmptyKey. simpl RightKey.
    rewrite (bool_decide_eq_false_2 _ Hne). simpl negb. cbv iota.
    rewrite bind_bind, bind_gets. unfold Node_Right at 1. simpl RightKey. rewrite Hbn.
    rewrite bind_bind. simpl deref. rewrite bind_ret.
    rewrite bind_bind. simpl setParentKey. rewrite bind_Save by done.
    repeat (simpl deref; rewrite bind_ret).
    simpl setParentKey. rewrite bind_Save by done.
    simpl setRightKey. rewrite bind_Save by done. reflexivity.
Qed.

Lemma rotateRight_Stored (x y : Node) (a b c : shape) (t t1 : Tree) :
  Stored t (Key y) (Br (Br a x b) y c) ->
  NoDup (keys (Br (Br a x b) y c)) ->
  replaceNode (Some y) (Some x) t
  = Ret (Some (linked (LeftKey (Some x)) (RightKey (Some x)) (ParentKey (Some y)) x), t1) ->
  storeFails (db t1) = [] ->
  loadFails (db t1) = loadFails (db t) ->
  (forall k, In k (keys (Br (Br a x b) y c)) -> k <> Key x -> GetNode t1 k = GetNode t k) ->
  exists t',
    rotateRight (Some y) t = Ret (tt, t') /\
    Stored t' (Key x) (rotatedRight a x b y c) /\
    rootKey t' = rootKey t1 /\ size t' = size t1 /\
    (forall k, ~ In k (keys (Br (Br a x b) y c)) -> GetNode t' k = GetNode t1 k).
Proof.
  intros HS Hnd Hrep Hs Hl Hsame. unfold rotatedRight.
  inversion HS as [| ? ? ? ? HGy HSl HSc]; subst.
  pose proof (Stored_key _ _ _ _ _ HSl) as Hxk.
  inversion HSl as [| ? ? ? ? HGx HSa HSb]; subst.
  destruct (GetNode_loaded _ _ _ HGx) as (_ & Hxe & Hxl).
  destruct (GetNode_loaded _ _ _ HGy) as (_ & Hye & Hyl).
  rewrite <- Hxk in Hxe, Hxl.
  assert (Node_Left t (Some y) = Some x) as Hr by (unfold Node_Left; by rewrite HGx).
  assert (forall k, In k (keys (Br (Br a x b) y c)) <->
            In k (keys a) \/ k = Key x \/ In k (keys b) \/ k = Key y \/ In k (keys c)) as Hin.
  { intros k. rewrite !keys_Br, !in_app_iff. simpl. rewrite ?in_app_iff. simpl.
    intuition congruence. }
  rewrite !keys_Br, <- app_assoc in Hnd. simpl in Hnd.
  pose proof (NoDup_rot _ _ _ _ _ Hnd)
    as (Hxy & HxA & HxB & HxC & HyA & HyB & HyC & HAB & HBC & HndB).
  set (y2 := linked (RightKey (Some x)) (RightKey (Some y)) (Key x) y).
  set (x2 := linked (LeftKey (Some x)) (Key y) (ParentKey (Some y)) x).
  destruct (rotateRight_run y x _ t t1 Hr eq_refl Hrep Hs) as (Hrun0 & Hrun1).
  assert (forall k, In k (keys a) \/ In k (keys c) -> k <> Key x /\ k <> Key y /\
            GetNode t1 k = GetNode t k) as Hac.
  { intros k Hk.
    assert (k <> Key x) by (intros ->; destruct Hk as [Hk|Hk];
                            apply list_elem_of_In in Hk; contradiction).
    assert (k <> Key y) by (intros ->; destruct Hk as [Hk|Hk];
                            apply list_elem_of_In in Hk; contradiction).
    split; [done |]. split; [done |]. apply Hsame; [| done].
    apply Hin. tauto. }
  destruct b as [|bl bn br].
  - (* nothing changes sides *)
    inversion HSb as [He |]. symmetry in He.
    exists (store (store t1 y2) x2). split; [by apply Hrun0 |].
    split; [| split; [done | split; [done |]]].
    + apply Stored_node.
      * apply (GetNode_store_eq _ x2); simpl; [done | by rewrite Hl].
      * simpl. apply (Stored_frame t); [exact HSa |]. intros k Hk.
        destruct (Hac k (or_introl Hk)) as (? & ? & <-).
        rewrite (GetNode_store_ne _ x2), (GetNode_store_ne _ y2); done.
      * simpl. apply Stored_node.
        -- rewrite (GetNode_store_ne _ x2) by (simpl; congruence).
           apply (GetNode_store_eq _ y2); simpl; [done | by rewrite Hl].
        -- replace (LeftKey (Some y2)) with EmptyKey by (by rewrite <- He).
           constructor.
        -- simpl. apply (Stored_frame t); [exact HSc |]. intros k Hk.
           destruct (Hac k (or_intror Hk)) as (? & ? & <-).
           rewrite (GetNode_store_ne _ x2), (GetNode_store_ne _ y2); done.
    + intros k Hk. rewrite Hin in Hk.
      rewrite (GetNode_store_ne _ x2), (GetNode_store_ne _ y2); simpl; [done | |];
        intros ->; tauto.
  - (* the right subtree of [x] becomes the left subtree of [y] *)
    pose proof (Stored_key _ _ _ _ _ HSb) as Hbk.
    inversion HSb as [| ? ? ? ? HGb HSbl HSbr]; subst.
    destruct (GetNode_loaded _ _ _ HGb) as (_ & Hbe & Hbl).
    rewrite keys_Br in HxB, HyB, HAB, HBC, HndB.
    apply NoDup_app in HndB as (_ & Hblr & HndB). apply NoDup_cons in HndB as (Hbr & _).
    assert (Key bn <> Key x) as Hbx by (intros E; apply HxB; rewrite <- E; set_solver).
    assert (Key bn <> Key y) as Hby by (intros E; apply HyB; rewrite <- E; set_solver).
    assert (fst (GetNode t1 (RightKey (Some x))) = Some bn) as Hb1.
    { rewrite Hsame, HGb; [done | | by rewrite <- Hbk].
      rewrite <- Hbk. apply Hin. right. right. left.
      rewrite keys_Br, in_app_iff. simpl. tauto. }
    set (bn' := linked (LeftKey (Some bn)) (RightKey (Some bn)) (Key y) bn).
    exists (store (store (store t1 bn') y2) x2).
    split; [by apply Hrun1 |].
    assert (forall k, In k (keys bl) \/ In k (keys br) ->
              k <> Key x /\ k <> Key y /\ k <> Key bn /\ GetNode t1 k = GetNode t k) as Hbb.
    { intros k Hk.
      assert (k ∈ keys bl ++ Key bn :: keys br) as Hkin
        by (destruct Hk as [Hk|Hk]; apply list_elem_of_In in Hk; set_solver).
      assert (k <> Key x) by (intros ->; contradiction).
      assert (k <> Key y) by (intros ->; contradiction).
      assert (k <> Key bn).
      { intros ->. destruct Hk as [Hk|Hk]; apply list_elem_of_In in Hk;
          [apply (Hblr _ Hk); left | contradiction]. }
      repeat split; try done. apply Hsame; [| done].
      apply Hin. right. right. left. rewrite keys_Br. by apply list_elem_of_In. }
    assert (forall k, In k (keys a) \/ In k (keys c) -> k <> Key bn) as Hacb.
    { intros k [Hk|Hk] ->; apply list_elem_of_In in Hk.
      - apply (HAB _ Hk). set_solver.
      - apply (HBC (Key bn)); [set_solver | done]. }
    split; [| split; [done | split; [done |]]].
    + apply Stored_node.
      * apply (GetNode_store_eq _ x2); simpl; [done | by rewrite Hl].
      * simpl. apply (Stored_frame t); [exact HSa |]. intros k Hk.
        destruct (Hac k (or_introl Hk)) as (? & ? & <-).
        pose proof (Hacb k (or_introl Hk)).
        rewrite (GetNode_store_ne _ x2), (GetNode_store_ne _ y2),
          (GetNode_store_ne _ bn'); done.
      * simpl. apply Stored_node.
        -- rewrite (GetNode_store_ne _ x2) by (simpl; congruence).
           apply (GetNode_store_eq _ y2); simpl; [done | by rewrite Hl].
        -- replace (LeftKey (Some y2)) with (Key bn) by (by rewrite Hbk).
           apply (Stored_reparent t).
           ++ by rewrite Hbk.
           ++ rewrite (GetNode_store_ne _ x2), (GetNode_store_ne _ y2) by done.
              apply (GetNode_store_eq _ bn'); simpl; [by rewrite Hbk | rewrite Hl].
              by rewrite Hbk.
           ++ intros k Hk. destruct (Hbb k Hk) as (? & ? & ? & <-).
              rewrite (GetNode_store_ne _ x2), (GetNode_store_ne _ y2),
                (GetNode_store_ne _ bn'); done.
        -- simpl. apply (Stored_frame t); [exact HSc |]. intros k Hk.
           destruct (Hac k (or_intror Hk)) as (? & ? & <-).
           pose proof (Hacb k (or_intror Hk)).
           rewrite (GetNode_store_ne _ x2), (GetNode_store_ne _ y2),
             (GetNode_store_ne _ bn'); done.
    + intros k Hk. rewrite Hin in Hk. rewrite keys_Br, in_app_iff in Hk. simpl in Hk.
      rewrite (GetNode_store_ne _ x2), (GetNode_store_ne _ y2),
        (GetNode_store_ne _ bn'); simpl; [done | | |]; intros ->; tauto.
Qed.

Lemma keys_rotatedRight a x b y c :
  keys (rotatedRight a x b y c) = keys (Br (Br a x b) y c).
Proof.
  unfold rotatedRight. rewrite !keys_Br, keys_reparent. simpl.
  by rewrite <- app_assoc.
Qed.

(** X8: a right rotation at [y], whose left child is [x], stores the rotated
    subtree under [x]: the keys in order, the count and every record outside
    the subtree and the parent of [y] are as before; the root reference, or
    else the link of the parent, now names [x]. *)
Theorem rotateRight_keeps_inorder tree a x b y c :
  Stored tree (Key y) (Br (Br a x b) y c) ->
  NoDup (keys (Br (Br a x b) y c)) ->
  storeFails (db tree) = [] ->
  (ParentKey (Some y) = EmptyKey \/
   exists p, GetNode tree (ParentKey (Some y)) = (Some p, None) /\
             ~ In (Key p) (keys (Br (Br a x b) y c))) ->
  exists tree',
    rotateRight (Some y) tree = Ret (tt, tree') /\
    Stored tree' (Key x) (rotatedRight a x b y c) /\
    keys (rotatedRight a x b y c) = keys (Br (Br a x b) y c) /\
    size tree' = size tree /\
    rootKey tree' = (if bool_decide (ParentKey (Some y) = EmptyKey)
                     then Key x else rootKey tree) /\
    (forall p, GetNode tree (ParentKey (Some y)) = (Some p, None) ->
       GetNode tree' (ParentKey (Some y))
       = (Some (relinked tree (Key y) (Key x) p), None)) /\
    (forall k, ~ In k (keys (Br (Br a x b) y c)) -> k <> ParentKey (Some y) ->
       GetNode tree' k = GetNode tree k).
Proof.
  intros HS Hnd Hs Hpar.
  assert (In (Key x) (keys (Br (Br a x b) y c))) as Hxin.
  { rewrite !keys_Br, !in_app_iff. simpl. tauto. }
  destruct Hpar as [Hp | (p & Hp & Hpout)].
  - assert (replaceNode (Some y) (Some x) tree
            = Ret (Some (linked (LeftKey (Some x)) (RightKey (Some x)) (ParentKey (Some y)) x),
                   store (mkTree (db tree) (Key x) (size tree) (Comparator tree))
                     (linked (LeftKey (Some x)) (RightKey (Some x)) (ParentKey (Some y)) x)))
      as Hrep by (rewrite Hp; by apply replaceNode_root).
    destruct (rotateRight_Stored x y a b c tree _ HS Hnd Hrep)
      as (tree' & Hrun & HS' & Hroot & Hsize & Hout); [done | done | |].
    { intros k _ Hk. by rewrite GetNode_store_ne. }
    exists tree'. split; [exact Hrun |]. split; [exact HS' |].
    split; [apply keys_rotatedRight |]. split; [exact Hsize |].
    split; [by rewrite (bool_decide_eq_true_2 _ Hp) |]. split.
    + intros p Hg. apply GetNode_loaded in Hg as (_ & Hne & _). by rewrite Hp in Hne.
    + intros k Hk _. rewrite (Hout k Hk), GetNode_store_ne; [done |].
      simpl. by intros ->.
  - destruct (GetNode_loaded _ _ _ Hp) as (Hpk & Hpe & Hpl).
    pose proof (replaceNode_child y x p tree Hp Hs) as Hrep.
    destruct (rotateRight_Stored x y a b c tree _ HS Hnd Hrep)
      as (tree' & Hrun & HS' & Hroot & Hsize & Hout); [done | done | |].
    { intros k Hk Hky. rewrite GetNode_store_ne by done.
      rewrite GetNode_store_ne; [done |]. rewrite Key_relinked. by intros ->. }
    exists tree'. split; [exact Hrun |]. split; [exact HS' |].
    split; [apply keys_rotatedRight |]. split; [exact Hsize |].
    split; [by rewrite (bool_decide_eq_false_2 _ Hpe) |]. split.
    + intros p' Hg. rewrite Hp in Hg. injection Hg as <-.
      rewrite Hout by (by rewrite <- Hpk).
      rewrite GetNode_store_ne
        by (rewrite <- Hpk; change (Key p <> Key x); by intros E; rewrite E in Hpout).
      rewrite <- Hpk at 1. rewrite <- (Key_relinked tree (Key y) (Key x) p).
      apply GetNode_store_eq; rewrite Key_relinked, Hpk; done.
    + intros k Hk Hkp. rewrite (Hout k Hk), GetNode_store_ne, GetNode_store_ne; [done | |].
      * rewrite Key_relinked. by rewrite Hpk.
      * simpl. by intros ->.
Qed.
Ltac stored_tac :=
  repeat first
    [ apply Stored_leaf
    | apply Stored_node; [vm_compute; reflexivity | |] ].

Lemma rotateLeft_keeps_inorder_witness :
  Stored fourTree (bkey 50) (fourShape Leaf) /\
  NoDup (keys (fourShape Leaf)) /\
  storeFails (db fourTree) = [] /\
  ParentKey (Some (plainNode (bkey 50) (bkey 30) (bkey 70) [] black)) = EmptyKey /\
  exists tree',
    rotateLeft (Some (plainNode (bkey 50) (bkey 30) (bkey 70) [] black)) fourTree
    = Ret (tt, tree') /\
    rootKey tree' = bkey 70 /\
    size tree' = size fourTree /\
    inorderKeys 10 tree' = map bkey [30; 50; 60; 70]%N.
Proof.
  assert (Stored fourTree (bkey 50) (fourShape Leaf)) as HS by (unfold fourShape; stored_tac).
  assert (NoDup (keys (fourShape Leaf))) as Hnd
    by (apply (bool_decide_unpack _); vm_compute; exact I).
  assert (storeFails (db fourTree) = []) as Hs by (vm_compute; reflexivity).
  split; [exact HS |]. split; [exact Hnd |]. split; [exact Hs |].
  split; [reflexivity |].
  unfold fourShape in HS, Hnd.
  destruct (rotateLeft_keeps_inorder fourTree _
              (plainNode (bkey 50) (bkey 30) (bkey 70) [] black) _ _ _
              HS Hnd Hs (or_introl eq_refl))
    as (tree' & Hrun & _ & _ & Hsize & Hroot & _).
  exists tree'. split; [exact Hrun |]. split; [exact Hroot |]. split; [exact Hsize |].
  vm_compute in Hrun. injection Hrun as <-. vm_compute. reflexivity.
Defined.

Lemma rotateRight_keeps_inorder_witness :
  Stored sevenTree (bkey 70) sevenRight /\
  NoDup (keys sevenRight) /\
  storeFails (db sevenTree) = [] /\
  (exists p, GetNode sevenTree (bkey 50) = (Some p, None) /\
             ~ In (Key p) (keys sevenRight)) /\
  exists tree',
    rotateRight (Some (plainNode (bkey 70) (bkey 60) (bkey 80) (bkey 50) black)) sevenTree
    = Ret (tt, tree') /\
    rootKey tree' = rootKey sevenTree /\
    size tree' = size sevenTree /\
    RightKey (fst (GetNode tree' (bkey 50))) = bkey 60 /\
    inorderKeys 10 tree' = map bkey [20; 30; 40; 50; 60; 70; 80]%N.
Proof.
  assert (Stored sevenTree (bkey 70) sevenRight) as HS by (unfold sevenRight; stored_tac).
  assert (NoDup (keys sevenRight)) as Hnd
    by (apply (bool_decide_unpack _); vm_compute; exact I).
  assert (storeFails (db sevenTree) = []) as Hs by (vm_compute; reflexivity).
  assert (exists p, GetNode sevenTree (bkey 50) = (Some p, None) /\
                    ~ In (Key p) (keys sevenRight)) as Hp.
  { eexists. split; [vm_compute; reflexivity |].
    rewrite <- list_elem_of_In. apply (bool_decide_unpack _). vm_compute. exact I. }
  split; [exact HS |]. split; [exact Hnd |]. split; [exact Hs |].
  split; [exact Hp |].
  unfold sevenRight in HS, Hnd, Hp.
  destruct (rotateRight_keeps_inorder sevenTree _ _ _
              (plainNode (bkey 70) (bkey 60) (bkey 80) (bkey 50) black) _
              HS Hnd Hs (or_intror Hp))
    as (tree' & Hrun & _ & _ & Hsize & Hroot & _).
  exists tree'. split; [exact Hrun |]. split; [exact Hroot |]. split; [exact Hsize |].
  vm_compute in Hrun. injection Hrun as <-. split; vm_compute; reflexivity.
Defined.

(** ** Removal at the root, [Clear], and insertion below a black node *)

Lemma Save_stored t n :
  records (db t) !! Key n = Some (NItem n) -> exists e, Save (Some n) t = Ret (e, t).
Proof.
  intros Hr. unfold Save, bind, deref, ret, db_Put.
  destruct (bool_decide _).
  - eexists. by destruct t.
  - eexists. rewrite insert_id by done. by destruct t as [[] ? ? ?].
Qed.

(** X9: removing the last key, a black root without children in a tree
    whose count is at most one, deletes its record, clears the root
    reference and takes one off the count; no other record changes. *)
Theorem Remove_last_key tree key n fuel :
  GetNode tree key = (Some n, None) ->
  LeftKey (Some n) = EmptyKey -> RightKey (Some n) = EmptyKey ->
  ParentKey (Some n) = EmptyKey ->
  Color (NItem n) = black ->
  size tree <= 1 ->
  exists tree',
    Remove (S fuel) key tree = Ret (tt, tree') /\
    rootKey tree' = EmptyKey /\ size tree' = wrap64 (size tree - 1) /\
    Has tree' key = (false, None) /\ Get tree' key = ([], false) /\
    forall k, k <> key -> records (db tree') !! k = records (db tree) !! k.
Proof.
  intros HG HL HR HP HC Hsz.
  destruct (GetNode_loaded _ _ _ HG) as (Hk & Hke & Hkl).
  unfold Remove. rewrite bind_gets, HG. cbv zeta.
  rewrite bind_gets. unfold IsEmptyKey at 1, db_IsEmptyKey. rewrite HL.
  rewrite bool_decide_eq_true_2 by done. cbn [negb]. rewrite bind_ret.
  rewrite bind_gets. unfold IsEmptyKey at 1, db_IsEmptyKey. rewrite HR.
  rewrite bool_decide_eq_true_2 by done. cbn [negb]. rewrite bind_ret.
  cbn [isNil negb andb]. rewrite bind_ret.
  cbn [isNil orb]. rewrite bind_bind. simpl deref. rewrite bind_ret.
  rewrite HC. unfold black. cbv iota. cbn [nodeColor]. unfold black.
  assert (withColor true n = n) as -> by (destruct n as [? [? ? ?]]; simpl in *; by subst).
  destruct (Save_stored tree n) as [e HS].
  { assert (fst (GetNode tree key) = Some n) as HG' by (by rewrite HG).
    apply GetNode_Some in HG'. rewrite Hk. tauto. }
  rewrite !bind_bind. unfold bind at 1. rewrite HS.
  cbn [deleteCase1]. rewrite bind_bind, bind_gets.
  unfold IsEmptyKey at 1, db_IsEmptyKey. rewrite HP.
  rewrite bool_decide_eq_true_2 by done.
  unfold deleteNode, replaceNode, decSize, setRootKey, deref.
  unfold bind, gets, ret, modify, IsEmptyKey, db_IsEmptyKey.
  cbv beta iota. rewrite (proj2 (Z.ltb_ge 1 (size tree)) Hsz).
  cbn [andb]. cbv beta iota. rewrite HP.
  rewrite !bool_decide_eq_true_2 by done. cbv beta iota. cbn [andb negb isNil].
  cbv beta iota.
  eexists. split; [reflexivity |]. cbn [rootKey size db].
  split; [done |]. split; [done |].
  assert (records (db_Delete (db tree) (Key n) false) !! key = None) as Hnone
    by (rewrite Hk; apply lookup_delete_eq).
  split; [| split].
  - unfold Has, db_Has, db_IsEmptyKey. cbn [db].
    rewrite (bool_decide_eq_false_2 _ Hke).
    change (loadFails (db_Delete (db tree) (Key n) false)) with (loadFails (db tree)).
    rewrite (bool_decide_eq_false_2 _ Hkl), Hnone.
    by rewrite bool_decide_eq_false_2 by (by intros [? ?]).
  - unfold Get, GetNode, db_Get, db_IsEmptyKey. cbn [db].
    rewrite (bool_decide_eq_false_2 _ Hke).
    change (loadFails (db_Delete (db tree) (Key n) false)) with (loadFails (db tree)).
    by rewrite (bool_decide_eq_false_2 _ Hkl), Hnone.
  - intros k Hne. unfold db_Delete. cbn [records]. rewrite Hk.
    by rewrite lookup_delete_ne.
Qed.

(** X10: removing a black root that has exactly one child, in a tree whose
    count exceeds one, makes the child the black root and takes one off
    the count, but the record of the removed key stays in storage with the
    colour of the child, so [Has] and [GetNode] still find it. *)
Theorem Remove_root_one_child tree key n c fuel :
  GetNode tree key = (Some n, None) ->
  ParentKey (Some n) = EmptyKey ->
  Color (NItem n) = black ->
  (RightKey (Some n) = EmptyKey /\ GetNode tree (LeftKey (Some n)) = (Some c, None)) \/
  (LeftKey (Some n) = EmptyKey /\ GetNode tree (RightKey (Some n)) = (Some c, None)) ->
  Key c <> key ->
  1 < size tree ->
  Comparator tree key (rootKey tree) = 0 ->
  storeFails (db tree) = [] ->
  exists tree',
    Remove (S fuel) key tree = Ret (tt, tree') /\
    rootKey tree' = Key c /\
    size tree' = wrap64 (size tree - 1) /\
    GetNode tree' (Key c)
    = (Some (withColor black (linked (LeftKey (Some c)) (RightKey (Some c)) EmptyKey c)), None) /\
    GetNode tree' key = (Some (withColor (Color (NItem c)) n), None) /\
    Has tree' key = (true, None) /\
    forall k, k <> key -> k <> Key c -> GetNode tree' k = GetNode tree k.
Proof.
  intros HG HP HC Hchild Hne Hsz Hroot Hs.
  destruct (GetNode_loaded _ _ _ HG) as (Hk & Hke & Hkl).
  unfold Remove. rewrite bind_gets, HG. cbv zeta.
  assert (exists ck, GetNode tree ck = (Some c, None) /\
            ((RightKey (Some n) = EmptyKey /\ LeftKey (Some n) = ck) \/
             (LeftKey (Some n) = EmptyKey /\ RightKey (Some n) = ck)))
    as (ck & HGc & Hside) by (destruct Hchild as [[? ?]|[? ?]]; eauto 6).
  destruct (GetNode_loaded _ _ _ HGc) as (Hck & Hce & Hcl).
  assert (fst (GetNode tree ck) = Some c) as Hfc by (by rewrite HGc).
  assert (bool_decide (ck = EmptyKey) = false) as Hcb by (by apply bool_decide_eq_false_2).
  assert (bool_decide (EmptyKey = EmptyKey) = true) as Heb by (by apply bool_decide_eq_true_2).
  rewrite bind_gets. unfold IsEmptyKey at 1, db_IsEmptyKey.
  assert (forall (A : Type) (b : bool) (f : Tree -> A) (a : A) (k : A -> M unit) t,
            bind (if b then gets f else ret a) k t = k (if b then f t else a) t)
    as Hif by (by intros ? []).
  rewrite Hif. rewrite bind_gets. unfold IsEmptyKey at 1, db_IsEmptyKey. rewrite Hif.
  unfold Node_Left, Node_Right.
  destruct Hside as [[-> ->] | [-> ->]]; rewrite Hcb, Heb, Hfc;
    cbn [negb isNil andb orb]; rewrite bind_ret; cbv iota.
  all: rewrite bind_bind; cbn [deref]; rewrite bind_ret, HC; unfold black; cbv iota.
  all: cbn [nodeColor]; set (n1 := withColor (Color (NItem c)) n).
  all: assert (ParentKey (Some n1) = EmptyKey) as HP1 by exact HP.
  all: rewrite !bind_bind, bind_Save by done.
  all: cbn [deleteCase1]; rewrite bind_bind, bind_gets.
  all: unfold IsEmptyKey at 1, db_IsEmptyKey; rewrite HP1, Heb.
  all: unfold deleteNode; rewrite !bind_bind; cbn [deref]; rewrite bind_ret, bind_bind, bind_gets.
  all: change (size (store tree n1)) with (size tree);
       change (Comparator (store tree n1) (Key n1) (rootKey (store tree n1)))
         with (Comparator tree (Key n) (rootKey tree)).
  all: rewrite (proj2 (Z.ltb_lt 1 (size tree)) Hsz), Hk, Hroot; cbn [andb Z.eqb].
  all: rewrite bind_ret, !bind_bind.
  all: unfold bind at 1; rewrite (replaceNode_root n1 c (store tree n1) HP1 Hs);
       cbv beta iota.
  all: rewrite bind_bind, bind_gets; unfold IsEmptyKey at 1, db_IsEmptyKey; rewrite Heb.
  all: cbn [isNil negb andb]; unfold setColor.
  all: rewrite !bind_bind; cbn [deref]; repeat (rewrite bind_ret; cbv beta).
  all: rewrite !bind_bind, bind_Save by done.
  all: rewrite bind_ret; unfold decSize, modify.
  all: pose (c1 := linked (LeftKey (Some c)) (RightKey (Some c)) EmptyKey c).
  all: pose (T3 := store (store (store tree n1) c1) (withColor true c1)).
  all: exists (mkTree (db T3) (Key c) (wrap64 (size tree - 1)) (Comparator tree)).
  all: split; [reflexivity |].
  all: assert (forall k r s cmp, GetNode (mkTree (db T3) r s cmp) k = GetNode T3 k)
         as HGN by reflexivity.
  all: split; [reflexivity |]; split; [reflexivity |].
  all: assert (GetNode T3 key = (Some n1, None)) as Hkey
         by (unfold T3; rewrite !GetNode_store_ne by (simpl; congruence);
             rewrite <- Hk; apply (GetNode_store_eq tree n1); simpl; by rewrite Hk).
  all: split; [| split; [| split]].
  all: try (rewrite HGN; exact Hkey).
  all: try (rewrite HGN; apply (GetNode_store_eq _ (withColor true c1)); simpl;
            by rewrite Hck).
  all: try (intros k Hk1 Hk2; rewrite HGN; unfold T3;
            rewrite !GetNode_store_ne; simpl; congruence).
  all: assert (fst (GetNode T3 key) = Some n1) as Hkey' by (by rewrite Hkey).
  all: apply GetNode_Some in Hkey' as (_ & _ & Hrec & _ & Hl3).
  all: unfold Has, db_Has, db_IsEmptyKey; cbn [db].
  all: rewrite (bool_decide_eq_false_2 _ Hke), (bool_decide_eq_false_2 _ Hl3), Hrec.
  all: by rewrite bool_decide_eq_true_2 by (by eexists).
Qed.

Lemma Remove_last_key_witness :
  GetNode oneTree (bkey 50) = (Some (plainNode (bkey 50) [] [] [] black), None) /\
  size oneTree <= 1 /\
  exists tree',
    Remove 1 (bkey 50) oneTree = Ret (tt, tree') /\
    rootKey tree' = EmptyKey /\ size tree' = 0 /\
    Has tree' (bkey 50) = (false, None) /\ Get tree' (bkey 50) = ([], false).
Proof.
  assert (GetNode oneTree (bkey 50) = (Some (plainNode (bkey 50) [] [] [] black), None))
    as HG by (vm_compute; reflexivity).
  assert (size oneTree <= 1) as Hsz by (vm_compute; discriminate).
  split; [exact HG |]. split; [exact Hsz |].
  destruct (Remove_last_key oneTree (bkey 50) _ 0 HG eq_refl eq_refl eq_refl eq_refl Hsz)
    as (tree' & Hrun & Hroot & Hsize & Hhas & Hget & _).
  exists tree'. split; [exact Hrun |]. split; [exact Hroot |].
  split; [rewrite Hsize; vm_compute; reflexivity |]. split; [exact Hhas | exact Hget].
Defined.

Lemma Remove_root_one_child_witness :
  GetNode twoTree (bkey 20) = (Some (plainNode (bkey 20) [] (bkey 30) [] black), None) /\
  GetNode twoTree (bkey 30) = (Some (plainNode (bkey 30) [] [] (bkey 20) red), None) /\
  1 < size twoTree /\
  Comparator twoTree (bkey 20) (rootKey twoTree) = 0 /\
  storeFails (db twoTree) = [] /\
  exists tree',
    Remove 1 (bkey 20) twoTree = Ret (tt, tree') /\
    rootKey tree' = bkey 30 /\
    size tree' = 1 /\
    GetNode tree' (bkey 30) = (Some (plainNode (bkey 30) [] [] [] black), None) /\
    Has tree' (bkey 20) = (true, None).
Proof.
  assert (GetNode twoTree (bkey 20)
          = (Some (plainNode (bkey 20) [] (bkey 30) [] black), None))
    as HG by (vm_compute; reflexivity).
  assert (GetNode twoTree (bkey 30)
          = (Some (plainNode (bkey 30) [] [] (bkey 20) red), None))
    as HGc by (vm_compute; reflexivity).
  assert (1 < size twoTree) as Hsz by (vm_compute; reflexivity).
  assert (Comparator twoTree (bkey 20) (rootKey twoTree) = 0) as Hroot
    by (vm_compute; reflexivity).
  assert (storeFails (db twoTree) = []) as Hs by (vm_compute; reflexivity).
  split; [exact HG |]. split; [exact HGc |]. split; [exact Hsz |].
  split; [exact Hroot |]. split; [exact Hs |].
  destruct (Remove_root_one_child twoTree (bkey 20) _ _ 0 HG eq_refl eq_refl
              (or_intror (conj eq_refl HGc))) as (tree' & Hrun & Hr & Hsize & Hc & _ & Hhas & _);
    [vm_compute; discriminate | exact Hsz | exact Hroot | exact Hs |].
  exists tree'. split; [exact Hrun |]. split; [exact Hr |].
  split; [rewrite Hsize; vm_compute; reflexivity |]. split; [exact Hc | exact Hhas].
Defined.

(** X11: [Clear] resets the root reference and the count and touches no
    record: the tree is empty to every ordered lookup and to the walk in
    order, while [Get] and [Has] answer as before. *)
Theorem Clear_keeps_records (tree : Tree) (key : Bytes) (fuel : nat) :
  Empty (Clear tree) = true /\
  Size (Clear tree) = 0 /\
  Root (Clear tree) = None /\
  Tree_Left fuel (Clear tree) = Ret None /\
  Tree_Right fuel (Clear tree) = Ret None /\
  Floor fuel (Clear tree) key = Ret (None, false) /\
  Ceiling fuel (Clear tree) key = Ret (None, false) /\
  inorderKeys fuel (Clear tree) = [] /\
  Get (Clear tree) key = Get tree key /\
  Has (Clear tree) key = Has tree key /\
  GetNode (Clear tree) key = GetNode tree key.
Proof.
  assert (Root (Clear tree) = None) as Hr.
  { unfold Root, GetNode, db_Get, db_IsEmptyKey, Clear. cbn [rootKey db].
    by rewrite bool_decide_eq_true_2. }
  repeat split; try done.
  - unfold Tree_Left. rewrite Hr. by destruct fuel.
  - unfold Tree_Right. rewrite Hr. by destruct fuel.
  - unfold Floor. rewrite Hr. by destruct fuel.
  - unfold Ceiling. rewrite Hr. by destruct fuel.
  - unfold inorderKeys. destruct fuel; [done |]. cbn [inorder].
    fold (Root (Clear tree)). by rewrite Hr.
Qed.

Lemma attachPoint_loaded fuel tree key : forall node m side,
  attachPoint fuel tree key node = Ret (Some (m, side)) ->
  (node = Some m \/ exists k, fst (GetNode tree k) = Some m) /\
  Comparator tree key (Key m) <> 0.
Proof.
  induction fuel as [|fuel IH]; intros [n|] m side; simpl; try discriminate.
  destruct (Z.eqb_spec (Comparator tree key (Key n)) 0) as [E|NE]; [discriminate |].
  destruct (Comparator tree key (Key n) <? 0).
  - destruct (IsEmptyKey tree _).
    + intros [= <- <-]. auto.
    + intros H. destruct (Node_Left tree (Some n)) as [x|] eqn:Hx.
      * apply IH in H as ([[= <-] | H] & Hc); [| by auto]. split; [right | done].
        eexists. exact Hx.
      * destruct fuel; discriminate.
  - destruct (IsEmptyKey tree _).
    + intros [= <- <-]. auto.
    + intros H. destruct (Node_Right tree (Some n)) as [x|] eqn:Hx.
      * apply IH in H as ([[= <-] | H] & Hc); [| by auto]. split; [right | done].
        eexists. exact Hx.
      * destruct fuel; discriminate.
Qed.

Lemma Put_loop_attach fuel tree key value : forall node m side,
  attachPoint fuel tree key node = Ret (Some (m, side)) ->
  storeFails (db tree) = [] ->
  Put_loop fuel key value node tree
  = Ret (Attached (Some (attached key m side)) (newNode key value),
         store tree (attached key m side)).
Proof.
  induction fuel as [|fuel IH]; intros [n|] m side; simpl; try discriminate.
  intros H Hs. rewrite bind_ret, bind_gets.
  destruct (Z.eqb_spec (Comparator tree key (Key n)) 0) as [E|NE]; [discriminate |].
  destruct (Comparator tree key (Key n) <? 0); rewrite bind_gets.
  - change (IsEmptyKey tree (LeftKey (Some n))) with (IsEmptyKey tree (Left (Keys (NItem n)))).
    destruct (IsEmptyKey tree _).
    + injection H as <- <-. by rewrite bind_Save.
    + rewrite bind_gets. by apply IH.
  - change (IsEmptyKey tree (RightKey (Some n))) with (IsEmptyKey tree (Right (Keys (NItem n)))).
    destruct (IsEmptyKey tree _).
    + injection H as <- <-. by rewrite bind_Save.
    + rewrite bind_gets. by apply IH.
Qed.

(** X12: a new key that the descent of [Put] hangs below a black node is
    stored as a red leaf with that node as its parent; the node gets the
    key as its left or right link, the count goes up by one, and the root
    reference and every other record stay as they are. *)
Theorem Put_below_black_parent fuel tree key value m side :
  attachPoint fuel tree key (Root tree) = Ret (Some (m, side)) ->
  Color (NItem m) = black ->
  Comparator tree key key = 0 ->
  storeFails (db tree) = [] ->
  exists tree',
    Put fuel key value tree = Ret (None, tree') /\
    rootKey tree' = rootKey tree /\
    size tree' = wrap64 (size tree + 1) /\
    records (db tree') !! key
    = Some (mkItem (mkKeyMeta [] [] (Key m)) value red) /\
    records (db tree') !! Key m = Some (NItem (attached key m side)) /\
    (forall k, k <> key -> k <> Key m ->
       records (db tree') !! k = records (db tree) !! k).
Proof.
  intros Hat Hblack Hrefl Hs.
  destruct (attachPoint_loaded _ _ _ _ _ _ Hat) as (Hload & Hcmp).
  assert (Key m <> key) as Hmk by (intros E; apply Hcmp; by rewrite E).
  assert (exists k, fst (GetNode tree k) = Some m) as (k & Hk).
  { destruct Hload as [Hr | Hx]; [| exact Hx]. exists (rootKey tree). exact Hr. }
  apply GetNode_Some in Hk as (_ & <- & _ & Hme & Hml).
  assert (IsEmptyKey tree (rootKey tree) = false) as Hroot.
  { destruct (Root tree) as [r|] eqn:Hr; [| by destruct fuel].
    apply GetNode_Some in Hr as (_ & _ & _ & Hr & _). by apply bool_decide_eq_false_2. }
  set (m' := attached key m side).
  set (ins := mkNode key (mkItem (mkKeyMeta [] [] (Key m)) value red)).
  assert (Key m' = Key m) as Hkm' by (unfold m', attached; by destruct side).
  assert (Color (NItem m') = black) as Hcm' by (unfold m', attached; by destruct side).
  unfold Put. rewrite bind_gets, Hroot, bind_gets.
  unfold bind at 1. rewrite (Put_loop_attach _ _ _ value _ _ _ Hat Hs).
  fold m'. cbn [deref]. rewrite bind_ret.
  change (setParentKey (newNode key value) (Key m')) with (Some (mkNode key
    (mkItem (mkKeyMeta [] [] (Key m')) value red))).
  rewrite Hkm'. fold ins. rewrite bind_Save by done.
  destruct fuel as [|fuel]; [discriminate |].
  unfold Put_fixup. cbn [insertCase1].
  rewrite !bind_bind, bind_gets.
  unfold IsEmptyKey at 1, db_IsEmptyKey.
  change (ParentKey (Some ins)) with (Key m).
  rewrite (bool_decide_eq_false_2 _ Hme).
  unfold insertCase2. rewrite !bind_bind, bind_gets.
  assert (Node_Parent (store (store tree m') ins) (Some ins) = Some m') as Hp.
  { unfold Node_Parent. change (ParentKey (Some ins)) with (Key m).
    rewrite GetNode_store_ne by done. rewrite <- Hkm'.
    rewrite GetNode_store_eq; [done | by rewrite Hkm' | by rewrite Hkm']. }
  rewrite Hp. cbn [nodeColor]. rewrite Hcm'. unfold black.
  rewrite !bind_ret. rewrite bind_Save by done.
  unfold incSize, modify, bind, ret.
  eexists. split; [reflexivity |]. cbn [rootKey size db store records].
  split; [done |]. split; [done |]. split; [| split].
  - by rewrite lookup_insert_eq.
  - rewrite !lookup_insert_ne by done. rewrite <- Hkm'. by rewrite lookup_insert_eq.
  - intros k' Hk1 Hk2. rewrite !lookup_insert_ne; try done. by rewrite Hkm'.
Qed.

Lemma Put_below_black_parent_witness :
  attachPoint 10 fourTree (bkey 80) (Root fourTree)
  = Ret (Some (plainNode (bkey 70) (bkey 60) [] (bkey 50) black, false)) /\
  Comparator fourTree (bkey 80) (bkey 80) = 0 /\
  storeFails (db fourTree) = [] /\
  exists tree',
    Put 10 (bkey 80) (bkey 1) fourTree = Ret (None, tree') /\
    size tree' = 5 /\
    records (db tree') !! bkey 80
    = Some (mkItem (mkKeyMeta [] [] (bkey 70)) (bkey 1) red) /\
    records (db tree') !! bkey 70
    = Some (mkItem (mkKeyMeta (bkey 60) (bkey 80) (bkey 50)) [] black).
Proof.
  assert (attachPoint 10 fourTree (bkey 80) (Root fourTree)
          = Ret (Some (plainNode (bkey 70) (bkey 60) [] (bkey 50) black, false)))
    as Hat by (vm_compute; reflexivity).
  assert (Comparator fourTree (bkey 80) (bkey 80) = 0) as Hc by (vm_compute; reflexivity).
  assert (storeFails (db fourTree) = []) as Hs by (vm_compute; reflexivity).
  split; [exact Hat |]. split; [exact Hc |]. split; [exact Hs |].
  destruct (Put_below_black_parent 10 fourTree (bkey 80) (bkey 1) _ _ Hat eq_refl Hc Hs)
    as (tree' & Hrun & _ & Hsize & Hkey & Hm & _).
  exists tree'. split; [exact Hrun |].
  split; [rewrite Hsize; vm_compute; reflexivity |]. split; [exact Hkey | exact Hm].
Defined.

(** ** Insertion below a red node with a red sibling *)

Ltac run_tree :=
  repeat first
    [ rewrite bind_bind | rewrite bind_ret | rewrite bind_gets
    | rewrite bind_Save by done | progress cbn [deref] | progress cbv beta ].

(** X13: a new key hung below a red node whose sibling is red as well, the
    parent of both being the root: the key is stored as a red leaf, its
    parent and its uncle turn black, the root is stored black, the count
    goes up by one and no other record changes. *)
Theorem Put_below_red_parent_red_uncle fuel tree key value m side g u :
  attachPoint (S (S fuel)) tree key (Root tree) = Ret (Some (m, side)) ->
  Color (NItem m) = red ->
  GetNode tree (ParentKey (Some m)) = (Some g, None) ->
  ParentKey (Some g) = EmptyKey ->
  GetNode tree (if Comparator tree (Key m) (LeftKey (Some g)) =? 0
                then RightKey (Some g) else LeftKey (Some g)) = (Some u, None) ->
  Color (NItem u) = red ->
  NoDup [key; Key m; Key g; Key u] ->
  storeFails (db tree) = [] ->
  exists tree',
    Put (S (S fuel)) key value tree = Ret (None, tree') /\
    rootKey tree' = rootKey tree /\
    size tree' = wrap64 (size tree + 1) /\
    records (db tree') !! key
    = Some (mkItem (mkKeyMeta [] [] (Key m)) value red) /\
    records (db tree') !! Key m = Some (NItem (withColor black (attached key m side))) /\
    records (db tree') !! Key u = Some (NItem (withColor black u)) /\
    records (db tree') !! Key g = Some (NItem (withColor black g)) /\
    (forall k, k <> key -> k <> Key m -> k <> Key u -> k <> Key g ->
       records (db tree') !! k = records (db tree) !! k).
Proof.
  intros Hat Hred HGg Hgp HGu Hured Hnd Hs.
  destruct (attachPoint_loaded _ _ _ _ _ _ Hat) as (Hload & Hcmp).
  assert (exists k, fst (GetNode tree k) = Some m) as (k & Hk).
  { destruct Hload as [Hr | Hx]; [| exact Hx]. exists (rootKey tree). exact Hr. }
  apply GetNode_Some in Hk as (_ & <- & _ & Hme & Hml).
  destruct (GetNode_loaded _ _ _ HGg) as (Hgk & Hge & Hgl).
  destruct (GetNode_loaded _ _ _ HGu) as (Huk & Hue & Hul).
  assert (IsEmptyKey tree (rootKey tree) = false) as Hroot.
  { destruct (Root tree) as [r|] eqn:Hr; [| discriminate].
    apply GetNode_Some in Hr as (_ & _ & _ & Hr & _). by apply bool_decide_eq_false_2. }
  apply NoDup_cons in Hnd as (Hk1 & Hnd). apply NoDup_cons in Hnd as (Hk2 & Hnd).
  apply NoDup_cons in Hnd as (Hk3 & _).
  assert (key <> Key m /\ key <> Key g /\ key <> Key u /\
          Key m <> Key g /\ Key m <> Key u /\ Key g <> Key u)
    as (Hkm & Hkg & Hku & Hmg & Hmu & Hgu) by set_solver.
  set (m' := attached key m side).
  set (ins := mkNode key (mkItem (mkKeyMeta [] [] (Key m)) value red)).
  assert (Key m' = Key m) as Hkm' by (unfold m', attached; by destruct side).
  assert (Color (NItem m') = red) as Hcm' by (unfold m', attached; by destruct side).
  assert (ParentKey (Some m') = ParentKey (Some m)) as Hpm'
    by (unfold m', attached; by destruct side).
  unfold Put. rewrite bind_gets, Hroot, bind_gets.
  unfold bind at 1. rewrite (Put_loop_attach _ _ _ value _ _ _ Hat Hs).
  fold m'. cbn [deref]. rewrite bind_ret.
  change (setParentKey (newNode key value) (Key m')) with (Some (mkNode key
    (mkItem (mkKeyMeta [] [] (Key m')) value red))).
  rewrite Hkm'. fold ins. rewrite bind_Save by done.
  set (t2 := store (store tree m') ins).
  assert (forall k, k <> key -> k <> Key m -> GetNode t2 k = GetNode tree k) as Ht2.
  { intros k Ha Hb. unfold t2. rewrite !GetNode_store_ne; [done | by rewrite Hkm' | done]. }
  assert (GetNode t2 (Key m) = (Some m', None)) as Ht2m.
  { unfold t2. rewrite GetNode_store_ne by (simpl; congruence). rewrite <- Hkm'.
    apply GetNode_store_eq; by rewrite Hkm'. }
  assert (Node_Parent t2 (Some ins) = Some m') as Hp
    by (unfold Node_Parent; change (ParentKey (Some ins)) with (Key m); by rewrite Ht2m).
  assert (Node_Parent t2 (Some m') = Some g) as Hpg.
  { unfold Node_Parent. rewrite Hpm', Ht2, HGg; [done | |]; rewrite <- Hgk; congruence. }
  assert (Node_uncle t2 (Some ins) = Some u) as Hunc.
  { unfold Node_uncle, Node_sibling. rewrite Hp, Hpg, Hkm'.
    change (Comparator t2) with (Comparator tree).
    unfold Node_Right, Node_Left.
    destruct (Comparator tree (Key m) (LeftKey (Some g)) =? 0);
      rewrite Ht2, HGu; try done; rewrite <- Huk; congruence. }
  unfold Put_fixup. cbn [insertCase1].
  run_tree.
  unfold IsEmptyKey at 1, db_IsEmptyKey.
  change (ParentKey (Some ins)) with (Key m).
  rewrite (bool_decide_eq_false_2 _ Hme).
  unfold insertCase2 at 1. run_tree. rewrite Hp. cbn [nodeColor].
  rewrite Hcm'. unfold red at 1. cbv iota.
  unfold insertCase3 at 1. run_tree. rewrite Hp, Hunc.
  cbn [nodeColor]. rewrite Hured. unfold red at 1. cbn [negb].
  unfold setColor at 1 2. run_tree.
  set (t4 := store (store t2 (withColor black u)) (withColor black m')).
  assert (Node_Parent t4 (Some (withColor black m')) = Some g) as Hgp4.
  { unfold Node_Parent. change (ParentKey (Some (withColor black m')))
      with (ParentKey (Some m')). rewrite Hpm'. unfold t4.
    rewrite !GetNode_store_ne, Ht2, HGg; try done; rewrite <- Hgk; simpl; congruence. }
  rewrite Hgp4. cbn [assertNotNull]. unfold setColor at 1. run_tree.
  unfold IsEmptyKey at 1, db_IsEmptyKey.
  change (ParentKey (Some (withColor red g))) with (ParentKey (Some g)).
  rewrite Hgp, bool_decide_eq_true_2 by done.
  unfold setColor at 1. run_tree.
  unfold incSize, modify, bind, ret.
  eexists. split; [reflexivity |]. cbn [rootKey size db store records t4 t2].
  change (Key ins) with key.
  change (Key (withColor black (withColor red g))) with (Key g).
  change (Key (withColor black m')) with (Key m').
  change (Key (withColor black u)) with (Key u).
  rewrite Hkm'.
  split; [done |]. split; [done |].
  repeat split; try intros k' Hn1 Hn2 Hn3 Hn4;
    repeat (rewrite lookup_insert_ne by congruence);
    try rewrite lookup_insert_eq; done.
Qed.

Lemma Put_below_red_parent_red_uncle_witness :
  attachPoint 10 threeTree (bkey 20) (Root threeTree)
  = Ret (Some (plainNode (bkey 30) [] [] (bkey 50) red, true)) /\
  GetNode threeTree (bkey 50)
  = (Some (plainNode (bkey 50) (bkey 30) (bkey 70) [] black), None) /\
  GetNode threeTree (bkey 70) = (Some (plainNode (bkey 70) [] [] (bkey 50) red), None) /\
  NoDup (map bkey [20; 30; 50; 70]%N) /\
  storeFails (db threeTree) = [] /\
  exists tree',
    Put 10 (bkey 20) [] threeTree = Ret (None, tree') /\
    size tree' = 4 /\
    records (db tree') !! bkey 20 = Some (mkItem (mkKeyMeta [] [] (bkey 30)) [] red) /\
    records (db tree') !! bkey 30
    = Some (mkItem (mkKeyMeta (bkey 20) [] (bkey 50)) [] black) /\
    records (db tree') !! bkey 70 = Some (mkItem (mkKeyMeta [] [] (bkey 50)) [] black) /\
    records (db tree') !! bkey 50
    = Some (mkItem (mkKeyMeta (bkey 30) (bkey 70) []) [] black).
Proof.
  assert (attachPoint 10 threeTree (bkey 20) (Root threeTree)
          = Ret (Some (plainNode (bkey 30) [] [] (bkey 50) red, true)))
    as Hat by (vm_compute; reflexivity).
  assert (GetNode threeTree (bkey 50)
          = (Some (plainNode (bkey 50) (bkey 30) (bkey 70) [] black), None))
    as HGg by (vm_compute; reflexivity).
  assert (GetNode threeTree (bkey 70)
          = (Some (plainNode (bkey 70) [] [] (bkey 50) red), None))
    as HGu by (vm_compute; reflexivity).
  assert (NoDup (map bkey [20; 30; 50; 70]%N)) as Hnd
    by (apply (bool_decide_unpack _); vm_compute; exact I).
  assert (storeFails (db threeTree) = []) as Hs by (vm_compute; reflexivity).
  split; [exact Hat |]. split; [exact HGg |]. split; [exact HGu |].
  split; [exact Hnd |]. split; [exact Hs |].
  destruct (Put_below_red_parent_red_uncle 8 threeTree (bkey 20) []
              (plainNode (bkey 30) [] [] (bkey 50) red) true
              (plainNode (bkey 50) (bkey 30) (bkey 70) [] black)
              (plainNode (bkey 70) [] [] (bkey 50) red)
              Hat eq_refl HGg eq_refl HGu eq_refl Hnd Hs)
    as (tree' & Hrun & _ & Hsize & Hk & Hm & Hu & Hg & _).
  exists tree'. split; [exact Hrun |].
  split; [rewrite Hsize; vm_compute; reflexivity |].
  split; [exact Hk |]. split; [exact Hm |]. split; [exact Hu | exact Hg].
Defined.

(** ** Removal of a black leaf *)

Lemma store_same t n :
  records (db t) !! Key n = Some (NItem n) -> store t n = t.
Proof.
  intros Hr. unfold store. rewrite insert_id by done. by destruct t as [[] ? ? ?].
Qed.

Lemma GetNode_EmptyKey t : GetNode t EmptyKey = (None, None).
Proof. unfold GetNode, db_Get, db_IsEmptyKey. by rewrite bool_decide_eq_true_2. Qed.

(** X14: removing a black leaf whose parent is red and whose sibling is a
    black leaf turns the sibling red and the parent black and unhooks the
    leaf from the parent, one off the count; the record of the removed key
    itself is never deleted, so [Has] still finds it. *)
Theorem Remove_black_leaf_red_parent tree key n p s fuel :
  GetNode tree key = (Some n, None) ->
  LeftKey (Some n) = EmptyKey -> RightKey (Some n) = EmptyKey ->
  Color (NItem n) = black ->
  GetNode tree (ParentKey (Some n)) = (Some p, None) ->
  Color (NItem p) = red ->
  GetNode tree (if Comparator tree key (LeftKey (Some p)) =? 0
                then RightKey (Some p) else LeftKey (Some p)) = (Some s, None) ->
  Color (NItem s) = black ->
  LeftKey (Some s) = EmptyKey -> RightKey (Some s) = EmptyKey ->
  NoDup [key; Key p; Key s] ->
  storeFails (db tree) = [] ->
  exists tree',
    Remove (S fuel) key tree = Ret (tt, tree') /\
    rootKey tree' = rootKey tree /\
    size tree' = wrap64 (size tree - 1) /\
    records (db tree') !! Key p
    = Some (NItem (relinked tree key EmptyKey (withColor black p))) /\
    records (db tree') !! Key s = Some (NItem (withColor red s)) /\
    records (db tree') !! key = Some (NItem n) /\
    Has tree' key = (true, None) /\
    (forall k, k <> Key p -> k <> Key s ->
       records (db tree') !! k = records (db tree) !! k).
Proof.
  intros HG HL HR HC HGp Hpred HGs Hsblack HsL HsR Hnd Hs. unfold black, red in *.
  assert (fst (GetNode tree key) = Some n) as HG' by (by rewrite HG).
  apply GetNode_Some in HG' as (_ & Hk & Hrec & Hke & Hkl).
  destruct (GetNode_loaded _ _ _ HGp) as (Hpk & Hpe & Hpl).
  destruct (GetNode_loaded _ _ _ HGs) as (Hsk & Hse & Hsl).
  apply NoDup_cons in Hnd as (Hk1 & Hnd). apply NoDup_cons in Hnd as (Hk2 & _).
  assert (key <> Key p /\ key <> Key s /\ Key p <> Key s) as (Hkp & Hks & Hps) by set_solver.
  assert (bool_decide (EmptyKey = EmptyKey) = true) as Heb by (by apply bool_decide_eq_true_2).
  assert (Node_Parent tree (Some n) = Some p) as Hnp by (unfold Node_Parent; by rewrite HGp).
  assert (Node_sibling tree (Some n) = Some s) as Hns.
  { unfold Node_sibling. rewrite Hnp, Hk. unfold Node_Right, Node_Left.
    destruct (Comparator tree key (LeftKey (Some p)) =? 0); by rewrite HGs. }
  assert (Node_Left tree (Some s) = None) as Hsl0
    by (unfold Node_Left; by rewrite HsL, GetNode_EmptyKey).
  assert (Node_Right tree (Some s) = None) as Hsr0
    by (unfold Node_Right; by rewrite HsR, GetNode_EmptyKey).
  unfold Remove. rewrite bind_gets, HG. cbv zeta.
  rewrite bind_gets. unfold IsEmptyKey at 1, db_IsEmptyKey. rewrite HL, Heb. cbn [negb].
  rewrite bind_ret, bind_gets. unfold IsEmptyKey at 1, db_IsEmptyKey. rewrite HR, Heb.
  cbn [negb]. rewrite bind_ret. cbn [isNil negb andb orb]. rewrite bind_ret.
  run_tree. rewrite HC. unfold black. cbv iota. cbn [nodeColor]. unfold black.
  assert (withColor true n = n) as -> by (destruct n as [? [? ? ?]]; simpl in *; by subst).
  run_tree. rewrite (store_same tree n) by (by rewrite Hk).
  cbn [deleteCase1]. run_tree.
  unfold IsEmptyKey at 1, db_IsEmptyKey.
  rewrite (bool_decide_eq_false_2 _ Hpe).
  unfold deleteCase2 at 1. run_tree. rewrite Hns. cbn [nodeColor]. rewrite Hsblack.
  cbn [negb]. run_tree.
  unfold deleteCase3 at 1. run_tree. rewrite Hnp, Hns, Hsl0, Hsr0. cbn [nodeColor].
  rewrite Hpred. unfold red. cbn [andb].
  unfold deleteCase4. run_tree. rewrite Hnp, Hns, Hsl0, Hsr0. cbn [nodeColor].
  rewrite Hpred, Hsblack. cbn [negb andb].
  unfold setColor, black, red. cbn [andb]. run_tree.
  set (t2 := store (store tree (withColor false s)) (withColor true p)).
  assert (Node_Parent t2 (Some n) = Some (withColor true p)) as Hnp2.
  { unfold Node_Parent, t2. rewrite <- Hpk.
    pose proof (GetNode_store_eq (store tree (withColor false s)) (withColor true p)) as H.
    cbn [withColor Key] in H. rewrite H; [done | by rewrite Hpk | by rewrite Hpk]. }
  unfold replaceNode. run_tree.
  unfold IsEmptyKey at 1, db_IsEmptyKey. rewrite (bool_decide_eq_false_2 _ Hpe).
  run_tree. rewrite Hnp2.
  change (Comparator t2 (Key n) (LeftKey (Some (withColor true p))))
    with (Comparator tree (Key n) (LeftKey (Some p))).
  rewrite Hk.
  set (pr := relinked tree key EmptyKey (withColor true p)).
  assert ((if Comparator tree key (LeftKey (Some p)) =? 0
           then setLeftKey (Some (withColor true p)) EmptyKey
           else setRightKey (Some (withColor true p)) EmptyKey) = Some pr) as ->.
  { unfold pr, relinked. change (LeftKey (Some (withColor true p))) with (LeftKey (Some p)).
    by destruct (_ =? _). }
  assert (Key pr = Key p) as Hkpr by (unfold pr; by rewrite Key_relinked).
  run_tree. unfold IsEmptyKey at 1, db_IsEmptyKey. rewrite (bool_decide_eq_false_2 _ Hpe).
  cbn [andb]. run_tree. unfold decSize, modify.
  eexists. split; [reflexivity |]. cbn [rootKey size db store records t2].
  rewrite Hkpr. change (Key (withColor true p)) with (Key p).
  change (Key (withColor false s)) with (Key s).
  assert (forall k, k <> Key p -> k <> Key s ->
            <[Key p:=NItem pr]> (<[Key p:=NItem (withColor true p)]>
              (<[Key s:=NItem (withColor false s)]> (records (db tree)))) !! k
            = records (db tree) !! k) as Hother
    by (intros k' Hn1 Hn2; by rewrite !lookup_insert_ne by congruence).
  split; [done |]. split; [done |]. split; [by rewrite lookup_insert_eq |].
  split; [by rewrite !lookup_insert_ne, lookup_insert_eq by congruence |].
  split; [by rewrite Hother |]. split; [| exact Hother].
  unfold Has, db_Has, db_IsEmptyKey. cbn [db records loadFails].
  rewrite (bool_decide_eq_false_2 _ Hke), (bool_decide_eq_false_2 _ Hkl), Hother, Hrec by done.
  by rewrite bool_decide_eq_true_2 by (by eexists).
Qed.

Lemma Remove_black_leaf_red_parent_witness :
  GetNode prunedTree (bkey 40) = (Some (plainNode (bkey 40) [] [] (bkey 60) black), None) /\
  GetNode prunedTree (bkey 60)
  = (Some (plainNode (bkey 60) (bkey 40) (bkey 70) (bkey 30) red), None) /\
  GetNode prunedTree (bkey 70) = (Some (plainNode (bkey 70) [] [] (bkey 60) black), None) /\
  NoDup (map bkey [40; 60; 70]%N) /\
  storeFails (db prunedTree) = [] /\
  exists tree',
    Remove 1 (bkey 40) prunedTree = Ret (tt, tree') /\
    size tree' = wrap64 (size prunedTree - 1) /\
    records (db tree') !! bkey 60
    = Some (mkItem (mkKeyMeta [] (bkey 70) (bkey 30)) [] black) /\
    records (db tree') !! bkey 70 = Some (mkItem (mkKeyMeta [] [] (bkey 60)) [] red) /\
    Has tree' (bkey 40) = (true, None).
Proof.
  assert (GetNode prunedTree (bkey 40)
          = (Some (plainNode (bkey 40) [] [] (bkey 60) black), None))
    as HG by (vm_compute; reflexivity).
  assert (GetNode prunedTree (bkey 60)
          = (Some (plainNode (bkey 60) (bkey 40) (bkey 70) (bkey 30) red), None))
    as HGp by (vm_compute; reflexivity).
  assert (GetNode prunedTree (bkey 70)
          = (Some (plainNode (bkey 70) [] [] (bkey 60) black), None))
    as HGs by (vm_compute; reflexivity).
  assert (NoDup (map bkey [40; 60; 70]%N)) as Hnd
    by (apply (bool_decide_unpack _); vm_compute; exact I).
  assert (storeFails (db prunedTree) = []) as Hs by (vm_compute; reflexivity).
  split; [exact HG |]. split; [exact HGp |]. split; [exact HGs |].
  split; [exact Hnd |]. split; [exact Hs |].
  destruct (Remove_black_leaf_red_parent prunedTree (bkey 40)
              (plainNode (bkey 40) [] [] (bkey 60) black)
              (plainNode (bkey 60) (bkey 40) (bkey 70) (bkey 30) red)
              (plainNode (bkey 70) [] [] (bkey 60) black) 0
              HG eq_refl eq_refl eq_refl HGp eq_refl HGs eq_refl eq_refl eq_refl Hnd Hs)
    as (tree' & Hrun & _ & Hsize & Hp & Hsib & _ & Hhas & _).
  exists tree'. split; [exact Hrun |]. split; [exact Hsize |].
  split; [etransitivity; [exact Hp | vm_compute; reflexivity] |].
  split; [exact Hsib | exact Hhas].
Defined.

Lemma GetNode_same_record t t' k :
  loadFails (db t') = loadFails (db t) ->
  records (db t') !! k = records (db t) !! k ->
  GetNode t' k = GetNode t k.
Proof. unfold GetNode, db_Get, db_IsEmptyKey. by intros -> ->. Qed.

(** X15: removing a black leaf whose parent is the black root and whose
    sibling is a black leaf turns the sibling red, unhooks the leaf from
    the root and deletes the record of the removed key, one off the count;
    the record of the root is kept. *)
Theorem Remove_black_leaf_below_root tree key n p s fuel :
  GetNode tree key = (Some n, None) ->
  LeftKey (Some n) = EmptyKey -> RightKey (Some n) = EmptyKey ->
  Color (NItem n) = black ->
  GetNode tree (ParentKey (Some n)) = (Some p, None) ->
  Color (NItem p) = black ->
  ParentKey (Some p) = EmptyKey ->
  rootKey tree = Key p ->
  Comparator tree (Key p) (Key p) = 0 ->
  Comparator tree key (Key p) <> 0 ->
  1 < size tree ->
  GetNode tree (if Comparator tree key (LeftKey (Some p)) =? 0
                then RightKey (Some p) else LeftKey (Some p)) = (Some s, None) ->
  Color (NItem s) = black ->
  LeftKey (Some s) = EmptyKey -> RightKey (Some s) = EmptyKey ->
  NoDup [key; Key p; Key s] ->
  storeFails (db tree) = [] ->
  exists tree',
    Remove (S (S fuel)) key tree = Ret (tt, tree') /\
    rootKey tree' = rootKey tree /\
    size tree' = wrap64 (size tree - 1) /\
    records (db tree') !! Key p = Some (NItem (relinked tree key EmptyKey p)) /\
    records (db tree') !! Key s = Some (NItem (withColor red s)) /\
    records (db tree') !! key = None /\
    Has tree' key = (false, None) /\
    (forall k, k <> key -> k <> Key p -> k <> Key s ->
       records (db tree') !! k = records (db tree) !! k).
Proof.
  intros HG HL HR HC HGp Hpblack Hpp Hroot Hrefl Hcmp Hsz HGs Hsblack HsL HsR Hnd Hs.
  unfold black, red in *.
  assert (fst (GetNode tree key) = Some n) as HG' by (by rewrite HG).
  apply GetNode_Some in HG' as (_ & Hk & Hrec & Hke & Hkl).
  destruct (GetNode_loaded _ _ _ HGp) as (Hpk & Hpe & Hpl).
  destruct (GetNode_loaded _ _ _ HGs) as (Hsk & Hse & Hsl).
  apply NoDup_cons in Hnd as (Hk1 & Hnd). apply NoDup_cons in Hnd as (Hk2 & _).
  assert (key <> Key p /\ key <> Key s /\ Key p <> Key s) as (Hkp & Hks & Hps) by set_solver.
  assert (bool_decide (EmptyKey = EmptyKey) = true) as Heb by (by apply bool_decide_eq_true_2).
  assert (Node_Parent tree (Some n) = Some p) as Hnp by (unfold Node_Parent; by rewrite HGp).
  assert (Node_sibling tree (Some n) = Some s) as Hns.
  { unfold Node_sibling. rewrite Hnp, Hk. unfold Node_Right, Node_Left.
    destruct (Comparator tree key (LeftKey (Some p)) =? 0); by rewrite HGs. }
  assert (Node_Left tree (Some s) = None) as Hsl0
    by (unfold Node_Left; by rewrite HsL, GetNode_EmptyKey).
  assert (Node_Right tree (Some s) = None) as Hsr0
    by (unfold Node_Right; by rewrite HsR, GetNode_EmptyKey).
  unfold Remove. rewrite bind_gets, HG. cbv zeta.
  rewrite bind_gets. unfold IsEmptyKey at 1, db_IsEmptyKey. rewrite HL, Heb. cbn [negb].
  rewrite bind_ret, bind_gets. unfold IsEmptyKey at 1, db_IsEmptyKey. rewrite HR, Heb.
  cbn [negb]. rewrite bind_ret. cbn [isNil negb andb orb]. rewrite bind_ret.
  run_tree. rewrite HC. unfold black. cbv iota. cbn [nodeColor]. unfold black.
  assert (withColor true n = n) as -> by (destruct n as [? [? ? ?]]; simpl in *; by subst).
  run_tree. rewrite (store_same tree n) by (by rewrite Hk).
  cbn [deleteCase1]. run_tree.
  unfold IsEmptyKey at 1, db_IsEmptyKey.
  rewrite (bool_decide_eq_false_2 _ Hpe).
  unfold deleteCase2 at 1. run_tree. rewrite Hns. cbn [nodeColor]. rewrite Hsblack.
  cbn [negb]. run_tree.
  unfold deleteCase3 at 1. run_tree. rewrite Hnp, Hns, Hsl0, Hsr0. cbn [nodeColor].
  rewrite Hpblack, Hsblack. unfold black. cbn [andb].
  unfold setColor at 1. run_tree. unfold red.
  set (t1 := store tree (withColor false s)).
  unfold IsEmptyKey at 1, db_IsEmptyKey. rewrite Hpp, Heb.
  unfold deleteNode at 1. run_tree.
  change (size t1) with (size tree). change (rootKey t1) with (rootKey tree).
  change (Comparator t1) with (Comparator tree).
  rewrite Hroot, Hrefl, (proj2 (Z.ltb_lt 1 (size tree)) Hsz). cbn [andb Z.eqb].
  run_tree. unfold deleteNode at 1. run_tree.
  change (size t1) with (size tree). change (rootKey t1) with (rootKey tree).
  change (Comparator t1) with (Comparator tree).
  rewrite Hroot, Hk, (proj2 (Z.eqb_neq _ 0) Hcmp), andb_false_r.
  unfold modify at 1. unfold bind at 1.
  set (t3 := mkTree (db_Delete (db t1) key false) (rootKey t1) (size t1) (Comparator t1)).
  assert (Node_Parent t3 (Some n) = Some p) as Hnp3.
  { unfold Node_Parent. rewrite (GetNode_same_record tree t3), HGp; [done | done |].
    unfold t3, t1. cbn [db db_Delete store records]. rewrite <- Hpk.
    change (Key (withColor false s)) with (Key s).
    by rewrite lookup_delete_ne, lookup_insert_ne by congruence. }
  unfold replaceNode. run_tree.
  unfold IsEmptyKey at 1, db_IsEmptyKey. rewrite (bool_decide_eq_false_2 _ Hpe).
  run_tree. rewrite Hnp3.
  change (Comparator t3) with (Comparator tree). rewrite Hk.
  set (pr := relinked tree key EmptyKey p).
  assert ((if Comparator tree key (LeftKey (Some p)) =? 0
           then setLeftKey (Some p) EmptyKey
           else setRightKey (Some p) EmptyKey) = Some pr) as ->
    by (unfold pr, relinked; by destruct (_ =? _)).
  assert (Key pr = Key p) as Hkpr by (unfold pr; by rewrite Key_relinked).
  run_tree. unfold IsEmptyKey at 1, db_IsEmptyKey. rewrite (bool_decide_eq_false_2 _ Hpe).
  cbn [andb]. run_tree. unfold decSize, modify.
  eexists. split; [reflexivity |]. cbn [rootKey size db store records t3 t1 db_Delete].
  rewrite Hkpr. change (Key (withColor false s)) with (Key s).
  split; [done |]. split; [done |]. split; [by rewrite lookup_insert_eq |].
  split; [by rewrite lookup_insert_ne, lookup_delete_ne, lookup_insert_eq by congruence |].
  assert (<[Key p:=NItem pr]>
            (delete key (<[Key s:=NItem (withColor false s)]> (records (db tree)))) !! key
          = None) as Hnone
    by (by rewrite lookup_insert_ne, lookup_delete_eq by congruence).
  split; [exact Hnone |]. split.
  - unfold Has, db_Has, db_IsEmptyKey. cbn [db records loadFails].
    rewrite (bool_decide_eq_false_2 _ Hke), (bool_decide_eq_false_2 _ Hkl), Hnone.
    by rewrite bool_decide_eq_false_2 by (by intros [? ?]).
  - intros k' Hn1 Hn2 Hn3.
    by rewrite lookup_insert_ne, lookup_delete_ne, lookup_insert_ne by congruence.
Qed.

Lemma Remove_black_leaf_below_root_witness :
  GetNode trimmedTree (bkey 30) = (Some (plainNode (bkey 30) [] [] (bkey 50) black), None) /\
  GetNode trimmedTree (bkey 50)
  = (Some (plainNode (bkey 50) (bkey 30) (bkey 70) [] black), None) /\
  GetNode trimmedTree (bkey 70) = (Some (plainNode (bkey 70) [] [] (bkey 50) black), None) /\
  rootKey trimmedTree = bkey 50 /\
  1 < size trimmedTree /\
  NoDup (map bkey [30; 50; 70]%N) /\
  storeFails (db trimmedTree) = [] /\
  exists tree',
    Remove 2 (bkey 30) trimmedTree = Ret (tt, tree') /\
    size tree' = 2 /\
    records (db tree') !! bkey 50
    = Some (mkItem (mkKeyMeta [] (bkey 70) []) [] black) /\
    records (db tree') !! bkey 70 = Some (mkItem (mkKeyMeta [] [] (bkey 50)) [] red) /\
    Has tree' (bkey 30) = (false, None).
Proof.
  assert (GetNode trimmedTree (bkey 30)
          = (Some (plainNode (bkey 30) [] [] (bkey 50) black), None))
    as HG by (vm_compute; reflexivity).
  assert (GetNode trimmedTree (bkey 50)
          = (Some (plainNode (bkey 50) (bkey 30) (bkey 70) [] black), None))
    as HGp by (vm_compute; reflexivity).
  assert (GetNode trimmedTree (bkey 70)
          = (Some (plainNode (bkey 70) [] [] (bkey 50) black), None))
    as HGs by (vm_compute; reflexivity).
  assert (rootKey trimmedTree = bkey 50) as Hroot by (vm_compute; reflexivity).
  assert (1 < size trimmedTree) as Hsz by (vm_compute; reflexivity).
  assert (NoDup (map bkey [30; 50; 70]%N)) as Hnd
    by (apply (bool_decide_unpack _); vm_compute; exact I).
  assert (storeFails (db trimmedTree) = []) as Hs by (vm_compute; reflexivity).
  split; [exact HG |]. split; [exact HGp |]. split; [exact HGs |].
  split; [exact Hroot |]. split; [exact Hsz |]. split; [exact Hnd |]. split; [exact Hs |].
  destruct (Remove_black_leaf_below_root trimmedTree (bkey 30)
              (plainNode (bkey 30) [] [] (bkey 50) black)
              (plainNode (bkey 50) (bkey 30) (bkey 70) [] black)
              (plainNode (bkey 70) [] [] (bkey 50) black) 0
              HG eq_refl eq_refl eq_refl HGp eq_refl eq_refl Hroot)
    as (tree' & Hrun & _ & Hsize & Hp & Hsib & _ & Hhas & _);
    [vm_compute; reflexivity | vm_compute; discriminate | exact Hsz | exact HGs
    | reflexivity | reflexivity | reflexivity | exact Hnd | exact Hs |].
  exists tree'. split; [exact Hrun |].
  split; [rewrite Hsize; vm_compute; reflexivity |].
  split; [etransitivity; [exact Hp | vm_compute; reflexivity] |].
  split; [exact Hsib | exact Hhas].
Defined.

(** ** Insertion that rotates at the grandparent *)

Lemma replaceNode_run (x y : Node) t :
  storeFails (db t) = [] ->
  (ParentKey (Some x) = EmptyKey \/
   exists p, GetNode t (ParentKey (Some x)) = (Some p, None)) ->
  exists t1,
    replaceNode (Some x) (Some y) t
    = Ret (Some (linked (LeftKey (Some y)) (RightKey (Some y)) (ParentKey (Some x)) y), t1) /\
    storeFails (db t1) = [] /\
    loadFails (db t1) = loadFails (db t) /\
    size t1 = size t /\
    rootKey t1 = (if bool_decide (ParentKey (Some x) = EmptyKey)
                  then Key y else rootKey t) /\
    (forall k, k <> Key y -> k <> ParentKey (Some x) -> GetNode t1 k = GetNode t k).
Proof.
  intros Hs [Hp | (p & Hp)].
  - eexists. split; [rewrite Hp; by apply replaceNode_root |].
    split; [done |]. split; [done |]. split; [done |].
    split; [by rewrite (bool_decide_eq_true_2 _ Hp) |].
    intros k Hk _. by rewrite GetNode_store_ne.
  - destruct (GetNode_loaded _ _ _ Hp) as (Hpk & Hpe & _).
    eexists. split; [by apply (replaceNode_child x y p) |].
    split; [done |]. split; [done |]. split; [done |].
    split; [by rewrite (bool_decide_eq_false_2 _ Hpe) |].
    intros k Hk Hkp. rewrite !GetNode_store_ne; [done | | done].
    by rewrite Key_relinked, Hpk.
Qed.

(** X16: a new key hung to the right of a red node that is itself the
    right child of a node without left child, the red node having no left
    child either, makes [Put] rotate left at the grandparent: the red node
    is stored black in the grandparent's place, with the grandparent red
    to its left and the new key red to its right; the count goes up by
    one and no record outside these three and the great-grandparent
    changes. *)
Theorem Put_outer_right_rotates fuel tree key value m g :
  TotalOrder (Comparator tree) ->
  attachPoint fuel tree key (Root tree) = Ret (Some (m, false)) ->
  Color (NItem m) = red ->
  LeftKey (Some m) = EmptyKey ->
  GetNode tree (ParentKey (Some m)) = (Some g, None) ->
  RightKey (Some g) = Key m ->
  LeftKey (Some g) = EmptyKey ->
  (ParentKey (Some g) = EmptyKey \/
   exists gg, GetNode tree (ParentKey (Some g)) = (Some gg, None) /\
              ~ In (Key gg) [key; Key m; Key g]) ->
  NoDup [key; Key m; Key g] ->
  key <> EmptyKey ->
  key ∉ loadFails (db tree) ->
  storeFails (db tree) = [] ->
  let g' := withColor red g in
  let m' := withColor black (attached key m false) in
  let ins := mkNode key (mkItem (mkKeyMeta [] [] (Key m)) value red) in
  exists tree',
    Put fuel key value tree = Ret (None, tree') /\
    Stored tree' (Key m) (rotatedLeft Leaf g' Leaf m' (Br Leaf ins Leaf)) /\
    keys (rotatedLeft Leaf g' Leaf m' (Br Leaf ins Leaf)) = [Key g; Key m; key] /\
    size tree' = wrap64 (size tree + 1) /\
    rootKey tree' = (if bool_decide (ParentKey (Some g) = EmptyKey)
                     then Key m else rootKey tree) /\
    (forall k, ~ In k [key; Key m; Key g] -> k <> ParentKey (Some g) ->
       GetNode tree' k = GetNode tree k).
Proof.
  intros Hord Hat Hred HmL HGg HgR HgL Hpar Hnd Hke Hkl Hs g' m' ins.
  unfold black, red in *.
  destruct (attachPoint_loaded _ _ _ _ _ _ Hat) as (Hload & Hcmp).
  assert (exists k, fst (GetNode tree k) = Some m) as (k & Hk).
  { destruct Hload as [Hr | Hx]; [| exact Hx]. exists (rootKey tree). exact Hr. }
  apply GetNode_Some in Hk as (_ & <- & _ & Hme & Hml).
  destruct (GetNode_loaded _ _ _ HGg) as (Hgk & Hge & Hgl).
  assert (IsEmptyKey tree (rootKey tree) = false) as Hroot.
  { destruct (Root tree) as [r|] eqn:Hr; [| by destruct fuel].
    apply GetNode_Some in Hr as (_ & _ & _ & Hr & _). by apply bool_decide_eq_false_2. }
  apply NoDup_cons in Hnd as (Hk1 & Hnd). apply NoDup_cons in Hnd as (Hk2 & _).
  assert (key <> Key m /\ key <> Key g /\ Key m <> Key g) as (Hkm & Hkg & Hmg) by set_solver.
  assert (forall a, Comparator tree a a = 0) as Hrefl by (intros a; by apply (cmp_eq _ Hord)).
  assert (forall a b, a <> b -> (Comparator tree a b =? 0) = false) as Hneq.
  { intros a b Hab. apply Z.eqb_neq. intros E. by apply (cmp_eq _ Hord) in E. }
  destruct fuel as [|fuel]; [discriminate |].
  set (m1 := attached key m false).
  assert (Key m1 = Key m) as Hkm1 by reflexivity.
  unfold Put. rewrite bind_gets, Hroot, bind_gets.
  unfold bind at 1. rewrite (Put_loop_attach _ _ _ value _ _ _ Hat Hs).
  fold m1. cbn [deref]. rewrite bind_ret.
  change (setParentKey (newNode key value) (Key m1)) with (Some ins).
  rewrite bind_Save by done.
  set (t2 := store (store tree m1) ins).
  assert (forall k, k <> key -> k <> Key m -> GetNode t2 k = GetNode tree k) as Ht2
    by (intros k Ha Hb; unfold t2; by rewrite !GetNode_store_ne).
  assert (GetNode t2 (Key m) = (Some m1, None)) as Ht2m.
  { unfold t2. rewrite GetNode_store_ne by (simpl; congruence).
    by apply (GetNode_store_eq tree m1). }
  assert (Node_Parent t2 (Some ins) = Some m1) as Hp
    by (unfold Node_Parent; change (ParentKey (Some ins)) with (Key m); by rewrite Ht2m).
  assert (Node_Parent t2 (Some m1) = Some g) as Hpg.
  { unfold Node_Parent. change (ParentKey (Some m1)) with (ParentKey (Some m)).
    rewrite Ht2, HGg; [done | |]; rewrite <- Hgk; congruence. }
  assert (Node_uncle t2 (Some ins) = None) as Hunc.
  { unfold Node_uncle, Node_sibling. rewrite Hp, Hpg.
    change (Comparator t2) with (Comparator tree). rewrite HgL, Hneq by done.
    unfold Node_Left. by rewrite HgL, GetNode_EmptyKey. }
  unfold Put_fixup. cbn [insertCase1]. run_tree.
  unfold IsEmptyKey at 1, db_IsEmptyKey.
  change (ParentKey (Some ins)) with (Key m).
  rewrite (bool_decide_eq_false_2 _ Hme).
  unfold insertCase2 at 1. run_tree.
  rewrite Hp. cbn [nodeColor].
  change (Color (NItem m1)) with (Color (NItem m)). rewrite Hred. cbv iota.
  unfold insertCase3 at 1. run_tree. rewrite Hp, Hunc. cbn [nodeColor]. unfold black.
  cbn [negb]. cbv iota.
  unfold insertCase4. run_tree. rewrite Hp, Hpg. cbn [assertNotNull]. run_tree.
  change (Comparator t2) with (Comparator tree).
  change (Key ins) with key. change (RightKey (Some m1)) with key.
  change (LeftKey (Some m1)) with (LeftKey (Some m)).
  rewrite HgL, HmL, (Hneq (Key m1) EmptyKey), (Hneq key EmptyKey) by done.
  rewrite andb_false_r. cbn [andb].
  unfold insertCase5. run_tree. rewrite Hp. unfold setColor at 1. run_tree.
  change (withColor black m1) with m'. set (t3 := store t2 m').
  assert (Node_Parent t3 (Some m') = Some g) as Hpg3.
  { unfold Node_Parent. change (ParentKey (Some m')) with (ParentKey (Some m)).
    unfold t3. rewrite GetNode_store_ne, Ht2, HGg; try done; rewrite <- Hgk; simpl; congruence. }
  rewrite Hpg3. cbn [assertNotNull]. unfold setColor at 1. run_tree.
  change (withColor red g) with g'. set (t4 := store t3 g').
  change (Comparator t4) with (Comparator tree).
  change (Key ins) with key. change (RightKey (Some m')) with key.
  change (LeftKey (Some m')) with (LeftKey (Some m)).
  change (Key m') with (Key m). change (RightKey (Some g')) with (RightKey (Some g)).
  change (LeftKey (Some g')) with (LeftKey (Some g)).
  rewrite HmL, HgR, (Hneq key EmptyKey), !Hrefl by done. cbn [andb Z.eqb].
  assert (forall k, k <> key -> k <> Key m -> k <> Key g -> GetNode t4 k = GetNode tree k)
    as Ht4.
  { intros k Ha Hb Hc. unfold t4, t3. rewrite !GetNode_store_ne by done. by apply Ht2. }
  assert (GetNode t4 (Key g) = (Some g', None)) as Ht4g.
  { unfold t4. apply (GetNode_store_eq t3 g'); simpl; by rewrite Hgk. }
  assert (GetNode t4 (Key m) = (Some m', None)) as Ht4m.
  { unfold t4, t3. rewrite GetNode_store_ne by (simpl; congruence).
    by apply (GetNode_store_eq t2 m'). }
  assert (GetNode t4 key = (Some ins, None)) as Ht4k.
  { unfold t4, t3, t2. rewrite !GetNode_store_ne by (simpl; congruence).
    by apply (GetNode_store_eq (store tree m1) ins). }
  assert (Stored t4 (Key g') (Br Leaf g' (Br Leaf m' (Br Leaf ins Leaf)))) as HS.
  { apply Stored_node; [exact Ht4g | |].
    - change (LeftKey (Some g')) with (LeftKey (Some g)). rewrite HgL. constructor.
    - change (RightKey (Some g')) with (RightKey (Some g)). rewrite HgR.
      apply Stored_node; [exact Ht4m | |].
      + change (LeftKey (Some m')) with (LeftKey (Some m)). rewrite HmL. constructor.
      + change (RightKey (Some m')) with key.
        apply Stored_node; [exact Ht4k | constructor | constructor]. }
  assert (NoDup (keys (Br Leaf g' (Br Leaf m' (Br Leaf ins Leaf))))) as Hnd0.
  { change (NoDup [Key g; Key m; key]).
    repeat (apply NoDup_cons; split); [set_solver | set_solver | set_solver | constructor]. }
  assert (ParentKey (Some g') = EmptyKey \/
          exists p, GetNode t4 (ParentKey (Some g')) = (Some p, None)) as Hpar4.
  { destruct Hpar as [Hp0 | (gg & HGgg & Hout)]; [by left | right].
    exists gg. destruct (GetNode_loaded _ _ _ HGgg) as (Hggk & _ & _).
    change (ParentKey (Some g')) with (ParentKey (Some g)).
    rewrite Ht4; [done | | |]; rewrite <- Hggk; intros E; apply Hout; rewrite E; simpl; tauto. }
  destruct (replaceNode_run g' m' t4 Hs Hpar4)
    as (t1 & Hrep & Hs1 & Hl1 & Hsz1 & Hroot1 & Hframe1).
  destruct (rotateLeft_Stored g' m' Leaf Leaf (Br Leaf ins Leaf) t4 t1 HS Hnd0 Hrep Hs1 Hl1)
    as (t5 & Hrun & HS5 & Hroot5 & Hsz5 & Hframe5).
  { intros k Hin Hkm'. apply Hframe1; [exact Hkm' |].
    change (In k [Key g; Key m; key]) in Hin.
    change (ParentKey (Some g')) with (ParentKey (Some g)).
    destruct Hpar as [Hp0 | (gg & HGgg & Hout)].
    - rewrite Hp0. simpl in Hin. destruct Hin as [<- | [<- | [<- | []]]]; congruence.
    - destruct (GetNode_loaded _ _ _ HGgg) as (Hggk & _ & _). rewrite <- Hggk.
      intros ->. apply Hout. simpl in *. tauto. }
  destruct (rotateLeft_sameMeta _ _ _ _ Hrun) as (Hsz45 & Hc5 & _ & Hs5).
  unfold bind at 1. rewrite Hrun. run_tree.
  assert (GetNode t5 key = (Some ins, None)) as Ht5k.
  { inversion HS5 as [| ? ? ? ? _ _ HSr]; subst.
    inversion HSr as [| ? ? ? ? HGk _ _]; subst. exact HGk. }
  assert (fst (GetNode t5 key) = Some ins) as Ht5k' by (by rewrite Ht5k).
  apply GetNode_Some in Ht5k' as (_ & _ & Hrec5 & _ & _).
  rewrite bind_Save by (rewrite Hs5; exact Hs).
  rewrite (store_same t5 ins) by exact Hrec5.
  unfold incSize, modify, bind, ret.
  eexists. split; [reflexivity |].
  split; [| split; [reflexivity | split; [| split]]].
  - apply (Stored_frame t5); [exact HS5 | reflexivity].
  - cbn [size]. rewrite Hsz45. reflexivity.
  - cbn [rootKey]. rewrite Hroot5, Hroot1. reflexivity.
  - intros k Hout Hkp.
    change (GetNode t5 k = GetNode tree k).
    assert (k <> key /\ k <> Key m /\ k <> Key g) as (Hn1 & Hn2 & Hn3)
      by (simpl in Hout; repeat split; intros ->; tauto).
    rewrite Hframe5, Hframe1, Ht4; try done.
    change (~ In k [Key g; Key m; key]). simpl. intros [E | [E | [E | []]]]; congruence.
Qed.

Lemma Put_outer_right_rotates_witness :
  attachPoint 10 ascendingTree (bkey 70) (Root ascendingTree)
  = Ret (Some (plainNode (bkey 60) [] [] (bkey 40) red, false)) /\
  GetNode ascendingTree (bkey 40)
  = (Some (plainNode (bkey 40) [] (bkey 60) (bkey 30) black), None) /\
  (exists gg, GetNode ascendingTree (bkey 30) = (Some gg, None) /\
              ~ In (Key gg) (map bkey [70; 60; 40]%N)) /\
  NoDup (map bkey [70; 60; 40]%N) /\
  storeFails (db ascendingTree) = [] /\
  exists tree',
    Put 10 (bkey 70) [] ascendingTree = Ret (None, tree') /\
    size tree' = 5 /\
    rootKey tree' = bkey 30 /\
    GetNode tree' (bkey 60)
    = (Some (plainNode (bkey 60) (bkey 40) (bkey 70) (bkey 30) black), None) /\
    inorderKeys 10 tree' = map bkey [20; 30; 40; 60; 70]%N.
Proof.
  assert (attachPoint 10 ascendingTree (bkey 70) (Root ascendingTree)
          = Ret (Some (plainNode (bkey 60) [] [] (bkey 40) red, false)))
    as Hat by (vm_compute; reflexivity).
  assert (GetNode ascendingTree (bkey 40)
          = (Some (plainNode (bkey 40) [] (bkey 60) (bkey 30) black), None))
    as HGg by (vm_compute; reflexivity).
  assert (exists gg, GetNode ascendingTree (bkey 30) = (Some gg, None) /\
                     ~ In (Key gg) (map bkey [70; 60; 40]%N)) as Hgg.
  { eexists. split; [vm_compute; reflexivity |].
    rewrite <- list_elem_of_In. apply (bool_decide_unpack _). vm_compute. exact I. }
  assert (NoDup (map bkey [70; 60; 40]%N)) as Hnd
    by (apply (bool_decide_unpack _); vm_compute; exact I).
  assert (storeFails (db ascendingTree) = []) as Hs by (vm_compute; reflexivity).
  split; [exact Hat |]. split; [exact HGg |]. split; [exact Hgg |].
  split; [exact Hnd |]. split; [exact Hs |].
  destruct (Put_outer_right_rotates 10 ascendingTree (bkey 70) []
              (plainNode (bkey 60) [] [] (bkey 40) red)
              (plainNode (bkey 40) [] (bkey 60) (bkey 30) black)
              bytesCompare_total Hat eq_refl eq_refl HGg eq_refl eq_refl (or_intror Hgg) Hnd)
    as (tree' & Hrun & HS & _ & Hsize & Hroot & _);
    [vm_compute; discriminate | | exact Hs |].
  { apply (bool_decide_unpack _). vm_compute. exact I. }
  exists tree'. split; [exact Hrun |].
  split; [rewrite Hsize; vm_compute; reflexivity |].
  split; [rewrite Hroot; vm_compute; reflexivity |].
  split.
  - inversion HS as [| ? ? ? ? HG _ _]; subst. exact HG.
  - vm_compute in Hrun. injection Hrun as <-. vm_compute. reflexivity.
Defined.
